(** * Event-sourcing core: a shallow embedding of the Python sources

    The development follows the layout of the repository:

    - [Bus]         eventsourcing/domain/model/events.py, the process-wide
                    subscription table ([subscribe], [unsubscribe], [publish],
                    [assert_event_handlers_empty]);
    - [Events]      the same file: [DomainEvent] and the topic functions
                    ([topic_from_domain_class], [resolve_domain_topic],
                    [resolve_attr]);
    - [Recorder]    the log backend that test_applicationrecorder.py drives;
    - [Player]      the event player that test_event_player.py drives;
    - [Transcoding] eventsourcing/utils/transcoding.py: the encoder and
                    decoder policies, their registrations, and the JSON
                    encoder and decoder classes built on them.

    Python exceptions are values of [exn]; a call that may raise returns a
    [result]. *)

From Stdlib Require Import ZArith Lia Ascii String.
From stdpp Require Import base option list strings gmap.
From Equations Require Import Equations.

Open Scope string_scope.
Open Scope list_scope.

(** ** Exceptions and results *)

Inductive exn : Type :=
  | AttributeError
  | AssertionError
  | ImportError
  | ValueError
  | TypeError
  | KeyError
  | EncoderTypeError
  | TopicResolutionError
  | ConcurrencyConflict
  | EntityNotFound
  | LogIntegrityError
  | RecursionError
  | Exception.

#[global] Instance exn_eq_dec : EqDecision exn.
Proof. solve_decision. Defined.

Inductive result (A : Type) : Type :=
  | Ok (a : A)
  | Raise (e : exn).
Arguments Ok {A} a.
Arguments Raise {A} e.

#[global] Instance result_ret : MRet result := fun A a => Ok a.

#[global] Instance result_bind : MBind result := fun A B k r =>
  match r with
  | Ok a => k a
  | Raise e => Raise e
  end.

#[global] Instance result_fmap : FMap result := fun A B f r =>
  match r with
  | Ok a => Ok (f a)
  | Raise e => Raise e
  end.

(** ** The event bus (events.py, lines 78-109) *)

Module Bus.

Section table.
(** [P] are the predicate objects used as dictionary keys, [H] the
    subscriber callables; both are compared the way Python compares them
    ([in], [list.remove], dictionary lookup), which is decidable. *)
Context {P H : Type} `{EqDecision P, EqDecision H}.

(** [_event_handlers = OrderedDict()]: keys in insertion order. *)
Definition table : Type := list (P * list H).

Definition keys (t : table) : list P := t.*1.

(** [k in d] *)
Definition od_contains (k : P) (t : table) : bool :=
  bool_decide (k ∈ keys t).

(** [d[k]], read where the key is known to be present. *)
Fixpoint od_get (k : P) (t : table) : list H :=
  match t with
  | [] => []
  | (q, hs) :: t' => if decide (k = q) then hs else od_get k t'
  end.

(** [d[k] = v]: an existing key keeps its position, a new key goes last. *)
Fixpoint od_set (k : P) (v : list H) (t : table) : table :=
  match t with
  | [] => [(k, v)]
  | (q, hs) :: t' =>
      if decide (k = q) then (q, v) :: t' else (q, hs) :: od_set k v t'
  end.

(** [d.pop(k)] *)
Fixpoint od_pop (k : P) (t : table) : table :=
  match t with
  | [] => []
  | (q, hs) :: t' => if decide (k = q) then t' else (q, hs) :: od_pop k t'
  end.

(** [handlers.remove(x)]: the first occurrence goes. *)
Fixpoint list_remove_first (x : H) (l : list H) : list H :=
  match l with
  | [] => []
  | y :: l' => if decide (x = y) then l' else y :: list_remove_first x l'
  end.

(** [subscribe(event_predicate, subscriber)] *)
Definition subscribe (event_predicate : P) (subscriber : H) (t : table)
  : table :=
  let t1 :=
    if od_contains event_predicate t then t
    else od_set event_predicate [] t in
  od_set event_predicate (od_get event_predicate t1 ++ [subscriber]) t1.

(** [unsubscribe(event_predicate, subscriber)] *)
Definition unsubscribe (event_predicate : P) (subscriber : H) (t : table)
  : table :=
  if od_contains event_predicate t then
    let handlers := od_get event_predicate t in
    if bool_decide (subscriber ∈ handlers) then
      let handlers' := list_remove_first subscriber handlers in
      let t1 := od_set event_predicate handlers' t in
      match handlers' with
      | [] => od_pop event_predicate t1
      | _ :: _ => t1
      end
    else t
  else t.

(** [assert_event_handlers_empty()] *)
Definition assert_event_handlers_empty (t : table) : result unit :=
  if bool_decide (length t ≠ 0) then Raise Exception else Ok tt.

(** [n] calls of [subscribe] with the same pair. *)
Fixpoint subscribe_n (n : nat) (p : P) (h : H) (t : table) : table :=
  match n with
  | O => t
  | S n' => subscribe_n n' p h (subscribe p h t)
  end.

Section publish.
(** An event type [Ev], what [event_predicate(event)] comes to ([Ok b] with
    [b] the truth value of what the predicate returns, [Raise] when it
    raises), and the effect of [handler(event)] on the rest of the program
    state [W] ([Raise] when the handler raises). *)
Context {Ev W : Type}.
Variable holds : P → Ev → result bool.
Variable run : H → Ev → W → result W.

(** The inner loop of [publish]: [if handler not in matching_handlers:
    matching_handlers.append(handler)]. *)
Definition collect (matching_handlers : list H) (handlers : list H)
  : list H :=
  fold_left
    (fun acc handler =>
       if bool_decide (handler ∈ acc) then acc else acc ++ [handler])
    handlers matching_handlers.

(** One round of the first loop of [publish]: [if event_predicate(event):]
    and the inner loop.  Once a predicate has raised, no other is asked. *)
Definition matching_step (event : Ev) (acc : result (list H))
    (item : P * list H) : result (list H) :=
  matching_handlers ← acc;
  b ← holds item.1 event;
  Ok (if (b : bool) then collect matching_handlers item.2
      else matching_handlers).

(** The first loop of [publish], over [_event_handlers.items()]. *)
Definition matching_handlers (t : table) (event : Ev) : result (list H) :=
  fold_left (matching_step event) t (Ok []).

(** The second loop: [for handler in matching_handlers: handler(event)].
    The calls made are logged in order; an exception ends the loop. *)
Fixpoint invoke (hs : list H) (event : Ev) (w : W) : list H * result W :=
  match hs with
  | [] => ([], Ok w)
  | h :: hs' =>
      match run h event w with
      | Ok w' => let '(calls, r) := invoke hs' event w' in (h :: calls, r)
      | Raise e => ([h], Raise e)
      end
  end.

(** [publish(event)]: the handlers called, in order, and the outcome.  A
    predicate that raises ends [publish] before any handler is called. *)
Definition publish (t : table) (event : Ev) (w : W) : list H * result W :=
  match matching_handlers t event with
  | Ok hs => invoke hs event w
  | Raise e => ([], Raise e)
  end.

(** What the bus is to compute, in the words of its description: the
    handlers under the predicates that match [event], predicates in
    insertion order, and of that list only the first occurrence of each
    handler. *)
Fixpoint matching_buckets (t : table) (event : Ev) : list H :=
  match t with
  | [] => []
  | (event_predicate, handlers) :: t' =>
      match holds event_predicate event with
      | Ok true => handlers ++ matching_buckets t' event
      | _ => matching_buckets t' event
      end
  end.

Fixpoint first_seen_from (seen : list H) (l : list H) : list H :=
  match l with
  | [] => []
  | h :: l' =>
      if bool_decide (h ∈ seen) then first_seen_from seen l'
      else h :: first_seen_from (seen ++ [h]) l'
  end.

Definition first_seen (l : list H) : list H := first_seen_from [] l.

(** The handlers of [hs] called one after the other, each on the state the
    one before it left, up to the first that raises: the outcome, and the
    handlers that are called. *)
Fixpoint run_in_order (hs : list H) (event : Ev) (w : W) : result W :=
  match hs with
  | [] => Ok w
  | h :: hs' => w' ← run h event w; run_in_order hs' event w'
  end.

Fixpoint called_in_order (hs : list H) (event : Ev) (w : W) : list H :=
  match hs with
  | [] => []
  | h :: hs' =>
      h :: match run h event w with
           | Ok w' => called_in_order hs' event w'
           | Raise _ => []
           end
  end.

End publish.

(** The calls of [subscribe] and [unsubscribe] a program makes, and the
    table they leave when made in order on [t]. *)
Inductive call : Type :=
  | Subscribe (p : P) (h : H)
  | Unsubscribe (p : P) (h : H).

Definition make_call (t : table) (c : call) : table :=
  match c with
  | Subscribe p h => subscribe p h t
  | Unsubscribe p h => unsubscribe p h t
  end.

Definition make_calls (calls : list call) (t : table) : table :=
  foldl make_call t calls.

(** What the table of a running program looks like: every predicate is a
    key once, and no bucket is empty. *)
Definition well_formed (t : table) : Prop :=
  NoDup (keys t) ∧ ∀ p hs, (p, hs) ∈ t → hs ≠ [].

(** Number of occurrences of a handler in a bucket. *)
Definition occurrences (h : H) (l : list H) : nat :=
  length (filter (eq h) l).

(** *** The ordered dictionary *)

Lemma od_get_set_eq (k : P) (v : list H) (t : table) :
  od_get k (od_set k v t) = v.
Proof.
  induction t as [|[q hs] t IH]; simpl.
  - by rewrite decide_True.
  - destruct (decide (k = q)) as [->|Hne]; simpl.
    + by rewrite decide_True.
    + by rewrite decide_False.
Qed.

Lemma od_get_set_ne (k q : P) (v : list H) (t : table) :
  q ≠ k → od_get q (od_set k v t) = od_get q t.
Proof.
  intros Hne. induction t as [|[r hs] t IH]; simpl.
  - by rewrite decide_False.
  - destruct (decide (k = r)) as [->|Hkr]; simpl.
    + by rewrite !decide_False.
    + by rewrite IH.
Qed.

Lemma od_get_pop_ne (k q : P) (t : table) :
  q ≠ k → od_get q (od_pop k t) = od_get q t.
Proof.
  intros Hne. induction t as [|[r hs] t IH]; simpl; [done|].
  destruct (decide (k = r)) as [->|Hkr]; simpl.
  - by rewrite decide_False.
  - by rewrite IH.
Qed.

Lemma od_get_absent (k : P) (t : table) : k ∉ keys t → od_get k t = [].
Proof.
  induction t as [|[q hs] t IH]; simpl; [done|].
  rewrite not_elem_of_cons. intros [Hne Hnin].
  rewrite decide_False; auto.
Qed.

Lemma keys_od_set_present (k : P) (v : list H) (t : table) :
  k ∈ keys t → keys (od_set k v t) = keys t.
Proof.
  induction t as [|[q hs] t IH]; simpl.
  - by intros ?%elem_of_nil.
  - destruct (decide (k = q)) as [->|Hne]; simpl; [done|].
    rewrite elem_of_cons. intros [?|Hin]; [done|].
    f_equal. by apply IH.
Qed.

Lemma keys_od_set_absent (k : P) (v : list H) (t : table) :
  k ∉ keys t → keys (od_set k v t) = keys t ++ [k].
Proof.
  induction t as [|[q hs] t IH]; simpl; [done|].
  rewrite not_elem_of_cons. intros [Hne Hnin].
  rewrite decide_False; [|done]. simpl. f_equal. by apply IH.
Qed.

Lemma keys_od_pop (k : P) (t : table) :
  NoDup (keys t) → ∀ q, q ∈ keys (od_pop k t) ↔ q ∈ keys t ∧ q ≠ k.
Proof.
  induction t as [|[r hs] t IH]; simpl; intros Hnd q.
  - rewrite elem_of_nil. tauto.
  - apply NoDup_cons in Hnd as [Hr Hnd].
    destruct (decide (k = r)) as [->|Hkr]; simpl.
    + rewrite elem_of_cons. split.
      * intros Hq. split; [by right|]. by intros ->.
      * intros [[?|?] ?]; done.
    + rewrite !elem_of_cons, IH by done. split.
      * intros [->|[? ?]]; split; auto.
      * intros [[->|?] ?]; auto.
Qed.

Lemma NoDup_keys_od_pop (k : P) (t : table) :
  NoDup (keys t) → NoDup (keys (od_pop k t)).
Proof.
  induction t as [|[r hs] t IH]; simpl; intros Hnd; [done|].
  pose proof Hnd as Hall.
  apply NoDup_cons in Hnd as [Hr Hnd].
  destruct (decide (k = r)) as [->|Hkr]; simpl; [done|].
  apply NoDup_cons. split; [|by apply IH].
  intros Hin. apply keys_od_pop in Hin as [? ?]; done.
Qed.

Lemma NoDup_keys_od_set (k : P) (v : list H) (t : table) :
  NoDup (keys t) → NoDup (keys (od_set k v t)).
Proof.
  intros Hnd. destruct (decide (k ∈ keys t)) as [Hin|Hnin].
  - by rewrite keys_od_set_present.
  - rewrite keys_od_set_absent by done.
    apply NoDup_app. split_and!; [done| |apply NoDup_singleton].
    intros q Hq ->%list_elem_of_singleton. done.
Qed.

(** *** [subscribe] and [unsubscribe] *)

Lemma od_get_subscribe (p : P) (h : H) (t : table) :
  od_get p (subscribe p h t) = od_get p t ++ [h].
Proof.
  unfold subscribe, od_contains. case_bool_decide as Hin.
  - by rewrite od_get_set_eq.
  - by rewrite !od_get_set_eq, od_get_absent.
Qed.

Lemma od_get_subscribe_ne (p q : P) (h : H) (t : table) :
  q ≠ p → od_get q (subscribe p h t) = od_get q t.
Proof.
  intros Hne. unfold subscribe, od_contains. case_bool_decide.
  - by rewrite od_get_set_ne.
  - by rewrite !od_get_set_ne.
Qed.

Lemma subscribe_NoDup_keys (p : P) (h : H) (t : table) :
  NoDup (keys t) → NoDup (keys (subscribe p h t)).
Proof.
  intros Hnd. unfold subscribe. apply NoDup_keys_od_set.
  destruct (od_contains p t); [done|]. by apply NoDup_keys_od_set.
Qed.

Lemma subscribe_length_pos (p : P) (h : H) (t : table) :
  length (subscribe p h t) ≠ 0.
Proof.
  unfold subscribe.
  assert (∀ k v (u : table), length (od_set k v u) ≠ 0) as Hlen.
  { intros k v [|[q hs] u]; simpl; [lia|]. destruct (decide (k = q)); simpl; lia. }
  apply Hlen.
Qed.

Lemma od_get_subscribe_n (n : nat) (p : P) (h : H) (t : table) :
  od_get p (subscribe_n n p h t) = od_get p t ++ replicate n h.
Proof.
  revert t. induction n as [|n IH]; intros t; simpl.
  - by rewrite app_nil_r.
  - by rewrite IH, od_get_subscribe, <- app_assoc.
Qed.

Lemma occurrences_app (h : H) (l1 l2 : list H) :
  occurrences h (l1 ++ l2) = occurrences h l1 + occurrences h l2.
Proof. unfold occurrences. by rewrite filter_app, length_app. Qed.

Lemma occurrences_replicate (h : H) (n : nat) :
  occurrences h (replicate n h) = n.
Proof.
  unfold occurrences. induction n as [|n IH]; simpl; [done|].
  rewrite filter_cons_True by done. simpl. by rewrite IH.
Qed.

Lemma occurrences_remove_first (h : H) (l : list H) :
  h ∈ l → S (occurrences h (list_remove_first h l)) = occurrences h l.
Proof.
  unfold occurrences. induction l as [|y l IH]; simpl.
  - by intros ?%elem_of_nil.
  - intros Hin. destruct (decide (h = y)) as [->|Hne].
    + by rewrite filter_cons_True.
    + rewrite !filter_cons_False by done.
      apply IH. apply elem_of_cons in Hin as [?|?]; done.
Qed.

Lemma occurrences_remove_first_ne (h g : H) (l : list H) :
  g ≠ h → occurrences g (list_remove_first h l) = occurrences g l.
Proof.
  intros Hne. unfold occurrences. induction l as [|y l IH]; simpl; [done|].
  destruct (decide (h = y)) as [->|Hhy].
  - by rewrite filter_cons_False.
  - destruct (decide (g = y)) as [->|Hgy].
    + rewrite !filter_cons_True by done. simpl. by rewrite IH.
    + rewrite !filter_cons_False by done. done.
Qed.

Lemma od_get_elem_keys (p : P) (h : H) (t : table) :
  h ∈ od_get p t → p ∈ keys t.
Proof.
  induction t as [|[q hs] t IH]; simpl.
  - by intros ?%elem_of_nil.
  - destruct (decide (p = q)) as [->|Hne]; intros Hin.
    + apply elem_of_cons. by left.
    + apply elem_of_cons. right. by apply IH.
Qed.

Lemma unsubscribe_absent (p : P) (h : H) (t : table) :
  h ∉ od_get p t → unsubscribe p h t = t.
Proof.
  intros Hnin. unfold unsubscribe.
  destruct (od_contains p t); [|done].
  by rewrite bool_decide_eq_false_2.
Qed.

Lemma od_get_unsubscribe (p : P) (h : H) (t : table) :
  NoDup (keys t) → h ∈ od_get p t →
  od_get p (unsubscribe p h t) = list_remove_first h (od_get p t).
Proof.
  intros Hnd Hin. unfold unsubscribe, od_contains.
  pose proof (od_get_elem_keys _ _ _ Hin) as Hkey.
  rewrite !bool_decide_eq_true_2 by done.
  destruct (list_remove_first h (od_get p t)) as [|g l] eqn:Hrem.
  - apply od_get_absent. intros Hp.
    apply keys_od_pop in Hp as [_ ?]; [done|]. by apply NoDup_keys_od_set.
  - by rewrite od_get_set_eq.
Qed.

Lemma od_get_unsubscribe_ne (p q : P) (h : H) (t : table) :
  q ≠ p → od_get q (unsubscribe p h t) = od_get q t.
Proof.
  intros Hne. unfold unsubscribe.
  destruct (od_contains p t); [|done].
  case_bool_decide; [|done].
  destruct (list_remove_first h (od_get p t)).
  - by rewrite od_get_pop_ne, od_get_set_ne.
  - by rewrite od_get_set_ne.
Qed.

Lemma unsubscribe_key (p : P) (h : H) (t : table) :
  NoDup (keys t) → h ∈ od_get p t →
  p ∈ keys (unsubscribe p h t) ↔ list_remove_first h (od_get p t) ≠ [].
Proof.
  intros Hnd Hin. unfold unsubscribe, od_contains.
  pose proof (od_get_elem_keys _ _ _ Hin) as Hkey.
  rewrite !bool_decide_eq_true_2 by done.
  destruct (list_remove_first h (od_get p t)) as [|g l] eqn:Hrem.
  - split; [|done]. intros Hp.
    apply keys_od_pop in Hp as [_ ?]; [done|]. by apply NoDup_keys_od_set.
  - split; [done|]. intros _. by rewrite keys_od_set_present.
Qed.

Lemma unsubscribe_NoDup_keys (p : P) (h : H) (t : table) :
  NoDup (keys t) → NoDup (keys (unsubscribe p h t)).
Proof.
  intros Hnd. unfold unsubscribe.
  destruct (od_contains p t); [|done].
  case_bool_decide; [|done].
  destruct (list_remove_first h (od_get p t)).
  - by apply NoDup_keys_od_pop, NoDup_keys_od_set.
  - by apply NoDup_keys_od_set.
Qed.

(** C10: subscriptions form a multiset per predicate.  [n] subscriptions of
    one (predicate, handler) pair append [n] occurrences of the handler to
    the predicate's bucket; [unsubscribe] removes exactly one occurrence,
    leaves every other handler and bucket alone, and does nothing when the
    pair is not subscribed; after two subscriptions and one unsubscription
    the handler is still in the bucket and [assert_event_handlers_empty]
    raises; the predicate key survives an unsubscription exactly when
    occurrences remain in its bucket. *)
Theorem subscribe_unsubscribe_occurrences
    (t : table) (p : P) (h : H) (n : nat) :
  NoDup (keys t) →
  (od_get p (subscribe_n n p h t) = od_get p t ++ replicate n h
   ∧ occurrences h (od_get p (subscribe_n n p h t))
     = occurrences h (od_get p t) + n)
  ∧ (h ∈ od_get p t →
     od_get p (unsubscribe p h t) = list_remove_first h (od_get p t)
     ∧ S (occurrences h (od_get p (unsubscribe p h t)))
       = occurrences h (od_get p t)
     ∧ (∀ g, g ≠ h →
          occurrences g (od_get p (unsubscribe p h t))
          = occurrences g (od_get p t))
     ∧ (p ∈ keys (unsubscribe p h t)
        ↔ list_remove_first h (od_get p t) ≠ []))
  ∧ (∀ q, q ≠ p → od_get q (unsubscribe p h t) = od_get q t)
  ∧ (h ∉ od_get p t → unsubscribe p h t = t)
  ∧ (let t' := unsubscribe p h (subscribe p h (subscribe p h t)) in
     h ∈ od_get p t'
     ∧ p ∈ keys t'
     ∧ assert_event_handlers_empty t' = Raise Exception).
Proof.
  intros Hnd. split_and!.
  - apply od_get_subscribe_n.
  - by rewrite od_get_subscribe_n, occurrences_app, occurrences_replicate.
  - intros Hin. rewrite od_get_unsubscribe by done. split_and!.
    + done.
    + by apply occurrences_remove_first.
    + intros g Hg. by apply occurrences_remove_first_ne.
    + by apply unsubscribe_key.
  - intros q Hq. by apply od_get_unsubscribe_ne.
  - apply unsubscribe_absent.
  - assert (NoDup (keys (subscribe p h (subscribe p h t)))) as Hnd2
      by by do 2 apply subscribe_NoDup_keys.
    assert (od_get p (subscribe p h (subscribe p h t))
            = od_get p t ++ [h; h]) as Hget
      by by rewrite !od_get_subscribe, <- app_assoc.
    assert (h ∈ od_get p (subscribe p h (subscribe p h t))) as Hin.
    { rewrite Hget, elem_of_app, !elem_of_cons. auto. }
    assert (h ∈ list_remove_first h (od_get p (subscribe p h (subscribe p h t))))
      as Hstill.
    { rewrite Hget. clear. induction (od_get p t) as [|y l IH]; simpl.
      - rewrite decide_True by done. apply elem_of_cons; auto.
      - destruct (decide (h = y)) as [->|Hne].
        + rewrite elem_of_app, !elem_of_cons. auto.
        + apply elem_of_cons. by right. }
    cbv zeta. split_and!.
    + by rewrite od_get_unsubscribe.
    + apply unsubscribe_key; [done..|]. intros Hnil.
      rewrite Hnil in Hstill. by apply elem_of_nil in Hstill.
    + unfold assert_event_handlers_empty.
      rewrite bool_decide_eq_true_2; [done|].
      assert (p ∈ keys (unsubscribe p h (subscribe p h (subscribe p h t))))
        as Hkey.
      { apply unsubscribe_key; [done..|]. intros Hnil.
        rewrite Hnil in Hstill. by apply elem_of_nil in Hstill. }
      destruct (unsubscribe p h (subscribe p h (subscribe p h t))); [|done].
      by apply elem_of_nil in Hkey.
Qed.

(** *** The table of a running program *)

Lemma elem_of_od_set (k q : P) (v hs : list H) (t : table) :
  NoDup (keys t) →
  (q, hs) ∈ od_set k v t ↔ (q = k ∧ hs = v) ∨ (q ≠ k ∧ (q, hs) ∈ t).
Proof.
  induction t as [|[r rs] t IH]; simpl; intros Hnd.
  - rewrite list_elem_of_singleton, elem_of_nil. split.
    + intros [= -> ->]. by left.
    + intros [[-> ->]|[_ []]]. done.
  - apply NoDup_cons in Hnd as [Hr Hnd].
    destruct (decide (k = r)) as [->|Hkr].
    + rewrite !elem_of_cons. split.
      * intros [[= -> ->]|Hin]; [by left|]. right. split; [|by right].
        intros ->. apply Hr. by apply (list_elem_of_fmap_2 fst) in Hin.
      * intros [[-> ->]|[Hne [[= -> ->]|Hin]]]; [by left|done|by right].
    + rewrite !elem_of_cons, IH by done. split.
      * intros [[= -> ->]|[[-> ->]|[Hne Hin]]].
        -- right. split; [done|by left].
        -- by left.
        -- right. split; [done|by right].
      * intros [[-> ->]|[Hne [[= -> ->]|Hin]]].
        -- right. by left.
        -- by left.
        -- right. right. by split.
Qed.

Lemma elem_of_od_pop (k q : P) (hs : list H) (t : table) :
  NoDup (keys t) → (q, hs) ∈ od_pop k t ↔ q ≠ k ∧ (q, hs) ∈ t.
Proof.
  induction t as [|[r rs] t IH]; simpl; intros Hnd.
  - rewrite elem_of_nil. tauto.
  - apply NoDup_cons in Hnd as [Hr Hnd].
    destruct (decide (k = r)) as [->|Hkr].
    + rewrite elem_of_cons. split.
      * intros Hin. split; [|by right]. intros ->. apply Hr.
        by apply (list_elem_of_fmap_2 fst) in Hin.
      * intros [Hne [[= -> ->]|Hin]]; done.
    + rewrite !elem_of_cons, IH by done. split.
      * intros [[= -> ->]|[Hne Hin]]; split; auto.
      * intros [Hne [[= -> ->]|Hin]]; auto.
Qed.

Lemma od_get_elem (p : P) (hs : list H) (t : table) :
  NoDup (keys t) → (p, hs) ∈ t → od_get p t = hs.
Proof.
  induction t as [|[r rs] t IH]; simpl; intros Hnd Hin.
  - by apply elem_of_nil in Hin.
  - apply NoDup_cons in Hnd as [Hr Hnd].
    apply elem_of_cons in Hin as [[= -> ->]|Hin].
    + by rewrite decide_True.
    + rewrite decide_False; [by apply IH|]. intros ->. apply Hr.
      by apply (list_elem_of_fmap_2 fst) in Hin.
Qed.

Lemma elem_of_od_get (p : P) (t : table) :
  p ∈ keys t → (p, od_get p t) ∈ t.
Proof.
  induction t as [|[r rs] t IH]; simpl.
  - by intros ?%elem_of_nil.
  - destruct (decide (p = r)) as [->|Hne]; intros Hin.
    + apply list_elem_of_here.
    + apply list_elem_of_further, IH.
      apply elem_of_cons in Hin as [?|?]; done.
Qed.

Lemma od_set_absent (k : P) (v : list H) (t : table) :
  k ∉ keys t → od_set k v t = t ++ [(k, v)].
Proof.
  induction t as [|[r rs] t IH]; simpl; [done|].
  rewrite not_elem_of_cons. intros [Hne Hnin].
  rewrite decide_False by done. by rewrite IH.
Qed.

Lemma od_set_last (k : P) (v v' : list H) (t : table) :
  k ∉ keys t → od_set k v (t ++ [(k, v')]) = t ++ [(k, v)].
Proof.
  induction t as [|[r rs] t IH]; simpl.
  - intros _. by rewrite decide_True.
  - rewrite not_elem_of_cons. intros [Hne Hnin].
    rewrite decide_False by done. by rewrite IH.
Qed.

Lemma od_pop_last (k : P) (v : list H) (t : table) :
  k ∉ keys t → od_pop k (t ++ [(k, v)]) = t.
Proof.
  induction t as [|[r rs] t IH]; simpl.
  - intros _. by rewrite decide_True.
  - rewrite not_elem_of_cons. intros [Hne Hnin].
    rewrite decide_False by done. by rewrite IH.
Qed.

Lemma od_get_last (k : P) (v : list H) (t : table) :
  k ∉ keys t → od_get k (t ++ [(k, v)]) = v.
Proof.
  induction t as [|[r rs] t IH]; simpl.
  - intros _. by rewrite decide_True.
  - rewrite not_elem_of_cons. intros [Hne Hnin].
    rewrite decide_False by done. by apply IH.
Qed.

Lemma od_set_set (k : P) (v v' : list H) (t : table) :
  od_set k v (od_set k v' t) = od_set k v t.
Proof.
  induction t as [|[r rs] t IH]; simpl.
  - by rewrite decide_True.
  - destruct (decide (k = r)) as [->|Hne]; simpl.
    + by rewrite decide_True.
    + by rewrite decide_False, IH.
Qed.

Lemma od_set_get (k : P) (t : table) :
  k ∈ keys t → od_set k (od_get k t) t = t.
Proof.
  induction t as [|[r rs] t IH]; simpl.
  - by intros ?%elem_of_nil.
  - destruct (decide (k = r)) as [->|Hne]; [done|].
    intros Hin. rewrite IH; [done|].
    apply elem_of_cons in Hin as [?|?]; done.
Qed.

Lemma list_remove_first_app_new (h : H) (l : list H) :
  h ∉ l → list_remove_first h (l ++ [h]) = l.
Proof.
  induction l as [|y l IH]; simpl.
  - intros _. by rewrite decide_True.
  - rewrite not_elem_of_cons. intros [Hne Hnin].
    by rewrite decide_False, IH.
Qed.

Lemma od_contains_true (k : P) (t : table) :
  od_contains k t = true ↔ k ∈ keys t.
Proof. unfold od_contains. apply bool_decide_eq_true. Qed.

Lemma subscribe_well_formed (p : P) (h : H) (t : table) :
  well_formed t → well_formed (subscribe p h t).
Proof.
  intros [Hnd Hne]. split; [by apply subscribe_NoDup_keys|].
  intros q hs. unfold subscribe, od_contains. case_bool_decide as Hin.
  - rewrite elem_of_od_set by done. intros [[-> ->]|[_ Hq]].
    + by destruct (od_get p t).
    + by eapply Hne.
  - rewrite (od_set_absent p [] t), od_get_last, od_set_last by done.
    rewrite elem_of_app, list_elem_of_singleton.
    intros [Hq|[= -> ->]]; [by eapply Hne|done].
Qed.

Lemma unsubscribe_well_formed (p : P) (h : H) (t : table) :
  well_formed t → well_formed (unsubscribe p h t).
Proof.
  intros [Hnd Hne]. split; [by apply unsubscribe_NoDup_keys|].
  intros q hs. unfold unsubscribe.
  destruct (od_contains p t); [|by apply Hne].
  case_bool_decide; [|by apply Hne].
  destruct (list_remove_first h (od_get p t)) as [|g l] eqn:Hrem.
  - rewrite elem_of_od_pop by by apply NoDup_keys_od_set.
    rewrite elem_of_od_set by done.
    intros [Hq [[-> _]|[_ Hin]]]; [done|by eapply Hne].
  - rewrite elem_of_od_set by done.
    intros [[-> ->]|[_ Hin]]; [done|by eapply Hne].
Qed.

Lemma make_calls_well_formed (calls : list call) (t : table) :
  well_formed t → well_formed (make_calls calls t).
Proof.
  revert t. induction calls as [|c calls IH]; intros t Ht; [done|].
  apply IH. destruct c; simpl.
  - by apply subscribe_well_formed.
  - by apply unsubscribe_well_formed.
Qed.

(** X1: the empty-handlers check is a reliable fence: whatever calls of
    [subscribe] and [unsubscribe] were made since the table was empty, the
    table has every predicate once and no empty bucket, and
    [assert_event_handlers_empty] passes exactly if no handler is left
    under any predicate. *)
Theorem assert_event_handlers_empty_fence (calls : list call) :
  well_formed (make_calls calls [])
  ∧ (assert_event_handlers_empty (make_calls calls []) = Ok tt
     ↔ ∀ p h, h ∉ od_get p (make_calls calls [])).
Proof.
  assert (well_formed (make_calls calls [])) as Hwf.
  { apply make_calls_well_formed. split; [apply NoDup_nil_2|].
    by intros p hs ?%elem_of_nil. }
  split; [done|]. destruct Hwf as [Hnd Hne].
  unfold assert_event_handlers_empty.
  destruct (make_calls calls []) as [|[p hs] t].
  - simpl. split; [|done]. intros _ q h. apply not_elem_of_nil.
  - rewrite bool_decide_eq_true_2 by done. split; [done|]. intros Hnone.
    destruct hs as [|h hs].
    + exfalso. apply (Hne p []); [apply list_elem_of_here|done].
    + exfalso. apply (Hnone p h). simpl. rewrite decide_True by done.
      apply list_elem_of_here.
Qed.

(** X2: subscribing a handler that is not yet under the predicate and
    unsubscribing it again leaves the table as it was. *)
Theorem unsubscribe_subscribe (p : P) (h : H) (t : table) :
  well_formed t → h ∉ od_get p t →
  unsubscribe p h (subscribe p h t) = t.
Proof.
  intros [Hnd Hne] Hnew.
  destruct (decide (p ∈ keys t)) as [Hin|Hnin].
  - assert (subscribe p h t = od_set p (od_get p t ++ [h]) t) as ->.
    { unfold subscribe. by rewrite (proj2 (od_contains_true p t) Hin). }
    unfold unsubscribe.
    rewrite (proj2 (od_contains_true _ _)), od_get_set_eq
      by by rewrite keys_od_set_present.
    rewrite bool_decide_eq_true_2
      by (rewrite elem_of_app, list_elem_of_singleton; auto).
    rewrite list_remove_first_app_new, od_set_set, od_set_get by done.
    pose proof (Hne p (od_get p t) (elem_of_od_get p t Hin)).
    by destruct (od_get p t).
  - assert (subscribe p h t = t ++ [(p, [h])]) as ->.
    { unfold subscribe, od_contains.
      rewrite bool_decide_eq_false_2 by done.
      by rewrite (od_set_absent p [] t), od_get_last, od_set_last. }
    assert (od_contains p (t ++ [(p, [h])]) = true) as Hcontains.
    { apply od_contains_true. unfold keys. rewrite fmap_app, elem_of_app.
      right. apply list_elem_of_here. }
    unfold unsubscribe. rewrite Hcontains, od_get_last by done.
    rewrite bool_decide_eq_true_2 by apply list_elem_of_here.
    cbn [list_remove_first]. rewrite decide_True by done.
    by rewrite od_set_last, od_pop_last.
Qed.

(** X3: [subscribe] never reorders the predicates: one that is in the table
    keeps its place, a new one goes last; the handler goes last in its
    bucket, and the other buckets are as before. *)
Theorem subscribe_keeps_order (p : P) (h : H) (t : table) :
  keys (subscribe p h t)
  = (if bool_decide (p ∈ keys t) then keys t else keys t ++ [p])
  ∧ od_get p (subscribe p h t) = od_get p t ++ [h]
  ∧ ∀ q, q ≠ p → od_get q (subscribe p h t) = od_get q t.
Proof.
  split_and!.
  - unfold subscribe, od_contains. case_bool_decide as Hin.
    + by rewrite keys_od_set_present.
    + rewrite (od_set_absent p [] t), od_get_last, od_set_last by done.
      unfold keys. by rewrite fmap_app.
  - apply od_get_subscribe.
  - intros q Hq. by apply od_get_subscribe_ne.
Qed.

Section publish_facts.
Context {Ev W : Type}.
Variable holds : P → Ev → result bool.
Variable run : H → Ev → W → result W.

Lemma first_seen_from_app (seen l1 l2 : list H) :
  first_seen_from seen (l1 ++ l2)
  = first_seen_from seen l1
      ++ first_seen_from (seen ++ first_seen_from seen l1) l2.
Proof.
  revert seen. induction l1 as [|h l1 IH]; intros seen; simpl.
  - by rewrite app_nil_r.
  - case_bool_decide; [apply IH|].
    rewrite IH. simpl. by rewrite <- app_assoc.
Qed.

Lemma collect_first_seen (acc hs : list H) :
  collect acc hs = acc ++ first_seen_from acc hs.
Proof.
  unfold collect. revert acc. induction hs as [|h hs IH]; intros acc; simpl.
  - by rewrite app_nil_r.
  - rewrite IH. case_bool_decide; [done|]. by rewrite <- app_assoc.
Qed.

Ltac first_loop_step :=
  cbn [fold_left]; unfold matching_step at 2; cbn [mbind result_bind fst snd].

(** Once a predicate has raised, the first loop is over. *)
Lemma matching_step_raise (t : table) (event : Ev) (x : exn) :
  fold_left (matching_step holds event) t (Raise x) = Raise x.
Proof. induction t as [|[p hs] t IH]; [done|]. exact IH. Qed.

(** Where the first loop comes to its end, it has built the first-encounter
    order. *)
Lemma matching_step_first_seen (t : table) (event : Ev)
    (acc matching : list H) :
  fold_left (matching_step holds event) t (Ok acc) = Ok matching →
  matching = acc ++ first_seen_from acc (matching_buckets holds t event).
Proof.
  revert acc. induction t as [|[p hs] t IH]; intros acc.
  - intros [= <-]. simpl. by rewrite app_nil_r.
  - first_loop_step. cbn [matching_buckets].
    destruct (holds p event) as [[]|x]; cbn [mbind result_bind].
    + intros ->%IH.
      by rewrite collect_first_seen, first_seen_from_app, <- app_assoc.
    + apply IH.
    + by rewrite matching_step_raise.
Qed.

(** It comes to its end when every predicate returns. *)
Lemma matching_step_returns (t : table) (event : Ev) (acc : list H) :
  (∀ p hs, (p, hs) ∈ t → ∃ b, holds p event = Ok b) →
  ∃ matching, fold_left (matching_step holds event) t (Ok acc) = Ok matching.
Proof.
  revert acc. induction t as [|[p hs] t IH]; intros acc Hret.
  - by eexists.
  - first_loop_step.
    destruct (Hret p hs) as [b ->]; [apply list_elem_of_here|].
    cbn [mbind result_bind]. apply IH. intros q hs' Hin. apply (Hret q hs').
    by apply list_elem_of_further.
Qed.

(** Where it raises, a predicate raised, and the predicates before that
    one returned. *)
Lemma matching_step_raises (t : table) (event : Ev) (acc : list H)
    (x : exn) :
  fold_left (matching_step holds event) t (Ok acc) = Raise x →
  ∃ before p hs after,
    t = before ++ (p, hs) :: after
    ∧ holds p event = Raise x
    ∧ ∀ q hs', (q, hs') ∈ before → ∃ b, holds q event = Ok b.
Proof.
  revert acc. induction t as [|[p hs] t IH]; intros acc; [done|].
  first_loop_step.
  destruct (holds p event) as [b|y] eqn:Hp; cbn [mbind result_bind].
  - intros (before & q & hs' & after & -> & Hq & Hbefore)%IH.
    exists ((p, hs) :: before), q, hs', after. split_and!; [done..|].
    intros r hs'' [[= -> ->]|Hin]%elem_of_cons; [by exists b|].
    by apply (Hbefore r hs'').
  - rewrite matching_step_raise. intros [= ->].
    exists [], p, hs, t. split_and!; [done..|].
    by intros q hs' ?%elem_of_nil.
Qed.

(** The two loops of [publish] compute the first-encounter order. *)
Lemma matching_handlers_first_seen (t : table) (event : Ev)
    (matching : list H) :
  matching_handlers holds t event = Ok matching →
  matching = first_seen (matching_buckets holds t event).
Proof. apply matching_step_first_seen. Qed.

Lemma elem_of_first_seen_from (seen l : list H) (x : H) :
  x ∈ first_seen_from seen l ↔ x ∈ l ∧ x ∉ seen.
Proof.
  revert seen. induction l as [|h l IH]; intros seen; simpl.
  - rewrite elem_of_nil. tauto.
  - case_bool_decide as Hh.
    + rewrite IH, elem_of_cons. split; [tauto|].
      intros [[->|?] ?]; tauto.
    + rewrite !elem_of_cons, IH, elem_of_app, list_elem_of_singleton.
      split.
      * intros [->|[? ?]]; auto.
      * intros [[->|?] ?]; [by left|].
        destruct (decide (x = h)) as [->|?]; [by left|]. right. tauto.
Qed.

Lemma NoDup_first_seen_from (seen l : list H) :
  NoDup (first_seen_from seen l).
Proof.
  revert seen. induction l as [|h l IH]; intros seen; simpl.
  - apply NoDup_nil_2.
  - case_bool_decide; [apply IH|].
    apply NoDup_cons. split; [|apply IH].
    rewrite elem_of_first_seen_from, elem_of_app, list_elem_of_singleton.
    tauto.
Qed.

Lemma elem_of_matching_buckets (t : table) (event : Ev) (h : H) :
  h ∈ matching_buckets holds t event
  ↔ ∃ p hs, (p, hs) ∈ t ∧ holds p event = Ok true ∧ h ∈ hs.
Proof.
  induction t as [|[q hs'] t IH]; simpl.
  - rewrite elem_of_nil. split; [done|].
    by intros (p & hs & ?%elem_of_nil & _).
  - assert ((∃ p hs, (p, hs) ∈ t ∧ holds p event = Ok true ∧ h ∈ hs)
            → ∃ p hs, (p, hs) ∈ (q, hs') :: t
                      ∧ holds p event = Ok true ∧ h ∈ hs) as Hfurther.
    { intros (p & hs & Hin & Hp & Hh). exists p, hs.
      split_and!; [by apply list_elem_of_further|done..]. }
    destruct (holds q event) as [[]|x] eqn:Hq.
    + rewrite elem_of_app, IH. split.
      * intros [Hh|Hex]; [|by apply Hfurther].
        exists q, hs'. split_and!; [apply list_elem_of_here|done..].
      * intros (p & hs & Hin & Hp & Hh).
        apply elem_of_cons in Hin as [[= -> ->]|Hin]; [by left|].
        right. eauto.
    + rewrite IH. split; [done|].
      intros (p & hs & Hin & Hp & Hh).
      apply elem_of_cons in Hin as [[= -> ->]|Hin]; [congruence|].
      eauto.
    + rewrite IH. split; [done|].
      intros (p & hs & Hin & Hp & Hh).
      apply elem_of_cons in Hin as [[= -> ->]|Hin]; [congruence|].
      eauto.
Qed.

Lemma invoke_prefix (hs : list H) (event : Ev) (w : W) :
  (invoke run hs event w).1 `prefix_of` hs.
Proof.
  revert w. induction hs as [|h hs IH]; intros w; simpl; [done|].
  destruct (run h event w) as [w'|e]; simpl.
  - specialize (IH w'). destruct (invoke run hs event w') as [calls r].
    simpl in *. by apply prefix_cons.
  - apply prefix_cons, prefix_nil.
Qed.

Lemma invoke_complete (hs : list H) (event : Ev) (w w' : W) :
  (invoke run hs event w).2 = Ok w' → (invoke run hs event w).1 = hs.
Proof.
  revert w. induction hs as [|h hs IH]; intros w; simpl; [done|].
  destruct (run h event w) as [w1|e]; simpl; [|done].
  specialize (IH w1). destruct (invoke run hs event w1) as [calls r].
  simpl in *. intros Hr. by rewrite IH.
Qed.

(** The outcome of the second loop is that of the handlers, called one
    after the other. *)
Lemma invoke_run_in_order (hs : list H) (event : Ev) (w : W) :
  (invoke run hs event w).2 = run_in_order run hs event w.
Proof.
  revert w. induction hs as [|h hs IH]; intros w; simpl; [done|].
  destruct (run h event w) as [w1|e]; simpl; [|done].
  specialize (IH w1). by destruct (invoke run hs event w1).
Qed.

Lemma invoke_called_in_order (hs : list H) (event : Ev) (w : W) :
  (invoke run hs event w).1 = called_in_order run hs event w.
Proof.
  revert w. induction hs as [|h hs IH]; intros w; simpl; [done|].
  destruct (run h event w) as [w1|e]; simpl; [|done].
  specialize (IH w1). destruct (invoke run hs event w1). simpl in *.
  by rewrite IH.
Qed.

(** The first predicate that raises ends the first loop with what it
    raised. *)
Lemma matching_step_first_raise (before after : table) (event : Ev)
    (acc : list H) (p : P) (hs : list H) (x : exn) :
  (∀ q hs', (q, hs') ∈ before → ∃ b, holds q event = Ok b) →
  holds p event = Raise x →
  fold_left (matching_step holds event) (before ++ (p, hs) :: after)
    (Ok acc) = Raise x.
Proof.
  revert acc. induction before as [|[q hs'] before IH]; intros acc Hret Hp.
  - cbn [app]. first_loop_step. rewrite Hp. cbn [mbind result_bind].
    apply matching_step_raise.
  - cbn [app]. first_loop_step.
    destruct (Hret q hs') as [b ->]; [apply list_elem_of_here|].
    cbn [mbind result_bind]. apply IH; [|done]. intros r hs'' Hin. apply (Hret r hs'').
    by apply list_elem_of_further.
Qed.

(** Handlers that return, whatever the state they are called on, are all
    called. *)
Lemma run_in_order_returns (hs : list H) (event : Ev) (w : W) :
  (∀ h w1, h ∈ hs → ∃ w2, run h event w1 = Ok w2) →
  ∃ w', run_in_order run hs event w = Ok w'.
Proof.
  revert w. induction hs as [|h hs IH]; intros w Hret; simpl.
  - by eexists.
  - destruct (Hret h w) as [w1 ->]; [apply list_elem_of_here|]. simpl.
    apply IH. intros g w2 Hg. apply Hret. by apply list_elem_of_further.
Qed.

(** C3: [publish] calls every handler at most once, also one that sits
    under several matching predicates; the calls follow the order in which
    the handlers are first met when the matching predicates are visited in
    insertion order, and are all of that list when [publish] returns; a
    handler is called only if it sits under a predicate that matches the
    event, and a handler whose predicates do not match is not called.
    Where every predicate returns, the handlers of the list are called one
    after the other, each on the state the one before it left, up to the
    first that raises, and the outcome of [publish] is theirs; where every
    one of these handlers returns as well, [publish] returns and has
    called the whole list.  Where a predicate raises and those before it
    return, [publish] raises what it raised and has called no handler. *)
Theorem publish_once_in_first_seen_order (t : table) (event : Ev) (w : W) :
  NoDup (publish holds run t event w).1
  ∧ (publish holds run t event w).1
      `prefix_of` first_seen (matching_buckets holds t event)
  ∧ (∀ w', (publish holds run t event w).2 = Ok w' →
       (publish holds run t event w).1
       = first_seen (matching_buckets holds t event))
  ∧ (∀ h, h ∈ (publish holds run t event w).1 →
       ∃ p hs, (p, hs) ∈ t ∧ holds p event = Ok true ∧ h ∈ hs)
  ∧ (∀ h, (∀ p hs, (p, hs) ∈ t → h ∈ hs → holds p event ≠ Ok true) →
       h ∉ (publish holds run t event w).1)
  ∧ ((∀ p hs, (p, hs) ∈ t → ∃ b, holds p event = Ok b) →
     publish holds run t event w
     = (called_in_order run (first_seen (matching_buckets holds t event))
          event w,
        run_in_order run (first_seen (matching_buckets holds t event))
          event w)
     ∧ ((∀ h w1, h ∈ first_seen (matching_buckets holds t event) →
                 ∃ w2, run h event w1 = Ok w2) →
        ∃ w', publish holds run t event w
              = (first_seen (matching_buckets holds t event), Ok w')))
  ∧ (∀ before p hs after x,
       t = before ++ (p, hs) :: after →
       (∀ q hs', (q, hs') ∈ before → ∃ b, holds q event = Ok b) →
       holds p event = Raise x →
       publish holds run t event w = ([], Raise x)).
Proof.
  assert (∀ h, h ∈ (publish holds run t event w).1 →
            h ∈ first_seen (matching_buckets holds t event)) as Hsub.
  { unfold publish. intros h.
    destruct (matching_handlers holds t event) as [matching|x] eqn:Hm;
      [|by intros ?%elem_of_nil].
    rewrite <- (matching_handlers_first_seen _ _ _ Hm).
    destruct (invoke_prefix matching event w) as [k Hk]. intros Hh.
    rewrite Hk, elem_of_app. by left. }
  assert (∀ h, h ∈ (publish holds run t event w).1 →
            ∃ p hs, (p, hs) ∈ t ∧ holds p event = Ok true ∧ h ∈ hs)
    as Hunder.
  { intros h Hh%Hsub. apply elem_of_matching_buckets.
    by apply elem_of_first_seen_from in Hh as [? _]. }
  assert ((publish holds run t event w).1
          `prefix_of` first_seen (matching_buckets holds t event)) as Hpre.
  { unfold publish.
    destruct (matching_handlers holds t event) as [matching|x] eqn:Hm;
      [|apply prefix_nil].
    rewrite <- (matching_handlers_first_seen _ _ _ Hm).
    apply invoke_prefix. }
  split_and!.
  - destruct Hpre as [k Hk].
    pose proof (NoDup_first_seen_from [] (matching_buckets holds t event))
      as Hnd.
    unfold first_seen in Hk. rewrite Hk in Hnd.
    by apply NoDup_app in Hnd as [? _].
  - done.
  - intros w'. unfold publish.
    destruct (matching_handlers holds t event) as [matching|x] eqn:Hm;
      [|done].
    rewrite <- (matching_handlers_first_seen _ _ _ Hm).
    apply invoke_complete.
  - done.
  - intros h Hno Hh. destruct (Hunder h Hh) as (p & hs & Hin & Hp & Hhs).
    by apply (Hno p hs Hin Hhs).
  - intros Hret.
    destruct (matching_step_returns t event [] Hret) as [matching Hm].
    fold (matching_handlers holds t event) in Hm.
    pose proof (matching_handlers_first_seen _ _ _ Hm) as <-.
    unfold publish. rewrite Hm.
    pose proof (invoke_run_in_order matching event w) as Hresult.
    pose proof (invoke_called_in_order matching event w) as Hcalled.
    split.
    + destruct (invoke run matching event w) as [calls r]. simpl in *.
      by subst.
    + intros Hrun.
      destruct (run_in_order_returns matching event w Hrun) as [w' Hw'].
      exists w'. rewrite <- Hresult in Hw'.
      pose proof (invoke_complete _ _ _ _ Hw') as Hcalls.
      destruct (invoke run matching event w) as [calls r]. simpl in *.
      by rewrite Hcalls, Hw'.
  - intros before p hs after x -> Hret Hp. unfold publish, matching_handlers.
    by rewrite (matching_step_first_raise before after event [] p hs x).
Qed.

Lemma invoke_raise (hs : list H) (event : Ev) (w : W) (x : exn) :
  (invoke run hs event w).2 = Raise x →
  ∃ before h after w',
    hs = before ++ h :: after
    ∧ (invoke run hs event w).1 = before ++ [h]
    ∧ invoke run before event w = (before, Ok w')
    ∧ run h event w' = Raise x.
Proof.
  revert w. induction hs as [|g hs IH]; intros w; simpl; [done|].
  destruct (run g event w) as [w1|e] eqn:Hg; simpl.
  - specialize (IH w1). destruct (invoke run hs event w1) as [calls r].
    simpl in *. intros Hr.
    destruct (IH Hr) as (before & h & after & w' & -> & -> & Hbefore & Hh).
    exists (g :: before), h, after, w'. simpl. rewrite Hg, Hbefore.
    by split_and!.
  - intros [= ->]. exists [], g, hs, w. by split_and!.
Qed.

(** X4: when [publish] raises, one of two things has happened.  A
    predicate raised, and [publish] raises what it raised: the predicates
    before it returned, and no handler was called.  Or every predicate
    returned and a handler raised, and [publish] raises what it raised: the
    handlers before it were called and returned, it was called last, and
    no handler after it was called. *)
Theorem publish_stops_at_raising_handler (t : table) (event : Ev) (w : W)
    (x : exn) :
  (publish holds run t event w).2 = Raise x →
  (∃ before p hs after,
     t = before ++ (p, hs) :: after
     ∧ holds p event = Raise x
     ∧ (∀ q hs', (q, hs') ∈ before → ∃ b, holds q event = Ok b)
     ∧ (publish holds run t event w).1 = [])
  ∨ (∃ before h after w',
       matching_handlers holds t event = Ok (before ++ h :: after)
       ∧ (publish holds run t event w).1 = before ++ [h]
       ∧ invoke run before event w = (before, Ok w')
       ∧ run h event w' = Raise x
       ∧ ∀ g, g ∈ after → g ∉ (publish holds run t event w).1).
Proof.
  unfold publish.
  destruct (matching_handlers holds t event) as [matching|y] eqn:Hm.
  - intros Hr. right.
    destruct (invoke_raise _ _ _ _ Hr)
      as (before & h & after & w' & -> & Hcalls & Hbefore & Hh).
    exists before, h, after, w'. split_and!; try done.
    intros g Hg. rewrite Hcalls.
    pose proof (NoDup_first_seen_from [] (matching_buckets holds t event))
      as Hnd.
    fold (first_seen (matching_buckets holds t event)) in Hnd.
    rewrite <- (matching_handlers_first_seen _ _ _ Hm) in Hnd.
    apply NoDup_app in Hnd as (_ & Hdisj & Hnd').
    apply NoDup_cons in Hnd' as [Hh' _].
    rewrite elem_of_app, list_elem_of_singleton. intros [Hgb| ->].
    + apply (Hdisj g Hgb). by apply list_elem_of_further.
    + done.
  - simpl. intros [= ->]. left.
    destruct (matching_step_raises t event [] x Hm)
      as (before & p & hs & after & -> & Hp & Hbefore).
    by exists before, p, hs, after.
Qed.

Lemma elem_of_od_set_here (k : P) (v : list H) (t : table) :
  (k, v) ∈ od_set k v t.
Proof.
  induction t as [|[r rs] t IH]; simpl.
  - apply list_elem_of_here.
  - destruct (decide (k = r)) as [->|Hne].
    + apply list_elem_of_here.
    + by apply list_elem_of_further.
Qed.

(** X5: a handler subscribed under a predicate that matches the event is
    called, and called once, by a [publish] that returns. *)
Theorem publish_calls_subscribed_handler (t : table) (p : P) (h : H)
    (event : Ev) (w w' : W) :
  holds p event = Ok true →
  (publish holds run (subscribe p h t) event w).2 = Ok w' →
  ∃ before after,
    (publish holds run (subscribe p h t) event w).1 = before ++ h :: after
    ∧ (h ∉ before) ∧ (h ∉ after).
Proof.
  unfold publish. intros Hp.
  destruct (matching_handlers holds (subscribe p h t) event)
    as [matching|y] eqn:Hm; [|done].
  intros Hr.
  rewrite (invoke_complete _ _ _ _ Hr),
    (matching_handlers_first_seen _ _ _ Hm).
  assert (h ∈ first_seen (matching_buckets holds (subscribe p h t) event))
    as Hin.
  { apply elem_of_first_seen_from. split; [|apply not_elem_of_nil].
    apply elem_of_matching_buckets.
    exists p, (od_get p (if od_contains p t then t else od_set p [] t)
               ++ [h]).
    split_and!; [apply elem_of_od_set_here|done|].
    rewrite elem_of_app, list_elem_of_singleton. by right. }
  pose proof (NoDup_first_seen_from []
                (matching_buckets holds (subscribe p h t) event)) as Hnd.
  fold (first_seen (matching_buckets holds (subscribe p h t) event)) in Hnd.
  apply list_elem_of_split in Hin as (before & after & Heq).
  rewrite Heq in *. exists before, after. split; [done|].
  apply NoDup_app in Hnd as (_ & Hdisj & Hnd').
  apply NoDup_cons in Hnd' as [Hh' _]. split; [|done].
  intros Hb. apply (Hdisj h Hb), list_elem_of_here.
Qed.

End publish_facts.
End table.

(** Handlers 7, 8 and 9 under predicates 1 (any event), 2 (even events)
    and 3 (any event): handler 8 sits under 1 and 3 and is called once. *)
Lemma publish_example :
  let holds (p e : nat) := Ok (bool_decide (p ≠ 2) || Nat.even e) in
  let run (h e : nat) (w : list nat) := Ok (w ++ [h]) in
  publish holds run [(1, [7; 8]); (2, [9]); (3, [8; 9; 7])] 5 []
  = ([7; 8; 9], Ok [7; 8; 9])
  ∧ publish holds run [(1, [7; 8]); (2, [9]); (3, [8])] 5 []
    = ([7; 8], Ok [7; 8]).
Proof. split; reflexivity. Qed.

(** A predicate that raises: predicate 4 raises [KeyError] for every
    event, and [publish] raises it with no handler called, although
    handler 7 sits under predicate 1, which matches. *)
Lemma publish_raising_predicate :
  let holds (p e : nat) :=
    if bool_decide (p = 4) then Raise KeyError else Ok true in
  let run (h e : nat) (w : list nat) := Ok (w ++ [h]) in
  publish holds run [(1, [7]); (4, [8]); (3, [9])] 5 []
  = ([], Raise KeyError).
Proof. reflexivity. Qed.

(** The same handlers, where handler 8 raises once the log holds an
    entry. *)
Definition example_holds (p e : nat) : result bool :=
  Ok (bool_decide (p ≠ 2) || Nat.even e).

Definition example_run (h e : nat) (w : list nat) : result (list nat) :=
  if bool_decide (h = 8 ∧ w ≠ []) then Raise ValueError else Ok (w ++ [h]).

Lemma unsubscribe_subscribe_witness :
  well_formed (P:=nat) (H:=nat) [(1, [7; 8])]
  ∧ (9 ∉ od_get 1 [(1, [7; 8])])
  ∧ unsubscribe 1 9 (subscribe 1 9 [(1, [7; 8])]) = [(1, [7; 8])].
Proof.
  assert (well_formed (P:=nat) (H:=nat) [(1, [7; 8])]) as Hwf.
  { split; [apply NoDup_singleton|].
    intros p hs Hin. apply list_elem_of_singleton in Hin.
    injection Hin as -> ->. discriminate. }
  assert (9 ∉ od_get 1 [(1, [7; 8])]) as Hnew.
  { simpl. rewrite !not_elem_of_cons. split_and!; try lia.
    apply not_elem_of_nil. }
  split; [exact Hwf|]. split; [exact Hnew|].
  exact (unsubscribe_subscribe 1 9 [(1, [7; 8])] Hwf Hnew).
Defined.

Lemma publish_stops_at_raising_handler_witness :
  (publish example_holds example_run
     [(1, [7; 8]); (2, [9]); (3, [8; 9; 7])] 5 []).2 = Raise ValueError
  ∧ ((∃ before p hs after,
        [(1, [7; 8]); (2, [9]); (3, [8; 9; 7])] = before ++ (p, hs) :: after
        ∧ example_holds p 5 = Raise ValueError
        ∧ (∀ q hs', (q, hs') ∈ before → ∃ b, example_holds q 5 = Ok b)
        ∧ (publish example_holds example_run
             [(1, [7; 8]); (2, [9]); (3, [8; 9; 7])] 5 []).1 = [])
     ∨ (∃ before h after w',
          matching_handlers example_holds
            [(1, [7; 8]); (2, [9]); (3, [8; 9; 7])] 5
          = Ok (before ++ h :: after)
          ∧ (publish example_holds example_run
               [(1, [7; 8]); (2, [9]); (3, [8; 9; 7])] 5 []).1
            = before ++ [h]
          ∧ invoke example_run before 5 [] = (before, Ok w')
          ∧ example_run h 5 w' = Raise ValueError
          ∧ ∀ g, g ∈ after →
                 g ∉ (publish example_holds example_run
                        [(1, [7; 8]); (2, [9]); (3, [8; 9; 7])] 5 []).1)).
Proof.
  split; [reflexivity|].
  exact (publish_stops_at_raising_handler example_holds example_run
           [(1, [7; 8]); (2, [9]); (3, [8; 9; 7])] 5 [] ValueError
           eq_refl).
Defined.

Lemma publish_calls_subscribed_handler_witness :
  example_holds 3 5 = Ok true
  ∧ (publish example_holds example_run (subscribe 3 9 [(1, [7])]) 5 []).2
    = Ok [7; 9]
  ∧ ∃ before after,
      (publish example_holds example_run (subscribe 3 9 [(1, [7])]) 5 []).1
      = before ++ 9 :: after
      ∧ (9 ∉ before) ∧ (9 ∉ after).
Proof.
  split; [reflexivity|]. split; [reflexivity|].
  exact (publish_calls_subscribed_handler example_holds example_run
           [(1, [7])] 3 9 5 [] [7; 9] eq_refl eq_refl).
Defined.

(** A concrete table: predicates and handlers named by numbers. *)
Lemma subscribe_unsubscribe_occurrences_witness :
  NoDup (keys (P:=nat) (H:=nat) [(1, [7; 8])])
  ∧ od_get 1 (subscribe_n 3 1 7 [(1, [7; 8])]) = [7; 8; 7; 7; 7]
  ∧ unsubscribe 1 7 (subscribe 1 7 (subscribe 1 7 [])) = [(1, [7])].
Proof.
  split; [|split].
  - apply NoDup_singleton.
  - exact (proj1 (proj1 (subscribe_unsubscribe_occurrences
                           [(1, [7; 8])] 1 7 3 (NoDup_singleton 1)))).
  - reflexivity.
Defined.

End Bus.

(** ** Domain events and topics (events.py, lines 37-75 and 112-180) *)

Module Events.

(** [s.partition(sep)] for a one-character separator: the text before the
    first separator, the separator (empty when there is none) and the rest. *)
Fixpoint partition (sep : ascii) (s : string) : string * string * string :=
  match s with
  | EmptyString => ("", "", "")
  | String c s' =>
      if decide (c = sep) then ("", String sep "", s')
      else let '(h, m, t) := partition sep s' in (String c h, m, t)
  end.

(** [sep in s] *)
Fixpoint str_contains (sep : ascii) (s : string) : bool :=
  match s with
  | EmptyString => false
  | String c s' => if decide (c = sep) then true else str_contains sep s'
  end.

(** [s.startswith(c)] *)
Definition startswith (c : ascii) (s : string) : bool :=
  match s with
  | EmptyString => false
  | String c' _ => bool_decide (c' = c)
  end.

Definition inspect {A} (a : A) : {b | a = b} := exist _ a eq_refl.

Lemma partition_tail_length (sep : ascii) (s h m t : string) :
  partition sep s = (h, m, t) → s ≠ "" → String.length t < String.length s.
Proof.
  revert h m t. induction s as [|c s IH]; intros h m t Hp Hne; [done|].
  simpl in *. destruct (decide (c = sep)).
  - inversion Hp; subst. lia.
  - destruct (partition sep s) as [[h' m'] t'] eqn:E. inversion Hp; subst.
    destruct s as [|c' s'].
    + simpl in E. inversion E; subst. simpl. lia.
    + specialize (IH _ _ _ eq_refl ltac:(done)). simpl in *. lia.
Qed.

Section domain_event.
(** [V]: the values held by event attributes; [utc_now] is the reading of
    the clock when the event is built. *)
Context {V : Type}.
Variable utc_now : V.

(** An instance of a [DomainEvent] subclass: its class and its
    [__dict__]. *)
Record DomainEvent : Type := {
  event_class : string;
  event_dict : gmap string V
}.

(** [DomainEvent.__init__]; an argument left out or given as [None] is
    [None] here. *)
Definition DomainEvent_init (cls : string)
    (entity_id entity_version timestamp : option V)
    (kwargs : gmap string V) : result DomainEvent :=
  match entity_id with
  | None => Raise AssertionError
  | Some eid =>
      match entity_version with
      | None => Raise AssertionError
      | Some ver =>
          let d := <["entity_id" := eid]> (∅ : gmap string V) in
          let d := <["entity_version" := ver]> d in
          let d := <["timestamp" := default utc_now timestamp]> d in
          (* [self.__dict__.update(kwargs)] *)
          Ok {| event_class := cls; event_dict := kwargs ∪ d |}
      end
  end.

(** [DomainEvent.__setattr__]: the statement [e.key = value].  The result
    is the outcome of the statement and the event afterwards. *)
Definition DomainEvent_setattr (self : DomainEvent) (key : string)
    (value : V) : result unit * DomainEvent :=
  (Raise AttributeError, self).

(** The three properties read [self.__dict__[name]]. *)
Definition DomainEvent_property (self : DomainEvent) (name : string)
  : result V :=
  match event_dict self !! name with
  | Some v => Ok v
  | None => Raise KeyError
  end.

Definition entity_id (self : DomainEvent) : result V :=
  DomainEvent_property self "entity_id".
Definition entity_version (self : DomainEvent) : result V :=
  DomainEvent_property self "entity_version".
Definition timestamp (self : DomainEvent) : result V :=
  DomainEvent_property self "timestamp".

(** What the class of an event holds under a name, found along its
    [__mro__]: [data_descriptor cls name] where that is a data descriptor
    (the three properties above in a class that keeps them, [__class__],
    [__dict__], a property of a subclass), [class_attribute cls name] where
    it is anything else (a method, [__module__], [__doc__]); each with what
    reading it on an instance gives. *)
Variable data_descriptor : string → string → option (DomainEvent → result V).
Variable class_attribute : string → string → option (DomainEvent → result V).

(** [e.name], as [object.__getattribute__] finds it: a data descriptor of
    the class comes first, then the entry of the instance dictionary, then
    any other attribute of the class; [DomainEvent] defines no
    [__getattr__], so a name found nowhere raises [AttributeError]. *)
Definition DomainEvent_getattr (self : DomainEvent) (name : string)
  : result V :=
  match data_descriptor (event_class self) name with
  | Some get => get self
  | None =>
      match event_dict self !! name with
      | Some v => Ok v
      | None =>
          match class_attribute (event_class self) name with
          | Some get => get self
          | None => Raise AttributeError
          end
      end
  end.

(** [DomainEvent.__eq__]; [None] stands for [NotImplemented]. *)
Definition DomainEvent_eq `{EqDecision V} (self rhs : DomainEvent)
  : option bool :=
  if bool_decide (event_class self ≠ event_class rhs) then None
  else Some (bool_decide (event_dict self = event_dict rhs)).

(** [self == rhs] for two domain events.  Where [__eq__] answers
    [NotImplemented], on either side, Python compares the two objects by
    identity, and two objects of different classes are not the same
    object. *)
Definition DomainEvent_equal `{EqDecision V} (self rhs : DomainEvent)
  : bool :=
  default false (DomainEvent_eq self rhs).

(** [DomainEvent.__ne__] *)
Definition DomainEvent_ne `{EqDecision V} (self rhs : DomainEvent) : bool :=
  negb (DomainEvent_equal self rhs).

End domain_event.

(** *** Topics *)

(** Objects of the running interpreter are named by numbers.  [sys_modules]
    holds what [importlib.import_module] finds under a module name,
    [attributes] what [getattr(obj, name)] returns, and the last two fields
    the [__module__] and [__qualname__] strings of the class objects. *)
Definition oid : Type := nat.

Record interp : Type := {
  sys_modules : gmap string oid;
  attributes : gmap (oid * string) oid;
  dunder_module : gmap oid string;
  dunder_qualname : gmap oid string
}.

(** ["."].join(names) *)
Fixpoint dotted (names : list string) : string :=
  match names with
  | [] => ""
  | [name] => name
  | name :: names' => name +:+ String "." (dotted names')
  end.

Section topics.
Variable py : interp.

(** [getattr(obj, name)] *)
Definition getattr (obj : oid) (name : string) : result oid :=
  match attributes py !! (obj, name) with
  | Some o => Ok o
  | None => Raise AttributeError
  end.

(** [importlib.import_module(name)] with no [package] argument: a relative
    name is refused with [TypeError], the empty name with [ValueError], and
    a name no module is found under with [ImportError]. *)
Definition import_module (name : string) : result oid :=
  if startswith "." name then Raise TypeError
  else if bool_decide (name = "") then Raise ValueError
  else match sys_modules py !! name with
       | Some m => Ok m
       | None => Raise ImportError
       end.

(** [topic_from_domain_class(domain_class)] *)
Definition topic_from_domain_class (domain_class : oid) : result string :=
  match dunder_module py !! domain_class, dunder_qualname py !! domain_class
  with
  | Some m, Some q => Ok (m +:+ "#" +:+ q)
  | _, _ => Raise AttributeError
  end.

(** [resolve_attr(obj, path)] *)
Equations? resolve_attr (obj : oid) (path : string) : result oid
  by wf (String.length path) lt :=
  resolve_attr obj EmptyString := Ok obj;
  resolve_attr obj (String c s)
    with inspect (partition "." (String c s)) => {
    | exist _ (hd, _, tl) Heq :=
        head_obj ← getattr obj hd; resolve_attr head_obj tl }.
Proof.
  eapply (partition_tail_length "." (String c s)); [exact Heq|done].
Qed.

(** [getattr(... getattr(getattr(obj, n1), n2) ..., nk)] *)
Fixpoint getattr_chain (obj : oid) (names : list string) : result oid :=
  match names with
  | [] => Ok obj
  | name :: names' => o ← getattr obj name; getattr_chain o names'
  end.

(** [resolve_domain_topic(topic)] *)
Definition resolve_domain_topic (topic : string) : result oid :=
  let '(module_name, _, class_name) := partition "#" topic in
  match import_module module_name with
  | Raise ImportError => Raise TopicResolutionError
  | Raise e => Raise e
  | Ok module =>
      match resolve_attr module class_name with
      | Raise AttributeError => Raise TopicResolutionError
      | r => r
      end
  end.

End topics.

(** The example module of the tests: [Example] and its nested event
    classes. *)
Definition example_interp : interp :=
  {| sys_modules := {[ "eventsourcing.domain.model.example" := 1 ]};
     attributes := {[ (1, "Example") := 2; (2, "Created") := 3;
                      (2, "Discarded") := 4 ]};
     dunder_module :=
       {[ 2 := "eventsourcing.domain.model.example";
          3 := "eventsourcing.domain.model.example";
          4 := "eventsourcing.domain.model.example" ]};
     dunder_qualname :=
       {[ 2 := "Example"; 3 := "Example.Created";
          4 := "Example.Discarded" ]} |}.

(** *** Facts about [DomainEvent] *)

Section domain_event_facts.
Context {V : Type}.
Variable utc_now : V.
Variable data_descriptor :
  string → string → option (DomainEvent (V:=V) → result V).
Variable class_attribute :
  string → string → option (DomainEvent (V:=V) → result V).

Lemma DomainEvent_init_fields (cls : string) (eid ver : V)
    (ts : option V) (e : DomainEvent) :
  DomainEvent_init utc_now cls (Some eid) (Some ver) ts ∅ = Ok e →
  entity_id e = Ok eid
  ∧ entity_version e = Ok ver
  ∧ timestamp e = Ok (default utc_now ts)
  ∧ event_class e = cls.
Proof.
  intros [= <-]. unfold entity_id, entity_version, timestamp,
    DomainEvent_property. simpl.
  rewrite (left_id_L ∅ (∪)). by simplify_map_eq.
Qed.

Lemma DomainEvent_init_requires (cls : string)
    (eid ver ts : option V) (kwargs : gmap string V) :
  (eid = None ∨ ver = None) →
  DomainEvent_init utc_now cls eid ver ts kwargs = Raise AssertionError.
Proof. intros [-> | ->]; [done|]. by destruct eid. Qed.

(** C6: a domain event is frozen.  Whatever the event, the attribute name
    and the value, the assignment raises [AttributeError] and the event is
    afterwards what it was before: the same class and instance dictionary,
    hence the same [entity_id], [entity_version], [timestamp] and extra
    fields. *)
Theorem DomainEvent_frozen (e : DomainEvent (V:=V)) (key : string)
    (value : V) :
  (DomainEvent_setattr e key value).1 = Raise AttributeError
  ∧ (DomainEvent_setattr e key value).2 = e
  ∧ entity_id (DomainEvent_setattr e key value).2 = entity_id e
  ∧ entity_version (DomainEvent_setattr e key value).2 = entity_version e
  ∧ timestamp (DomainEvent_setattr e key value).2 = timestamp e
  ∧ (∀ name,
       DomainEvent_getattr data_descriptor class_attribute
         (DomainEvent_setattr e key value).2 name
       = DomainEvent_getattr data_descriptor class_attribute e name).
Proof. by split_and!. Qed.

(** X6: what [__init__] is given is what the event shows.  The three
    properties return the arguments, the timestamp being the clock's
    reading when none is given.  A name that the class holds a data
    descriptor under is read through the descriptor, also where a keyword
    argument has the name; any other keyword argument is an attribute with
    its value; and a name that is no keyword argument, none of the three,
    and nothing the class holds raises [AttributeError].  (The signature
    keeps the three names out of [kwargs].) *)
Theorem DomainEvent_init_getattr (cls : string) (eid ver : V)
    (ts : option V) (kwargs : gmap string V) :
  kwargs !! "entity_id" = None → kwargs !! "entity_version" = None →
  kwargs !! "timestamp" = None →
  ∃ e, DomainEvent_init utc_now cls (Some eid) (Some ver) ts kwargs = Ok e
       ∧ event_class e = cls
       ∧ entity_id e = Ok eid
       ∧ entity_version e = Ok ver
       ∧ timestamp e = Ok (default utc_now ts)
       ∧ (∀ k get, data_descriptor cls k = Some get →
            DomainEvent_getattr data_descriptor class_attribute e k = get e)
       ∧ (∀ k v, kwargs !! k = Some v → data_descriptor cls k = None →
            DomainEvent_getattr data_descriptor class_attribute e k = Ok v)
       ∧ (∀ k, k ∉ ["entity_id"; "entity_version"; "timestamp"] →
               kwargs !! k = None →
               data_descriptor cls k = None → class_attribute cls k = None →
               DomainEvent_getattr data_descriptor class_attribute e k
               = Raise AttributeError).
Proof.
  intros Hid Hver Hts. eexists. split; [reflexivity|].
  unfold entity_id, entity_version, timestamp, DomainEvent_property,
    DomainEvent_getattr. simpl.
  split_and!; [done| | | | | |].
  - rewrite lookup_union_r by done. by simplify_map_eq.
  - rewrite lookup_union_r by done. by simplify_map_eq.
  - rewrite lookup_union_r by done. by simplify_map_eq.
  - by intros k get ->.
  - intros k v Hk ->. by rewrite (lookup_union_Some_l _ _ _ _ Hk).
  - intros k Hthree Hk -> ->.
    rewrite lookup_union_r by done.
    rewrite !not_elem_of_cons in Hthree. destruct Hthree as (?&?&?&_).
    by simplify_map_eq.
Qed.

End domain_event_facts.

Section domain_event_equality.
Context {V : Type} `{EqDecision V}.

(** X7: equality of events is structural: two events built by [__init__], each
    at its own reading of the clock, are equal exactly if they have the
    same class, entity id, entity version, timestamp (given, or read from
    the clock) and keyword arguments; [!=] is the negation. *)
Theorem DomainEvent_equal_init (now1 now2 : V) (cls1 cls2 : string)
    (eid1 eid2 ver1 ver2 : V) (ts1 ts2 : option V)
    (kwargs1 kwargs2 : gmap string V) (e1 e2 : DomainEvent) :
  (∀ k, k ∈ ["entity_id"; "entity_version"; "timestamp"] →
        kwargs1 !! k = None ∧ kwargs2 !! k = None) →
  DomainEvent_init now1 cls1 (Some eid1) (Some ver1) ts1 kwargs1 = Ok e1 →
  DomainEvent_init now2 cls2 (Some eid2) (Some ver2) ts2 kwargs2 = Ok e2 →
  (DomainEvent_equal e1 e2 = true
   ↔ cls1 = cls2 ∧ eid1 = eid2 ∧ ver1 = ver2
     ∧ default now1 ts1 = default now2 ts2 ∧ kwargs1 = kwargs2)
  ∧ DomainEvent_ne e1 e2 = negb (DomainEvent_equal e1 e2).
Proof.
  intros Hkw [= <-] [= <-]. split; [|done].
  assert (∀ k, k ∈ ["entity_id"; "entity_version"; "timestamp"] →
               kwargs1 !! k = None) as Hkw1 by (intros k Hk; by apply Hkw).
  assert (∀ k, k ∈ ["entity_id"; "entity_version"; "timestamp"] →
               kwargs2 !! k = None) as Hkw2 by (intros k Hk; by apply Hkw).
  assert ("entity_id" ∈ ["entity_id"; "entity_version"; "timestamp"]) as H1
    by (rewrite !elem_of_cons; auto).
  assert ("entity_version" ∈ ["entity_id"; "entity_version"; "timestamp"])
    as H2 by (rewrite !elem_of_cons; auto).
  assert ("timestamp" ∈ ["entity_id"; "entity_version"; "timestamp"]) as H3
    by (rewrite !elem_of_cons; auto).
  unfold DomainEvent_equal, DomainEvent_eq. simpl.
  case_bool_decide as Hcls; simpl.
  - split; [done|]. by intros [? _].
  - rewrite bool_decide_eq_true. split.
    + intros Heq. split; [done|].
      pose proof (f_equal (.!! "entity_id") Heq) as Hid.
      pose proof (f_equal (.!! "entity_version") Heq) as Hver.
      pose proof (f_equal (.!! "timestamp") Heq) as Hts.
      rewrite !lookup_union_r in Hid, Hver, Hts by auto.
      simplify_map_eq. split_and!; try done.
      apply map_eq. intros k.
      destruct (decide (k ∈ ["entity_id"; "entity_version"; "timestamp"]))
        as [Hk|Hk].
      * by rewrite Hkw1, Hkw2.
      * pose proof (f_equal (.!! k) Heq) as Hlook.
        rewrite !not_elem_of_cons in Hk. destruct Hk as (?&?&?&_).
        rewrite !lookup_union in Hlook. by simplify_map_eq.
    + by intros (_ & -> & -> & -> & ->).
Qed.

End domain_event_equality.

(** *** Facts about topics *)

Section topics_facts.
Variable py : interp.

Lemma partition_at_first (sep : ascii) (m q : string) :
  str_contains sep m = false →
  partition sep (m +:+ String sep q) = (m, String sep "", q).
Proof.
  induction m as [|c m IH]; simpl.
  - intros _. by rewrite decide_True.
  - destruct (decide (c = sep)); [done|]. intros Hm. by rewrite IH.
Qed.

Lemma partition_no_sep (sep : ascii) (s : string) :
  str_contains sep s = false → partition sep s = (s, "", "").
Proof.
  induction s as [|c s IH]; simpl; [done|].
  destruct (decide (c = sep)); [done|]. intros Hs. by rewrite IH.
Qed.

(** The recursion equation of [resolve_attr], as the source writes it. *)
Lemma resolve_attr_step (obj : oid) (path : string) :
  resolve_attr py obj path
  = if bool_decide (path = "") then Ok obj
    else let '(hd, _, tl) := partition "." path in
         head_obj ← getattr py obj hd; resolve_attr py head_obj tl.
Proof.
  destruct path as [|c s]; [by simp resolve_attr|].
  rewrite bool_decide_eq_false_2 by done.
  simp resolve_attr. unfold inspect.
  assert (∀ p (Heq : partition "." (String c s) = p),
            resolve_attr_unfold_clause_2 py obj c s (exist _ p Heq)
            = let '(hd, _, tl) := p in
              head_obj ← getattr py obj hd; resolve_attr py head_obj tl)
    as Hclause.
  { intros [[hd m] tl] Heq. by simp resolve_attr. }
  apply Hclause.
Qed.

(** [resolve_attr] raises nothing but [AttributeError]. *)
Lemma resolve_attr_raises (obj : oid) (path : string) (e : exn) :
  resolve_attr py obj path = Raise e → e = AttributeError.
Proof.
  remember (String.length path) as n eqn:Hn.
  revert obj path Hn. induction n as [n IH] using lt_wf_ind.
  intros obj path -> . rewrite resolve_attr_step.
  case_bool_decide as Hp; [done|].
  destruct (partition "." path) as [[hd m] tl] eqn:Hpart.
  unfold getattr. destruct (attributes py !! (obj, hd)) as [o|]; simpl.
  - apply (IH (String.length tl)); [|done].
    by eapply partition_tail_length.
  - by intros [= <-].
Qed.

(** The topic is the module path, ['#'] and the qualified name. *)
Lemma topic_from_domain_class_format (c : oid) (m q : string) :
  dunder_module py !! c = Some m → dunder_qualname py !! c = Some q →
  topic_from_domain_class py c = Ok (m +:+ "#" +:+ q).
Proof. unfold topic_from_domain_class. by intros -> ->. Qed.

(** X8: a class that its qualified name reaches from its importable module is
    what its topic resolves to. *)
Lemma resolve_topic_of_class (c module : oid) (m q : string) :
  dunder_module py !! c = Some m → dunder_qualname py !! c = Some q →
  str_contains "#" m = false →
  import_module py m = Ok module →
  resolve_attr py module q = Ok c →
  ∃ topic, topic_from_domain_class py c = Ok topic
           ∧ resolve_domain_topic py topic = Ok c.
Proof.
  intros Hm Hq Hhash Himp Hattr. exists (m +:+ "#" +:+ q). split.
  - by apply topic_from_domain_class_format.
  - unfold resolve_domain_topic.
    change (m +:+ "#" +:+ q) with (m +:+ String "#" q).
    by rewrite partition_at_first, Himp, Hattr.
Qed.

(** [ImportError] and [AttributeError] become [TopicResolutionError]. *)
Lemma resolve_domain_topic_errors (topic module_name sep class_name : string) :
  partition "#" topic = (module_name, sep, class_name) →
  (import_module py module_name = Raise ImportError →
   resolve_domain_topic py topic = Raise TopicResolutionError)
  ∧ (∀ module, import_module py module_name = Ok module →
       resolve_attr py module class_name = Raise AttributeError →
       resolve_domain_topic py topic = Raise TopicResolutionError).
Proof.
  intros Hpart. unfold resolve_domain_topic. rewrite Hpart. split.
  - by intros ->.
  - by intros module -> ->.
Qed.

(** C5, where the code leaves the claim: a topic whose module part is empty
    or relative cannot be imported, and [resolve_domain_topic] raises
    [ValueError] or [TypeError] for it, not [TopicResolutionError]. *)
Theorem resolve_domain_topic_unimportable_module :
  import_module py "" = Raise ValueError
  ∧ resolve_domain_topic py "" = Raise ValueError
  ∧ resolve_domain_topic py "#Example.Created" = Raise ValueError
  ∧ import_module py ".example" = Raise TypeError
  ∧ resolve_domain_topic py ".example#Example" = Raise TypeError.
Proof. by split_and!. Qed.

(** X9: a dotted path of names is resolved by looking the names up one after
    the other. *)
Theorem resolve_attr_dotted (obj : oid) (names : list string) :
  Forall (fun name => name ≠ "" ∧ str_contains "." name = false) names →
  resolve_attr py obj (dotted names) = getattr_chain py obj names.
Proof.
  revert obj. induction names as [|name names IH]; intros obj Hnames.
  - by simp resolve_attr.
  - apply Forall_cons in Hnames as [[Hne Hdot] Hnames].
    rewrite resolve_attr_step. destruct names as [|name' names].
    + cbn [dotted getattr_chain]. rewrite bool_decide_eq_false_2 by done.
      rewrite partition_no_sep by done.
      destruct (getattr py obj name); [|done]. simpl.
      by simp resolve_attr.
    + change (dotted (name :: name' :: names))
        with (name +:+ String "." (dotted (name' :: names))).
      rewrite bool_decide_eq_false_2 by by destruct name.
      rewrite partition_at_first by done. cbn [getattr_chain].
      destruct (getattr py obj name) as [o|]; [|done]. simpl.
      by apply IH.
Qed.

(** X10: the empty path is the object itself, so a topic with no class part
    resolves to the module: no error is raised for it. *)
Theorem resolve_domain_topic_module (m : string) (module : oid) :
  import_module py m = Ok module → str_contains "#" m = false →
  resolve_domain_topic py m = Ok module
  ∧ resolve_domain_topic py (m +:+ "#") = Ok module.
Proof.
  intros Himp Hhash. unfold resolve_domain_topic. split.
  - rewrite partition_no_sep, Himp by done. by simp resolve_attr.
  - change (m +:+ "#") with (m +:+ String "#" "").
    rewrite partition_at_first, Himp by done. by simp resolve_attr.
Qed.

(** X11: what [resolve_domain_topic] raises, and when.  It raises nothing but
    [TopicResolutionError], [ValueError] and [TypeError]: [TypeError] only
    for a module part that starts with a dot, [ValueError] only for an
    empty module part, and [TopicResolutionError] only when no module is
    found under the module part or an attribute on the path is missing. *)
Theorem resolve_domain_topic_raises (topic : string) (e : exn) :
  resolve_domain_topic py topic = Raise e →
  (e = TypeError ∧ startswith "." (partition "#" topic).1.1 = true)
  ∨ (e = ValueError ∧ (partition "#" topic).1.1 = "")
  ∨ (e = TopicResolutionError
     ∧ startswith "." (partition "#" topic).1.1 = false
     ∧ (partition "#" topic).1.1 ≠ ""
     ∧ (sys_modules py !! (partition "#" topic).1.1 = None
        ∨ ∃ module,
            sys_modules py !! (partition "#" topic).1.1 = Some module
            ∧ resolve_attr py module (partition "#" topic).2
              = Raise AttributeError)).
Proof.
  unfold resolve_domain_topic, import_module.
  destruct (partition "#" topic) as [[m sep] c]. simpl.
  destruct (startswith "." m) eqn:Hdot.
  { intros [= <-]. by left. }
  case_bool_decide as Hempty.
  { intros [= <-]. right. by left. }
  destruct (sys_modules py !! m) as [module|] eqn:Hmod.
  - destruct (resolve_attr py module c) as [o|e'] eqn:Hattr; [done|].
    pose proof (resolve_attr_raises _ _ _ Hattr) as ->.
    intros [= <-]. right. right. split_and!; try done.
    right. by exists module.
  - intros [= <-]. right. right. split_and!; try done. by left.
Qed.

End topics_facts.

(** A nested class and its topic, and the two ways a topic fails to
    resolve. *)
Lemma resolve_topic_of_class_witness :
  topic_from_domain_class example_interp 3
  = Ok "eventsourcing.domain.model.example#Example.Created"
  ∧ (∃ topic, topic_from_domain_class example_interp 3 = Ok topic
              ∧ resolve_domain_topic example_interp topic = Ok 3)
  ∧ resolve_domain_topic example_interp "eventsourcing.nowhere#Example"
    = Raise TopicResolutionError
  ∧ resolve_domain_topic example_interp
      "eventsourcing.domain.model.example#Example.Changed"
    = Raise TopicResolutionError.
Proof.
  split; [reflexivity|]. split; [|split; reflexivity].
  apply (resolve_topic_of_class example_interp 3 1
           "eventsourcing.domain.model.example" "Example.Created");
    reflexivity.
Defined.

Lemma resolve_attr_dotted_witness :
  Forall (fun name => name ≠ "" ∧ str_contains "." name = false)
    ["Example"; "Created"]
  ∧ resolve_attr example_interp 1 (dotted ["Example"; "Created"])
    = getattr_chain example_interp 1 ["Example"; "Created"].
Proof.
  assert (Forall (fun name => name ≠ "" ∧ str_contains "." name = false)
            ["Example"; "Created"]) as Hnames
    by (repeat constructor; discriminate).
  split; [exact Hnames|].
  exact (resolve_attr_dotted example_interp 1 ["Example"; "Created"] Hnames).
Defined.

Lemma resolve_domain_topic_module_witness :
  import_module example_interp "eventsourcing.domain.model.example" = Ok 1
  ∧ resolve_domain_topic example_interp "eventsourcing.domain.model.example"
    = Ok 1
  ∧ resolve_domain_topic example_interp
      ("eventsourcing.domain.model.example" +:+ "#") = Ok 1.
Proof.
  split; [reflexivity|].
  exact (resolve_domain_topic_module example_interp
           "eventsourcing.domain.model.example" 1 eq_refl eq_refl).
Defined.

Lemma resolve_domain_topic_raises_witness :
  resolve_domain_topic example_interp "eventsourcing.nowhere#Example"
  = Raise TopicResolutionError
  ∧ ((TopicResolutionError = TypeError
      ∧ startswith "."
          (partition "#" "eventsourcing.nowhere#Example").1.1 = true)
     ∨ (TopicResolutionError = ValueError
        ∧ (partition "#" "eventsourcing.nowhere#Example").1.1 = "")
     ∨ (TopicResolutionError = TopicResolutionError
        ∧ startswith "."
            (partition "#" "eventsourcing.nowhere#Example").1.1 = false
        ∧ (partition "#" "eventsourcing.nowhere#Example").1.1 ≠ ""
        ∧ (sys_modules example_interp
             !! (partition "#" "eventsourcing.nowhere#Example").1.1 = None
           ∨ ∃ module,
               sys_modules example_interp
                 !! (partition "#" "eventsourcing.nowhere#Example").1.1
               = Some module
               ∧ resolve_attr example_interp module
                   (partition "#" "eventsourcing.nowhere#Example").2
                 = Raise AttributeError))).
Proof.
  split; [reflexivity|].
  exact (resolve_domain_topic_raises example_interp
           "eventsourcing.nowhere#Example" TopicResolutionError eq_refl).
Defined.

(** The values of the example events: numbers, and classes by their
    names. *)
Inductive example_value : Type :=
  | Number (n : Z)
  | Class (name : string).

(** An event class that defines nothing of its own: its data descriptors
    are the three properties of [DomainEvent] and [__class__], and
    [__module__] is among its other attributes. *)
Definition example_data_descriptor (cls name : string)
  : option (DomainEvent (V:=example_value) → result example_value) :=
  if decide (name = "entity_id") then Some entity_id
  else if decide (name = "entity_version") then Some entity_version
  else if decide (name = "timestamp") then Some timestamp
  else if decide (name = "__class__")
       then Some (fun e => Ok (Class (event_class e)))
  else None.

Definition example_class_attribute (cls name : string)
  : option (DomainEvent (V:=example_value) → result example_value) :=
  if decide (name = "__module__")
  then Some (fun e => Ok (Class "eventsourcing.domain.model.example"))
  else None.

(** An event of the example entity, built with the keyword arguments [a]
    and [__class__] and no timestamp at the clock reading 3: [e.a] is the
    argument, [e.__class__] is the class. *)
Lemma DomainEvent_init_getattr_witness :
  ({[ "a" := Number 1; "__class__" := Number 2 ]}
   : gmap string example_value) !! "entity_id" = None
  ∧ ∃ e, DomainEvent_init (Number 3) "Example.Created" (Some (Number 11))
           (Some (Number 0)) None
           {[ "a" := Number 1; "__class__" := Number 2 ]} = Ok e
         ∧ DomainEvent_getattr example_data_descriptor
             example_class_attribute e "a" = Ok (Number 1)
         ∧ DomainEvent_getattr example_data_descriptor
             example_class_attribute e "__class__"
           = Ok (Class "Example.Created")
         ∧ DomainEvent_getattr example_data_descriptor
             example_class_attribute e "entity_id" = Ok (Number 11)
         ∧ DomainEvent_getattr example_data_descriptor
             example_class_attribute e "b" = Raise AttributeError.
Proof.
  split; [reflexivity|].
  destruct (DomainEvent_init_getattr (Number 3) example_data_descriptor
              example_class_attribute "Example.Created" (Number 11)
              (Number 0) None
              {[ "a" := Number 1; "__class__" := Number 2 ]})
    as (e & He & Hcls & Hid & _ & _ & Hdescriptor & Hkwargs & Hnone);
    [reflexivity..|].
  exists e. split; [exact He|]. split_and!.
  - apply Hkwargs; reflexivity.
  - rewrite (Hdescriptor "__class__" _ eq_refl). by rewrite Hcls.
  - rewrite (Hdescriptor "entity_id" _ eq_refl). exact Hid.
  - apply (Hnone "b"); [|reflexivity..].
    rewrite !not_elem_of_cons. split_and!; try discriminate.
    apply not_elem_of_nil.
Defined.

Lemma DomainEvent_equal_init_witness :
  ∃ e1 e2,
    DomainEvent_init 3%Z "Example.Created" (Some 11%Z) (Some 0%Z) None
      {[ "a" := 1%Z ]} = Ok e1
    ∧ DomainEvent_init 4%Z "Example.Created" (Some 11%Z) (Some 0%Z) None
        {[ "a" := 1%Z ]} = Ok e2
    ∧ (DomainEvent_equal e1 e2 = true
       ↔ "Example.Created" = "Example.Created" ∧ 11%Z = 11%Z ∧ 0%Z = 0%Z
         ∧ default 3%Z None = default 4%Z None
         ∧ ({[ "a" := 1%Z ]} : gmap string Z) = {[ "a" := 1%Z ]})
    ∧ DomainEvent_ne e1 e2 = negb (DomainEvent_equal e1 e2).
Proof.
  eexists _, _. split; [reflexivity|]. split; [reflexivity|].
  refine (DomainEvent_equal_init 3%Z 4%Z "Example.Created"
            "Example.Created" 11%Z 11%Z 0%Z 0%Z None None
            {[ "a" := 1%Z ]} {[ "a" := 1%Z ]} _ _ _ eq_refl eq_refl).
  intros k Hk. rewrite !elem_of_cons, elem_of_nil in Hk.
  destruct Hk as [->|[->|[->|[]]]]; split; reflexivity.
Defined.

End Events.

(** ** The log backend (test_applicationrecorder.py) *)

Module Recorder.

(** Modelled from the spec: the stored-event record (section 3), whose
    class is not among the sources; the fields are those the test gives
    its constructor. *)
Record StoredEvent : Type := {
  originator_id : N;
  originator_version : N;
  topic : string;
  state : string
}.

#[global] Instance StoredEvent_eq_dec : EqDecision StoredEvent.
Proof. solve_decision. Defined.

(** Modelled from the spec: a record of the log (section 3), a stored
    event under the notification id the backend gave it. *)
Record Notification : Type := {
  notification_id : N;
  stored : StoredEvent
}.

#[global] Instance Notification_eq_dec : EqDecision Notification.
Proof. solve_decision. Defined.

(** The log, oldest record first. *)
Abbreviation log := (list Notification).

Definition event_key (e : StoredEvent) : N * N :=
  (originator_id e, originator_version e).

Definition log_keys (l : log) : list (N * N) :=
  (fun n => event_key (stored n)) <$> l.

(** Modelled from the spec: [max_notification_id] of the log backend
    (section 4.D), whose recorder classes are not among the sources:
    "Greatest assigned id, 0 if empty". *)
Definition max_notification_id (l : log) : N :=
  foldr N.max 0%N (notification_id <$> l).

(** Modelled from the spec: the records a batch becomes, under
    "consecutive notification ids" from [next] on (section 4.D). *)
Fixpoint number_from (next : N) (batch : list StoredEvent) : log :=
  match batch with
  | [] => []
  | e :: batch' =>
      {| notification_id := next; stored := e |} :: number_from (N.succ next) batch'
  end.

(** Modelled from the spec: the uniqueness of (originator_id,
    originator_version) (section 3); no pair of the batch is in the log,
    and none is twice in the batch. *)
Definition free_of_collisions (batch : list StoredEvent) (l : log) : bool :=
  bool_decide (NoDup (event_key <$> batch))
  && forallb (fun e => bool_decide (event_key e ∉ log_keys l)) batch.

(** Modelled from the spec: [insert_events] of the log backend (section
    4.D), whose recorder classes are not among the sources: "Atomic: either
    all records in the batch are durable and get consecutive notification
    ids, or none are.  Fails with ConcurrencyConflict if any (originator_id,
    version) collides."  The result is the outcome and the log afterwards. *)
Definition insert_events (batch : list StoredEvent) (l : log)
  : result unit * log :=
  if free_of_collisions batch l
  then (Ok tt, l ++ number_from (N.succ (max_notification_id l)) batch)
  else (Raise ConcurrencyConflict, l).

(** Modelled from the spec: the records of the log with an id in the
    window [start, start+limit), in the order of the log (section 4.D:
    "records with notification_id ∈ [start, start+limit) in ascending id
    order"). *)
Definition window (start limit : N) (l : log) : log :=
  filter (fun n => (start ≤ notification_id n ∧ notification_id n < start + limit)%N) l.

(** Modelled from the spec: [select_notifications] of the log backend
    (section 4.D), whose recorder classes are not among the sources:
    "Returns records with notification_id ∈ [start, start+limit) in
    ascending id order".  The test (lines 71-108) calls it with a [start]
    of 1 or more and checks what it returns; what the recorder classes
    return for a [start] of 0 is not in the sources, and the theorem about
    the function is for a [start] of 1 or more. *)
Definition select_notifications (start limit : N) (l : log) : log :=
  window start limit l.

(** The second thing C8 asks of an answer [r] to [select_notifications(start,
    limit)] on the log [l], in its words: "fewer than limit only when the
    tail of the log is reached". *)
Definition short_only_at_the_tail (start limit : N) (l r : log) : Prop :=
  length r < N.to_nat limit → (max_notification_id l < start + limit)%N.

(** Modelled from the spec: [select_events] of the log backend (section
    4.D), whose recorder classes are not among the sources, called with the
    originator id alone as the test does: the events of [oid], in the order
    they were appended. *)
Definition select_events (oid : N) (l : log) : list StoredEvent :=
  filter (fun e => originator_id e = oid) (stored <$> l).

(** The logs [insert_events] builds: record [i] has notification id
    [i + 1]. *)
Definition numbered (l : log) : Prop :=
  ∀ i n, l !! i = Some n → notification_id n = N.of_nat (S i).

(** A run of the log that starts after [b] records. *)
Definition numbered_from (b : nat) (l : log) : Prop :=
  ∀ i n, l !! i = Some n → notification_id n = N.of_nat (S (b + i)).

(** The three events of [test_insert_select] and the log after its two
    calls of [insert_events]. *)
Definition stored_event1 : StoredEvent :=
  {| originator_id := 101; originator_version := 0;
     topic := "topic1"; state := "state1" |}.
Definition stored_event2 : StoredEvent :=
  {| originator_id := 101; originator_version := 1;
     topic := "topic2"; state := "state2" |}.
Definition stored_event3 : StoredEvent :=
  {| originator_id := 102; originator_version := 1;
     topic := "topic3"; state := "state3" |}.

Definition test_log : log :=
  (insert_events [stored_event3]
     (insert_events [stored_event1; stored_event2] []).2).2.

(** *** Numbering *)

Lemma max_notification_id_app (l1 l2 : log) :
  max_notification_id (l1 ++ l2)
  = N.max (max_notification_id l1) (max_notification_id l2).
Proof.
  unfold max_notification_id. rewrite fmap_app.
  induction (notification_id <$> l1) as [|k ks IH]; simpl.
  - by rewrite N.max_0_l.
  - by rewrite IH, N.max_assoc.
Qed.

Lemma numbered_nil : numbered [].
Proof. by intros [|i] n. Qed.

Lemma numbered_app_inv (l1 l2 : log) : numbered (l1 ++ l2) → numbered l1.
Proof.
  intros Hn i n Hi. apply Hn. by apply lookup_app_l_Some.
Qed.

Lemma max_notification_id_numbered (l : log) :
  numbered l → max_notification_id l = N.of_nat (length l).
Proof.
  induction l as [|x l IH] using rev_ind; intros Hn; [done|].
  rewrite max_notification_id_app, IH by by eapply numbered_app_inv.
  assert (notification_id x = N.of_nat (S (length l))) as Hx.
  { apply (Hn (length l)). by apply list_lookup_middle. }
  unfold max_notification_id. simpl. rewrite Hx, length_app. simpl.
  lia.
Qed.

Lemma number_from_lookup (next : N) (batch : list StoredEvent) (i : nat) :
  number_from next batch !! i
  = (fun e => {| notification_id := next + N.of_nat i; stored := e |})
      <$> batch !! i.
Proof.
  revert next i. induction batch as [|e batch IH]; intros next i; [done|].
  destruct i as [|i]; simpl.
  - by rewrite N.add_0_r.
  - rewrite IH. destruct (batch !! i); simpl; [|done].
    do 2 f_equal. lia.
Qed.

Lemma number_from_length (next : N) (batch : list StoredEvent) :
  length (number_from next batch) = length batch.
Proof.
  revert next. induction batch as [|e batch IH]; intros next; simpl; auto.
Qed.

Lemma number_from_stored (next : N) (batch : list StoredEvent) :
  stored <$> number_from next batch = batch.
Proof.
  revert next. induction batch as [|e batch IH]; intros next; simpl; [done|].
  by rewrite IH.
Qed.

Lemma free_of_collisions_spec (batch : list StoredEvent) (l : log) :
  free_of_collisions batch l = true
  ↔ NoDup (event_key <$> batch)
    ∧ ∀ e, e ∈ batch → event_key e ∉ log_keys l.
Proof.
  unfold free_of_collisions.
  rewrite andb_true_iff, bool_decide_eq_true, forallb_forall.
  split; intros [Hnd Hall]; (split; [done|]); intros e He.
  - apply list_elem_of_In, Hall in He. by apply bool_decide_eq_true in He.
  - apply bool_decide_eq_true, Hall. by apply list_elem_of_In.
Qed.

(** [insert_events] keeps the numbering, so every log built from the empty
    one is [numbered]. *)
Lemma insert_events_numbered (batch : list StoredEvent) (l : log) :
  numbered l → numbered (insert_events batch l).2.
Proof.
  intros Hn. unfold insert_events.
  destruct (free_of_collisions batch l); [|done]. simpl.
  intros i n Hi. apply lookup_app_Some in Hi as [Hi|[Hge Hi]]; [by apply Hn|].
  rewrite number_from_lookup in Hi.
  destruct (batch !! (i - length l)) as [e|]; [|done].
  injection Hi as <-. simpl. rewrite max_notification_id_numbered by done.
  lia.
Qed.

(** [insert_events] keeps the pairs (originator_id, originator_version)
    unique. *)
Lemma insert_events_unique (batch : list StoredEvent) (l : log) :
  NoDup (log_keys l) → NoDup (log_keys (insert_events batch l).2).
Proof.
  intros Hnd. unfold insert_events.
  destruct (free_of_collisions batch l) eqn:Hfree; [|done]. simpl.
  apply free_of_collisions_spec in Hfree as [Hb Hall].
  unfold log_keys in *. rewrite fmap_app. apply NoDup_app. split_and!.
  - done.
  - intros k Hk Hk'.
    apply list_elem_of_fmap in Hk' as (n & -> & Hn).
    apply (Hall (stored n)); [|done].
    rewrite <- (number_from_stored (N.succ (max_notification_id l)) batch).
    by apply list_elem_of_fmap_2.
  - rewrite <- (number_from_stored (N.succ (max_notification_id l)) batch)
      in Hb.
    by rewrite <- list_fmap_compose in Hb.
Qed.

(** C1: [insert_events] is all or nothing.  Either the outcome is success
    and the log is the old log followed by the whole batch, in order, under
    the ids that follow the greatest id of the old log one by one; or the
    outcome is [ConcurrencyConflict] and the log is the old log.  A batch
    with a pair (originator_id, originator_version) that a stored record
    has is of the second kind, a batch free of collisions of the first. *)
Theorem insert_events_all_or_nothing (batch : list StoredEvent) (l : log) :
  ((∃ new,
      insert_events batch l = (Ok tt, l ++ new)
      ∧ stored <$> new = batch
      ∧ (∀ i n, new !! i = Some n →
           notification_id n
           = (max_notification_id l + 1 + N.of_nat i)%N))
   ∨ insert_events batch l = (Raise ConcurrencyConflict, l))
  ∧ ((∃ e, e ∈ batch ∧ event_key e ∈ log_keys l) →
     insert_events batch l = (Raise ConcurrencyConflict, l))
  ∧ (NoDup (event_key <$> batch)
     → (∀ e, e ∈ batch → event_key e ∉ log_keys l)
     → (insert_events batch l).1 = Ok tt).
Proof.
  unfold insert_events. split_and!.
  - destruct (free_of_collisions batch l); [left|by right].
    exists (number_from (N.succ (max_notification_id l)) batch).
    split_and!; [done|apply number_from_stored|].
    intros i n Hi. rewrite number_from_lookup in Hi.
    destruct (batch !! i); [|done]. injection Hi as <-. simpl. lia.
  - intros (e & He & Hk).
    destruct (free_of_collisions batch l) eqn:Hfree; [|done].
    apply free_of_collisions_spec in Hfree as [_ Hall]. by apply Hall in Hk.
  - intros Hnd Hall.
    assert (free_of_collisions batch l = true) as ->; [|done].
    by apply free_of_collisions_spec.
Qed.

(** *** Reading the log *)

Lemma numbered_from_cons (b : nat) (x : Notification) (l : log) :
  numbered_from b (x :: l) →
  notification_id x = N.of_nat (S b) ∧ numbered_from (S b) l.
Proof.
  intros Hn. split.
  - rewrite (Hn 0 x eq_refl). f_equal. lia.
  - intros i n Hi. rewrite (Hn (S i) n Hi). f_equal. lia.
Qed.

Lemma select_notifications_cons (start limit : N) (x : Notification)
    (l : log) :
  select_notifications start limit (x :: l)
  = if bool_decide (start ≤ notification_id x
                    ∧ notification_id x < start + limit)%N
    then x :: select_notifications start limit l
    else select_notifications start limit l.
Proof.
  unfold select_notifications, window. case_bool_decide.
  - by rewrite filter_cons_True.
  - by rewrite filter_cons_False.
Qed.

(** A window that starts at or before the first record of a run takes a
    prefix of the run. *)
Lemma select_notifications_prefix (b : nat) (start limit : N) (l : log) :
  numbered_from b l → (start ≤ N.of_nat (S b))%N →
  select_notifications start limit l
  = take (N.to_nat (start + limit) - S b) l.
Proof.
  revert b. induction l as [|x l IH]; intros b Hn Hstart.
  - by rewrite take_nil.
  - apply numbered_from_cons in Hn as [Hx Hn].
    rewrite select_notifications_cons, (IH (S b)) by (done || lia).
    case_bool_decide as Hin.
    + replace (N.to_nat (start + limit) - S b)
        with (S (N.to_nat (start + limit) - S (S b))) by lia.
      done.
    + replace (N.to_nat (start + limit) - S b) with 0 by lia.
      replace (N.to_nat (start + limit) - S (S b)) with 0 by lia.
      by rewrite take_0.
Qed.

(** A window that starts inside a run takes a slice of the run. *)
Lemma select_notifications_slice (b : nat) (start limit : N) (l : log) :
  numbered_from b l → (N.of_nat (S b) ≤ start)%N →
  select_notifications start limit l
  = take (N.to_nat limit) (drop (N.to_nat start - S b) l).
Proof.
  revert b. induction l as [|x l IH]; intros b Hn Hstart.
  - by rewrite drop_nil, take_nil.
  - destruct (decide (start = N.of_nat (S b))) as [->|Hne].
    + rewrite (select_notifications_prefix b) by (done || lia).
      replace (N.to_nat (N.of_nat (S b)) - S b) with 0 by lia.
      rewrite drop_0. f_equal. lia.
    + apply numbered_from_cons in Hn as [Hx Hn].
      rewrite select_notifications_cons, (IH (S b)) by (done || lia).
      rewrite bool_decide_eq_false_2 by lia.
      replace (N.to_nat start - S b) with (S (N.to_nat start - S (S b)))
        by lia.
      done.
Qed.

Lemma numbered_from_0 (l : log) : numbered l → numbered_from 0 l.
Proof. intros Hn i n Hi. by apply Hn. Qed.

Lemma test_log_numbered : numbered test_log.
Proof. do 2 apply insert_events_numbered. apply numbered_nil. Qed.

(** C8, as the model has it: on a log numbered by [insert_events] and for a
    window that starts at an id (ids start at 1), [select_notifications]
    returns exactly the stored records with an id in [start, start+limit),
    as the slice of the log that holds them, so in ascending order of id,
    one id after the other; it returns fewer than [limit] records only if
    the window reaches past the greatest id; [max_notification_id] is the
    number of records, which is the greatest id of a log that has records
    and 0 for the empty log.  After the three events of the test the ids
    of [select_notifications(1, 3)] are 1, 2, 3, those of
    [select_notifications(2, 2)] are 2, 3, and [max_notification_id()] is
    3. *)
Theorem select_notifications_window (l : log) (start limit : N) :
  numbered l → (1 ≤ start)%N →
  (∀ n, n ∈ select_notifications start limit l
        ↔ n ∈ l ∧ (start ≤ notification_id n < start + limit)%N)
  ∧ select_notifications start limit l
    = take (N.to_nat limit) (drop (N.to_nat start - 1) l)
  ∧ (∀ i n, select_notifications start limit l !! i = Some n →
       notification_id n = (start + N.of_nat i)%N)
  ∧ (length (select_notifications start limit l) < N.to_nat limit →
     (max_notification_id l < start + limit)%N)
  ∧ max_notification_id l = N.of_nat (length l)
  ∧ (∀ n, n ∈ l → (notification_id n ≤ max_notification_id l)%N)
  ∧ max_notification_id [] = 0%N
  ∧ notification_id <$> select_notifications 1 3 test_log = [1; 2; 3]%N
  ∧ notification_id <$> select_notifications 2 2 test_log = [2; 3]%N
  ∧ max_notification_id test_log = 3%N.
Proof.
  intros Hn Hstart.
  pose proof (select_notifications_slice 0 start limit l
                (numbered_from_0 l Hn) ltac:(lia)) as Hslice.
  pose proof (max_notification_id_numbered l Hn) as Hmax.
  split_and!; try done.
  - intros n. unfold select_notifications, window.
    rewrite list_elem_of_filter. tauto.
  - intros i n Hi. rewrite Hslice, lookup_take_Some in Hi.
    destruct Hi as [Hi _]. rewrite lookup_drop in Hi.
    rewrite (Hn _ _ Hi). lia.
  - rewrite Hslice, length_take, length_drop, Hmax. lia.
  - intros n Hin. apply list_elem_of_lookup in Hin as [i Hi].
    rewrite Hmax, (Hn _ _ Hi). apply lookup_lt_Some in Hi. lia.
Qed.

Lemma select_notifications_window_witness :
  numbered test_log ∧ (1 ≤ 2)%N
  ∧ select_notifications 2 2 test_log
    = take (N.to_nat 2) (drop (N.to_nat 2 - 1) test_log).
Proof.
  split; [exact test_log_numbered|]. split; [lia|].
  exact (proj1 (proj2 (select_notifications_window test_log 2 2
                         test_log_numbered ltac:(lia)))).
Defined.

(** No answer to [select_notifications(0, 2)] on the log of the test is
    what C8 asks for, whichever recorder gives it: the records with an id
    in [0, 2) are one record, since ids start at 1, so an answer that is
    exactly these records has fewer than [limit] records, and the tail of
    the log, whose greatest id is 3, is not reached. *)
Lemma select_notifications_from_zero :
  (∀ r : log,
     r = window 0 2 test_log →
     r = [{| notification_id := 1; stored := stored_event1 |}]
     ∧ ¬ short_only_at_the_tail 0 2 test_log r)
  ∧ max_notification_id test_log = 3%N.
Proof.
  split; [|reflexivity]. intros r ->. split; [reflexivity|].
  unfold short_only_at_the_tail. intros Htail.
  assert (max_notification_id test_log < 0 + 2)%N as Hmax
    by (apply Htail; vm_compute; lia).
  vm_compute in Hmax. discriminate Hmax.
Qed.

End Recorder.

(** ** The event player (test_event_player.py) *)

Module Player.

(** The kinds of event the example entity publishes (domainmodel.py). *)
Inductive kind : Type :=
  | Created (a b : Z)
  | AttributeChanged (name : string) (value : Z)
  | Discarded
  | Heartbeat.

Record DomainEvent : Type := {
  entity_id : string;
  entity_version : Z;
  event_kind : kind
}.

(** The event store, oldest event first. *)
Abbreviation event_store := (list DomainEvent).

Section player.
(** [Entity]: the rebuilt values, which the player never looks into;
    [mutator]: the fold function the caller supplies. *)
Context {Entity : Type}.
Variable mutator : option Entity → DomainEvent → option Entity.

(** Modelled from the spec: [get_events(entity_id, after_version)] of the
    event store (section 4.E), which is not among the sources: the events
    of the entity above [after_version], as the log holds them (per entity,
    the log's order is the order of versions). *)
Definition get_events (store : event_store) (eid : string)
    (after_version : Z) : list DomainEvent :=
  filter (fun e => entity_id e = eid ∧ (after_version < entity_version e)%Z)
    store.

(** Modelled from the spec: step 1 of the player (section 4.H), which is
    not among the sources.  The snapshot service is optional and returns
    the most recent snapshot of an entity, if any, as a state and its
    version; without one the player starts "from None at version -1". *)
Definition initial_state
    (snapshot_service : option (string → option (Entity * Z)))
    (eid : string) : option Entity * Z :=
  match snapshot_service with
  | Some get_snapshot =>
      match get_snapshot eid with
      | Some (state, v0) => (Some state, v0)
      | None => (None, (-1)%Z)
      end
  | None => (None, (-1)%Z)
  end.

(** Modelled from the spec: steps 2 and 3 of the player (section 4.H):
    "Fold: state = mutator(state, event) for each event", and "If versions
    are not strictly consecutive starting from v0+1, fail with
    LogIntegrityError". *)
Fixpoint replay (expected : Z) (state : option Entity)
    (events : list DomainEvent) : result (option Entity) :=
  match events with
  | [] => Ok state
  | e :: events' =>
      if bool_decide (entity_version e = expected)
      then replay (expected + 1) (mutator state e) events'
      else Raise LogIntegrityError
  end.

(** Modelled from the spec: the player's lookup (section 4.H, steps 1 to
    4), which is not among the sources: "If the final state is None, fail
    with EntityNotFound; otherwise return it". *)
Definition get_entity
    (snapshot_service : option (string → option (Entity * Z)))
    (store : event_store) (eid : string) : result Entity :=
  let '(state0, v0) := initial_state snapshot_service eid in
  final ← replay (v0 + 1) state0 (get_events store eid v0);
  match final with
  | Some entity => Ok entity
  | None => Raise EntityNotFound
  end.

(** Versions [v0 + 1], [v0 + 2], ... in this order. *)
Definition consecutive_from (v0 : Z) (events : list DomainEvent) : Prop :=
  ∀ i e, events !! i = Some e → entity_version e = (v0 + 1 + Z.of_nat i)%Z.

End player.

(** Modelled from the spec: the example entity and its mutator, which are
    not among the sources (domainmodel.py declares the event classes only):
    as far as the test looks at the entity, [Created] builds it and, as
    section 4.H expects of a mutator, [Discarded] returns [None]. *)
Record Example : Type := {
  example_id : string;
  example_a : Z;
  example_b : Z;
  count_heartbeats : nat
}.

(** Modelled from the spec: [Example.mutator], not among the sources. *)
Definition Example_mutator (state : option Example) (e : DomainEvent)
  : option Example :=
  match event_kind e, state with
  | Created a b, _ =>
      Some {| example_id := entity_id e; example_a := a; example_b := b;
              count_heartbeats := 0 |}
  | Discarded, _ => None
  | AttributeChanged name value, Some x =>
      if bool_decide (name = "a")
      then Some {| example_id := example_id x; example_a := value;
                   example_b := example_b x;
                   count_heartbeats := count_heartbeats x |}
      else if bool_decide (name = "b")
      then Some {| example_id := example_id x; example_a := example_a x;
                   example_b := value;
                   count_heartbeats := count_heartbeats x |}
      else Some x
  | Heartbeat, Some x =>
      Some {| example_id := example_id x; example_a := example_a x;
              example_b := example_b x;
              count_heartbeats := S (count_heartbeats x) |}
  | _, None => None
  end.

(** The event store of [test_get_entity]. *)
Definition test_store : event_store :=
  [ {| entity_id := "entity1"; entity_version := 0;
       event_kind := Created 1 2 |};
    {| entity_id := "entity2"; entity_version := 0;
       event_kind := Created 2 4 |};
    {| entity_id := "entity3"; entity_version := 0;
       event_kind := Created 3 6 |};
    {| entity_id := "entity3"; entity_version := 1;
       event_kind := Discarded |} ].

Section player_facts.
Context {Entity : Type}.
Variable mutator : option Entity → DomainEvent → option Entity.

Lemma replay_app (expected : Z) (state : option Entity)
    (events1 events2 : list DomainEvent) :
  replay mutator expected state (events1 ++ events2)
  = state' ← replay mutator expected state events1;
    replay mutator (expected + Z.of_nat (length events1)) state' events2.
Proof.
  revert expected state.
  induction events1 as [|e events1 IH]; intros expected state; simpl.
  - by rewrite Z.add_0_r.
  - case_bool_decide; [|done]. rewrite IH. 
    replace (expected + 1 + Z.of_nat (length events1))%Z
      with (expected + Z.pos (Pos.of_succ_nat (length events1)))%Z by lia.
    done.
Qed.

(** A stream with consecutive versions replays to the fold of the
    mutator. *)
Lemma replay_consecutive (v0 : Z) (state : option Entity)
    (events : list DomainEvent) :
  consecutive_from v0 events →
  replay mutator (v0 + 1) state events = Ok (foldl mutator state events).
Proof.
  revert v0 state. induction events as [|e events IH]; intros v0 state Hc.
  - done.
  - simpl. rewrite bool_decide_eq_true_2.
    + apply IH. intros i e' Hi. rewrite (Hc (S i) e' Hi). lia.
    + rewrite (Hc 0 e eq_refl). lia.
Qed.

(** C4: an entity whose events, read after the snapshot if there is one,
    come with consecutive versions and end in an event the mutator answers
    with [None], as it does for [Discarded], is not found. *)
Theorem get_entity_discarded
    (snapshot_service : option (string → option (Entity * Z)))
    (store : event_store) (eid : string)
    (events : list DomainEvent) (last : DomainEvent) :
  get_events store eid (initial_state snapshot_service eid).2
  = events ++ [last] →
  consecutive_from (initial_state snapshot_service eid).2
    (events ++ [last]) →
  event_kind last = Discarded →
  (∀ state e, event_kind e = Discarded → mutator state e = None) →
  get_entity mutator snapshot_service store eid = Raise EntityNotFound.
Proof.
  intros Hev Hcons Hlast Hmut. unfold get_entity.
  destruct (initial_state snapshot_service eid) as [state0 v0]. simpl in *.
  rewrite Hev, (replay_consecutive v0) by done.
  rewrite foldl_app. simpl. by rewrite (Hmut _ last Hlast).
Qed.

End player_facts.

(** The test: [entity1] and [entity2] are rebuilt, [entity3], created and
    then discarded, is not found. *)
Lemma test_get_entity :
  example_a <$> get_entity Example_mutator None test_store "entity1" = Ok 1%Z
  ∧ example_a <$> get_entity Example_mutator None test_store "entity2"
    = Ok 2%Z
  ∧ get_entity Example_mutator None test_store "entity3"
    = Raise EntityNotFound.
Proof. by split_and!. Qed.

(** Scenario S4 on the store of the test: [entity3] is created at version
    0 and discarded at version 1. *)
Lemma get_entity_discarded_witness :
  get_events test_store "entity3" (-1)
  = [ {| entity_id := "entity3"; entity_version := 0;
         event_kind := Created 3 6 |} ]
    ++ [ {| entity_id := "entity3"; entity_version := 1;
            event_kind := Discarded |} ]
  ∧ get_entity Example_mutator None test_store "entity3"
    = Raise EntityNotFound.
Proof.
  split; [reflexivity|].
  apply (get_entity_discarded Example_mutator None test_store "entity3"
           [ {| entity_id := "entity3"; entity_version := 0;
                event_kind := Created 3 6 |} ]
           {| entity_id := "entity3"; entity_version := 1;
              event_kind := Discarded |}).
  - reflexivity.
  - intros [|[|i]] e; simpl; intros [= <-]; reflexivity.
  - reflexivity.
  - intros state e He. unfold Example_mutator. rewrite He. reflexivity.
Defined.

End Player.

(** ** The transcoder (transcoding.py) *)

Module Transcoding.

(** *** Classes *)

(** A class, as far as the transcoder looks at it: its topic
    ([get_topic(cls)]), the topics of its [__mro__], its [__slots__] when
    the class has them, whether its instances have a [__dict__], and the
    names of its members (of an enumeration) or fields (of a named
    tuple). *)
Record pyclass : Type := {
  cls_topic : string;
  cls_mro : list string;
  cls_slots : option (list string);
  cls_has_dict : bool;
  cls_members : list string
}.

#[global] Instance pyclass_eq_dec : EqDecision pyclass.
Proof. solve_decision. Defined.

Definition builtin_class (topic : string) (bases : list string)
    (has_dict : bool) : pyclass :=
  {| cls_topic := topic;
     cls_mro := topic :: bases ++ ["builtins#object"];
     cls_slots := None;
     cls_has_dict := has_dict;
     cls_members := [] |}.

Definition object_class : pyclass :=
  {| cls_topic := "builtins#object"; cls_mro := ["builtins#object"];
     cls_slots := None; cls_has_dict := false; cls_members := [] |}.
Definition NoneType_class := builtin_class "builtins#NoneType" [] false.
Definition int_class := builtin_class "builtins#int" [] false.
Definition bool_class := builtin_class "builtins#bool" ["builtins#int"] false.
Definition str_class := builtin_class "builtins#str" [] false.
Definition list_class := builtin_class "builtins#list" [] false.
Definition dict_class := builtin_class "builtins#dict" [] false.
Definition tuple_class := builtin_class "builtins#tuple" [] false.
Definition set_class := builtin_class "builtins#set" [] false.
Definition type_class := builtin_class "builtins#type" [] true.
Definition FunctionType := builtin_class "builtins#function" [] true.
Definition MethodType := builtin_class "builtins#method" [] false.
Definition UUID_class := builtin_class "uuid#UUID" [] false.
Definition date_class := builtin_class "datetime#date" [] false.
Definition datetime_class :=
  builtin_class "datetime#datetime" ["datetime#date"] false.
Definition time_class := builtin_class "datetime#time" [] false.
Definition Decimal_class := builtin_class "decimal#Decimal" [] false.
Definition deque_class := builtin_class "collections#deque" [] false.

(** [get_topic(cls)] *)
Definition get_topic (cls : pyclass) : string := cls_topic cls.

(** *** Times of day *)

(** [datetime.time]: the fields, and the offset from UTC in minutes of an
    aware time. *)
Record time : Type := {
  hour : Z;
  minute : Z;
  second : Z;
  microsecond : Z;
  tzinfo : option Z
}.

#[global] Instance time_eq_dec : EqDecision time.
Proof. solve_decision. Defined.

Definition digit_char (d : Z) : ascii :=
  ascii_of_nat (48 + Z.to_nat d).

(** The last [width] decimal digits of [n], as [%H], [%M], [%S] and [%f]
    write them (zero-padded). *)
Fixpoint digits (width : nat) (n : Z) : string :=
  match width with
  | O => ""
  | S width' => digits width' (n / 10) +:+ String (digit_char (n mod 10)) ""
  end.

(** [t.strftime("%H:%M:%S.%f")] *)
Definition time_strftime (t : time) : string :=
  digits 2 (hour t) +:+ ":" +:+ digits 2 (minute t) +:+ ":"
  +:+ digits 2 (second t) +:+ "." +:+ digits 6 (microsecond t).

Definition digit_value (c : ascii) : option Z :=
  let n := nat_of_ascii c in
  if bool_decide (48 ≤ n ≤ 57)%nat then Some (Z.of_nat n - 48)%Z else None.

Arguments digit_char : simpl never.
Arguments digit_value : simpl never.

Fixpoint int_digits (acc : Z) (s : string) : option Z :=
  match s with
  | EmptyString => Some acc
  | String c s' =>
      match digit_value c with
      | Some d => int_digits (acc * 10 + d) s'
      | None => None
      end
  end.

(** [int(s)] for a string: decimal digits after an optional sign; any
    other text is refused with [ValueError]. *)
Definition py_int (s : string) : result Z :=
  let '(negative, body) :=
    match s with
    | String c s' =>
        if decide (c = "-"%char) then (true, s')
        else if decide (c = "+"%char) then (false, s')
        else (false, s)
    | EmptyString => (false, s)
    end in
  match body with
  | EmptyString => Raise ValueError
  | _ =>
      match int_digits 0 body with
      | Some n => Ok (if (negative : bool) then (- n)%Z else n)
      | None => Raise ValueError
      end
  end.

(** [s.split(sep)] for a one-character separator. *)
Fixpoint split (sep : ascii) (s : string) : list string :=
  match s with
  | EmptyString => [""]
  | String c s' =>
      if decide (c = sep) then "" :: split sep s'
      else match split sep s' with
           | [] => [String c ""]
           | w :: ws => String c w :: ws
           end
  end.

(** [datetime.time(hour, minute, second, microsecond)] *)
Definition datetime_time (h m sec us : Z) : result time :=
  if bool_decide (0 ≤ h < 24 ∧ 0 ≤ m < 60 ∧ 0 ≤ sec < 60
                  ∧ 0 ≤ us < 1000000)%Z
  then Ok {| hour := h; minute := m; second := sec; microsecond := us;
             tzinfo := None |}
  else Raise ValueError.

(** *** JSON documents *)

Set Warnings "-register-all".

(** What [json] writes and reads: the text is taken as the document it
    denotes. *)
Inductive json : Type :=
  | JNull
  | JBool (b : bool)
  | JInt (n : Z)
  | JStr (s : string)
  | JArr (items : list json)
  | JObj (members : list (string * json)).

(** [sys.getrecursionlimit()] *)
Definition recursion_limit : nat := 1000.

(** *** Values *)

Section transcoder.
(** The values of the four library types whose inside the transcoder never
    looks at: [uuid.UUID], [datetime.datetime], [datetime.date] and
    [decimal.Decimal]. *)
Context {uuid datetime date decimal : Type}.

(** Python values.  A dictionary keeps its items in insertion order and
    has string keys; a tuple, an enumeration member, a deque and an object
    carry their class.  Floating-point numbers are left out. *)
Inductive pyval : Type :=
  | VNone
  | VBool (b : bool)
  | VInt (n : Z)
  | VStr (s : string)
  | VList (items : list pyval)
  | VDict (items : list (string * pyval))
  | VTuple (cls : pyclass) (items : list pyval)
  | VType (cls : pyclass)
  | VFunction (name : string)
  | VMethod (name : string) (self : pyval)
  | VUUID (u : uuid)
  | VDatetime (dt : datetime)
  | VDate (d : date)
  | VTime (t : time)
  | VDecimal (d : decimal)
  | VEnum (cls : pyclass) (name : string)
  | VDeque (cls : pyclass) (items : list pyval)
  | VSet (items : list pyval)
  | VObject (cls : pyclass) (attrs : list (string * pyval)).

Abbreviation pydict := (list (string * pyval)).

(** [type(obj)] *)
Definition type_of (obj : pyval) : pyclass :=
  match obj with
  | VNone => NoneType_class
  | VBool _ => bool_class
  | VInt _ => int_class
  | VStr _ => str_class
  | VList _ => list_class
  | VDict _ => dict_class
  | VTuple cls _ => cls
  | VType _ => type_class
  | VFunction _ => FunctionType
  | VMethod _ _ => MethodType
  | VUUID _ => UUID_class
  | VDatetime _ => datetime_class
  | VDate _ => date_class
  | VTime _ => time_class
  | VDecimal _ => Decimal_class
  | VEnum cls _ => cls
  | VDeque cls _ => cls
  | VSet _ => set_class
  | VObject cls _ => cls
  end.

(** [hasattr(obj, "__slots__")] and [hasattr(obj, "__dict__")] *)
Definition hasattr_slots (obj : pyval) : bool :=
  bool_decide (is_Some (cls_slots (type_of obj))).
Definition hasattr_dict (obj : pyval) : bool :=
  cls_has_dict (type_of obj).

(** [d[k]] on a dictionary, [d[k] = v], and [dict(pairs)] as the JSON
    parser builds it. *)
Fixpoint dict_get (k : string) (d : pydict) : option pyval :=
  match d with
  | [] => None
  | (k', v) :: d' => if decide (k = k') then Some v else dict_get k d'
  end.

Fixpoint dict_set (k : string) (v : pyval) (d : pydict) : pydict :=
  match d with
  | [] => [(k, v)]
  | (k', v') :: d' =>
      if decide (k = k') then (k', v) :: d' else (k', v') :: dict_set k v d'
  end.

Definition dict_of_pairs (pairs : pydict) : pydict :=
  fold_left (fun d kv => dict_set kv.1 kv.2 d) pairs [].

(** [obj[k]] for a string [k]. *)
Definition subscript (obj : pyval) (k : string) : result pyval :=
  match obj with
  | VDict d =>
      match dict_get k d with Some v => Ok v | None => Raise KeyError end
  | _ => Raise TypeError
  end.

(** [getattr(obj, k)] for an instance attribute. *)
Definition getattr (obj : pyval) (k : string) : result pyval :=
  match obj with
  | VObject _ attrs =>
      match dict_get k attrs with
      | Some v => Ok v
      | None => Raise AttributeError
      end
  | _ => Raise AttributeError
  end.

(** [obj.__dict__] *)
Definition instance_dict (obj : pyval) : pydict :=
  match obj with
  | VObject _ attrs => attrs
  | _ => []
  end.

(** [list(obj)]: the items an iteration yields. *)
Definition iterate (obj : pyval) : result (list pyval) :=
  match obj with
  | VList items | VTuple _ items | VDeque _ items | VSet items => Ok items
  | VDict d => Ok (VStr <$> d.*1)
  | VStr s => Ok ((fun c => VStr (String c "")) <$> list_ascii_of_string s)
  | _ => Raise TypeError
  end.

(** [hash(obj)] is defined. *)
Fixpoint hashable (obj : pyval) : bool :=
  match obj with
  | VList _ | VDict _ | VSet _ | VDeque _ _ => false
  | VTuple _ items => forallb hashable items
  | _ => true
  end.

Fixpoint mapM {A B : Type} (f : A → result B) (l : list A)
  : result (list B) :=
  match l with
  | [] => Ok []
  | x :: l' => y ← f x; ys ← mapM f l'; Ok (y :: ys)
  end.

(** *** What the transcoder takes from elsewhere *)

(** [resolve_topic] (eventsourcing/utils/topic.py, not among the sources),
    the text forms of the library types and the constructors that read
    them back, and the [<] and [==] of Python values. *)
Variable resolve_topic : string → result pyclass.
Variable uuid_hex : uuid → string.
Variable UUID : pyval → result uuid.
Variable datetime_strftime : datetime → string.
Variable dateutil_parse : pyval → result datetime.
Variable date_isoformat : date → string.
Variable date_strptime : pyval → result date.
Variable decimal_str : decimal → string.
Variable Decimal : pyval → result decimal.
Variable py_lt : pyval → pyval → result bool.
Variable py_eq : pyval → pyval → bool.

(** What an instance of a subclass of [str], [int], [float], [list],
    [tuple] or [dict] is as a value of that built-in class (the number an
    [IntEnum] member is, the text an instance of a subclass of [str] is),
    and [object.__new__(cls)], which raises [TypeError] for a class that
    has the layout or the [__new__] of a built-in class other than
    [object], such as a subclass of [int], [str], [tuple], [deque] or
    [Exception]. *)
Variable native_value : pyval → pyval.
Variable object_new : pyclass → result unit.

(** [sorted(l)]: a stable insertion sort that asks [<] only. *)
Fixpoint insert_sorted (x : pyval) (l : list pyval) : result (list pyval) :=
  match l with
  | [] => Ok [x]
  | y :: l' =>
      lt ← py_lt x y;
      if (lt : bool) then Ok (x :: y :: l')
      else (r ← insert_sorted x l'; Ok (y :: r))
  end.

Definition sorted (l : list pyval) : result (list pyval) :=
  fold_left (fun acc x => r ← acc; insert_sorted x r) l (Ok []).

(** [set(items)]: every item hashable, equal items once. *)
Definition make_set (items : list pyval) : result pyval :=
  if forallb hashable items
  then Ok (VSet (fold_left
                   (fun acc x => if existsb (py_eq x) acc then acc
                                 else acc ++ [x]) items []))
  else Raise TypeError.

(** [cls(values)] for the classes the decoders call with one iterable. *)
Definition construct (cls : pyclass) (values : pyval) : result pyval :=
  items ← iterate values;
  if bool_decide ("collections#deque" ∈ cls_mro cls)
  then Ok (VDeque cls items)
  else if bool_decide (cls = tuple_class) then Ok (VTuple cls items)
  else if bool_decide (cls = list_class) then Ok (VList items)
  else if bool_decide (cls = set_class) then make_set items
  else Raise TypeError.

(** [cls] called with the items of [state] as its arguments, for a named
    tuple class: one argument per field. *)
Definition construct_star (cls : pyclass) (state : pyval) : result pyval :=
  items ← iterate state;
  if bool_decide ("builtins#tuple" ∈ cls_mro cls ∧ cls ≠ tuple_class
                  ∧ length items = length (cls_members cls))
  then Ok (VTuple cls items)
  else Raise TypeError.

(** *** The encoder policy and its registrations *)

(** [@encoder.register(type)] *)
Definition encode_type (obj : pyval) : result pyval :=
  match obj with
  | VType cls => Ok (VDict [("__type__", VStr (get_topic cls))])
  | _ => Raise AttributeError
  end.

(** [@encoder.register(MethodType)] *)
Definition encode_method (obj : pyval) : result pyval :=
  Raise EncoderTypeError.

(** [@encoder.register(FunctionType)] *)
Definition encode_function (obj : pyval) : result pyval :=
  Raise EncoderTypeError.

(** [@encoder.register(object)] *)
Definition encode_object (obj : pyval) : result pyval :=
  if hasattr_slots obj then
    let topic := get_topic (type_of obj) in
    state ← mapM (fun k => v ← getattr obj k; Ok (k, v))
                 (default [] (cls_slots (type_of obj)));
    Ok (VDict [("__class__",
                VDict [("topic", VStr topic);
                       ("state", VDict (dict_of_pairs state))])])
  else if hasattr_dict obj then
    let topic := get_topic (type_of obj) in
    let state := instance_dict obj in
    Ok (VDict [("__class__",
                VDict [("topic", VStr topic); ("state", VDict state)])])
  else Raise EncoderTypeError.

(** [@encoder.register(UUID)] *)
Definition encode_uuid (obj : pyval) : result pyval :=
  match obj with
  | VUUID u => Ok (VDict [("UUID", VStr (uuid_hex u))])
  | _ => Raise AttributeError
  end.

(** [@encoder.register(datetime.datetime)] *)
Definition encode_datetime (obj : pyval) : result pyval :=
  match obj with
  | VDatetime dt =>
      Ok (VDict [("ISO8601_datetime", VStr (datetime_strftime dt))])
  | _ => Raise AttributeError
  end.

(** [@encoder.register(datetime.date)] *)
Definition encode_date (obj : pyval) : result pyval :=
  match obj with
  | VDate d => Ok (VDict [("ISO8601_date", VStr (date_isoformat d))])
  | _ => Raise AttributeError
  end.

(** [@encoder.register(datetime.time)] *)
Definition encode_time (obj : pyval) : result pyval :=
  match obj with
  | VTime t => Ok (VDict [("ISO8601_time", VStr (time_strftime t))])
  | _ => Raise AttributeError
  end.

(** [@encoder.register(Decimal)] *)
Definition encode_decimal (obj : pyval) : result pyval :=
  match obj with
  | VDecimal d => Ok (VDict [("__decimal__", VStr (decimal_str d))])
  | _ => Raise AttributeError
  end.

(** [@encoder.register(Enum)] *)
Definition encode_enum (obj : pyval) : result pyval :=
  match obj with
  | VEnum cls name =>
      Ok (VDict [("__enum__",
                  VDict [("topic", VStr (get_topic cls));
                         ("name", VStr name)])])
  | _ => Raise AttributeError
  end.

(** [@encoder.register(deque)] *)
Definition encode_deque (obj : pyval) : result pyval :=
  values ← iterate obj;
  Ok (VDict [("__deque__",
              VDict [("topic", VStr (get_topic (type_of obj)));
                     ("values", VList values)])]).

(** [@encoder.register(set)] *)
Definition encode_set (obj : pyval) : result pyval :=
  items ← iterate obj;
  items' ← sorted items;
  Ok (VDict [("__set__", VList items')]).

(** The registry that [encoder.register] fills, by the topic of the
    registered class.  [object] is registered twice: by [singledispatch]
    for the decorated function, and then by [@encoder.register(object)],
    which replaces it. *)
Definition encoder_registry : list (string * (pyval → result pyval)) :=
  [ ("builtins#type", encode_type);
    ("builtins#method", encode_method);
    ("builtins#function", encode_function);
    ("builtins#object", encode_object);
    ("uuid#UUID", encode_uuid);
    ("datetime#datetime", encode_datetime);
    ("datetime#date", encode_date);
    ("datetime#time", encode_time);
    ("decimal#Decimal", encode_decimal);
    ("enum#Enum", encode_enum);
    ("collections#deque", encode_deque);
    ("builtins#set", encode_set) ].

Fixpoint assoc {A : Type} (k : string) (l : list (string * A)) : option A :=
  match l with
  | [] => None
  | (k', a) :: l' => if decide (k = k') then Some a else assoc k l'
  end.

Definition registered (topic : string) : option (pyval → result pyval) :=
  assoc topic encoder_registry.

(** [wrapped.dispatch(cls)]: the function registered for the first class
    of [cls.__mro__] that has one. *)
Fixpoint dispatch (mro : list string) : pyval → result pyval :=
  match mro with
  | [] => fun obj => Raise EncoderTypeError
  | topic :: mro' =>
      match registered topic with
      | Some f => f
      | None => dispatch mro'
      end
  end.

(** [encoder(obj)], through the wrapper of [encoderpolicy]. *)
Definition encoder (obj : pyval) : result pyval :=
  dispatch (cls_mro (type_of obj)) obj.

(** *** The decoder policy and its registrations *)

(** The wrapper that [decoderpolicy] builds around a [decoder_map]. *)
Definition decoderpolicy
    (decoder_map : list (string * (pydict → result pyval)))
    (d : pydict) : result pyval :=
  let keys := d.*1 in
  match keys with
  | [key] =>
      match assoc key decoder_map with
      | None => Ok (VDict d)
      | Some decoder_func => decoder_func d
      end
  | _ => Ok (VDict d)
  end.

(** [resolve_topic(t)] for a value [t]. *)
Definition resolve_topic_value (t : pyval) : result pyclass :=
  match t with
  | VStr topic => resolve_topic topic
  | _ => Raise AttributeError
  end.

(** [@decoder.register("__type__")] *)
Definition _decode_type (d : pydict) : result pyval :=
  t ← subscript (VDict d) "__type__";
  cls ← resolve_topic_value t;
  Ok (VType cls).

(** [obj.__dict__.update(state)] on a new object, for a [state] that is a
    dictionary (the model refuses every other state; Python accepts a
    sequence of pairs as well). *)
Definition dict_update (obj_class : pyclass) (state : pyval)
  : result pyval :=
  match state with
  | VDict items => Ok (VObject obj_class (dict_of_pairs items))
  | _ => Raise TypeError
  end.

(** [for k, v in state.items(): object.__setattr__(obj, k, v)] on a new
    object without [__dict__]. *)
Definition setattr_items (obj_class : pyclass) (state : pyval)
  : result pyval :=
  match state with
  | VDict items =>
      if forallb (fun kv => bool_decide
                              (kv.1 ∈ default [] (cls_slots obj_class)))
                 items
      then Ok (VObject obj_class (dict_of_pairs items))
      else Raise AttributeError
  | _ => Raise AttributeError
  end.

(** [@decoder.register("__class__")] *)
Definition _decode_object (d : pydict) : result pyval :=
  c ← subscript (VDict d) "__class__";
  topic ← subscript c "topic";
  c' ← subscript (VDict d) "__class__";
  state ← subscript c' "state";
  obj_class ← resolve_topic_value topic;
  _ ← object_new obj_class;
  if cls_has_dict obj_class then dict_update obj_class state
  else setattr_items obj_class state.

(** [@decoder.register("UUID")] *)
Definition _decode_uuid (d : pydict) : result pyval :=
  x ← subscript (VDict d) "UUID"; u ← UUID x; Ok (VUUID u).

(** [@decoder.register("ISO8601_datetime")] *)
Definition _decode_datetime (d : pydict) : result pyval :=
  x ← subscript (VDict d) "ISO8601_datetime";
  dt ← dateutil_parse x; Ok (VDatetime dt).

(** [@decoder.register("ISO8601_date")] *)
Definition _decode_date (d : pydict) : result pyval :=
  x ← subscript (VDict d) "ISO8601_date";
  y ← date_strptime x; Ok (VDate y).

(** The body of [_decode_time], from the text on. *)
Definition time_of_text (s : string) : result time :=
  match split ":" s with
  | [hour; minute; seconds] =>
      match split "." seconds with
      | [second; microsecond] =>
          h ← py_int hour; m ← py_int minute;
          sec ← py_int second; us ← py_int microsecond;
          datetime_time h m sec us
      | _ => Raise ValueError
      end
  | _ => Raise ValueError
  end.

(** [@decoder.register("ISO8601_time")] *)
Definition _decode_time (d : pydict) : result pyval :=
  x ← subscript (VDict d) "ISO8601_time";
  match x with
  | VStr s => t ← time_of_text s; Ok (VTime t)
  | _ => Raise AttributeError
  end.

(** [@decoder.register("__decimal__")] *)
Definition _decode_decimal (d : pydict) : result pyval :=
  x ← subscript (VDict d) "__decimal__";
  y ← Decimal x; Ok (VDecimal y).

(** [@decoder.register("__enum__")] *)
Definition _decode_enum (d : pydict) : result pyval :=
  e ← subscript (VDict d) "__enum__";
  topic ← subscript e "topic";
  e' ← subscript (VDict d) "__enum__";
  name ← subscript e' "name";
  enum ← resolve_topic_value topic;
  match name with
  | VStr n =>
      if bool_decide (n ∈ cls_members enum) then Ok (VEnum enum n)
      else Raise AttributeError
  | _ => Raise TypeError
  end.

(** [@decoder.register("__deque__")] *)
Definition _decode_deque (d : pydict) : result pyval :=
  q ← subscript (VDict d) "__deque__";
  topic ← subscript q "topic";
  q' ← subscript (VDict d) "__deque__";
  values ← subscript q' "values";
  deque ← resolve_topic_value topic;
  construct deque values.

(** [@decoder.register("__tuple__")] *)
Definition _decode_tuple (d : pydict) : result pyval :=
  t ← subscript (VDict d) "__tuple__";
  topic ← subscript t "topic";
  t' ← subscript (VDict d) "__tuple__";
  state ← subscript t' "state";
  tuple_type ← resolve_topic_value topic;
  match topic with
  | VStr "builtins#tuple" => construct tuple_type state
  | _ => construct_star tuple_type state
  end.

(** [@decoder.register("__set__")] *)
Definition _decode_set (d : pydict) : result pyval :=
  x ← subscript (VDict d) "__set__";
  items ← iterate x;
  make_set items.

(** The [decoder_map] that [decoder.register] fills. *)
Definition decoder_map : list (string * (pydict → result pyval)) :=
  [ ("__type__", _decode_type);
    ("__class__", _decode_object);
    ("UUID", _decode_uuid);
    ("ISO8601_datetime", _decode_datetime);
    ("ISO8601_date", _decode_date);
    ("ISO8601_time", _decode_time);
    ("__decimal__", _decode_decimal);
    ("__enum__", _decode_enum);
    ("__deque__", _decode_deque);
    ("__tuple__", _decode_tuple);
    ("__set__", _decode_set) ].

(** [decoder(d)] *)
Definition decoder (d : pydict) : result pyval :=
  decoderpolicy decoder_map d.

(** *** The JSON encoder and decoder classes *)

(** [sorted(dct.items())] of [json.JSONEncoder] with [sort_keys=True]. *)
Fixpoint insert_item (kv : string * pyval) (l : pydict) : pydict :=
  match l with
  | [] => [kv]
  | kv' :: l' =>
      if String.ltb kv.1 kv'.1 then kv :: kv' :: l'
      else kv' :: insert_item kv l'
  end.

Definition sort_items (d : pydict) : pydict :=
  fold_left (fun acc kv => insert_item kv acc) d [].

(** [isinstance(o, cls)], for the class of the topic. *)
Definition isinstance (o : pyval) (topic : string) : bool :=
  bool_decide (topic ∈ cls_mro (type_of o)).

(** [o] is an instance of one of the classes whose instances
    [json.JSONEncoder] writes itself, subclasses included. *)
Definition isinstance_native (o : pyval) : bool :=
  existsb (isinstance o)
    ["builtins#str"; "builtins#int"; "builtins#float"; "builtins#list";
     "builtins#tuple"; "builtins#dict"].

(** [ObjectJSONEncoder.default] *)
Definition ObjectJSONEncoder_default (obj : pyval) : result pyval :=
  match encoder obj with
  | Raise EncoderTypeError => Raise TypeError  (* [JSONEncoder.default] *)
  | r => r
  end.

(** [JSONEncoder.iterencode] with [ObjectJSONEncoder.default] as its
    [default]: [None], booleans, integers and strings are written as they
    are, lists and tuples as arrays, dictionaries as objects with their
    keys sorted, an instance of a subclass of one of these classes as the
    value of the built-in class that it is, and any other value as what
    [default] returns for it.  [fuel] is the depth of recursion left. *)
Fixpoint JSONEncoder_iterencode (fuel : nat) (o : pyval) : result json :=
  match fuel with
  | O => Raise RecursionError
  | S fuel' =>
      match o with
      | VNone => Ok JNull
      | VBool b => Ok (JBool b)
      | VInt n => Ok (JInt n)
      | VStr s => Ok (JStr s)
      | VList items | VTuple _ items =>
          js ← mapM (JSONEncoder_iterencode fuel') items; Ok (JArr js)
      | VDict d =>
          ms ← mapM (fun kv => j ← JSONEncoder_iterencode fuel' kv.2;
                               Ok (kv.1, j))
                    (sort_items d);
          Ok (JObj ms)
      | VEnum _ _ | VDeque _ _ | VObject _ _ =>
          if isinstance_native o
          then JSONEncoder_iterencode fuel' (native_value o)
          else (o' ← ObjectJSONEncoder_default o;
                JSONEncoder_iterencode fuel' o')
      | _ =>
          o' ← ObjectJSONEncoder_default o;
          JSONEncoder_iterencode fuel' o'
      end
  end.

(** [ObjectJSONEncoder.iterencode]: [isinstance(o, tuple)] holds of a
    tuple, and of an instance of a subclass of [tuple], whose items are
    those of the tuple that it is. *)
Definition ObjectJSONEncoder_iterencode (o : pyval) : result json :=
  o ← match o with
      | VTuple cls items =>
          Ok (VDict [("__tuple__",
                      VDict [("topic", VStr (get_topic cls));
                             ("state", VList items)])])
      | VEnum _ _ | VDeque _ _ | VObject _ _ =>
          if isinstance o "builtins#tuple"
          then (items ← iterate (native_value o);
                Ok (VDict [("__tuple__",
                            VDict [("topic", VStr (get_topic (type_of o)));
                                   ("state", VList items)])]))
          else Ok o
      | _ => Ok o
      end;
  JSONEncoder_iterencode recursion_limit o.

(** [ObjectJSONEncoder().encode(o)] *)
Definition encode (o : pyval) : result json :=
  ObjectJSONEncoder_iterencode o.

(** [ObjectJSONDecoder().decode(s)]: [json.JSONDecoder] with [decoder] as
    its [object_hook], which is called on every object once its members
    are decoded. *)
Fixpoint decode (j : json) : result pyval :=
  match j with
  | JNull => Ok VNone
  | JBool b => Ok (VBool b)
  | JInt n => Ok (VInt n)
  | JStr s => Ok (VStr s)
  | JArr items =>
      vs ← (fix go (l : list json) : result (list pyval) :=
              match l with
              | [] => Ok []
              | x :: l' => v ← decode x; vs ← go l'; Ok (v :: vs)
              end) items;
      Ok (VList vs)
  | JObj members =>
      pairs ← (fix go (l : list (string * json)) : result pydict :=
                 match l with
                 | [] => Ok []
                 | (k, x) :: l' => v ← decode x; vs ← go l'; Ok ((k, v) :: vs)
                 end) members;
      decoder (dict_of_pairs pairs)
  end.

(** [decode(encode(o))] *)
Definition roundtrip (o : pyval) : result pyval :=
  j ← encode o; decode j.

(** The values [json.JSONEncoder] writes without asking [default]. *)
Definition json_native (o : pyval) : bool :=
  match o with
  | VNone | VBool _ | VInt _ | VStr _ | VList _ | VTuple _ _ | VDict _ => true
  | VEnum _ _ | VDeque _ _ | VObject _ _ => isinstance_native o
  | _ => false
  end.

(** Every character of [s] is a decimal digit. *)
Fixpoint all_digits (s : string) : bool :=
  match s with
  | EmptyString => true
  | String c s' => bool_decide (is_Some (digit_value c)) && all_digits s'
  end.

(** A time of day as [datetime.time] holds it. *)
Definition valid_time (t : time) : Prop :=
  (0 ≤ hour t < 24 ∧ 0 ≤ minute t < 60 ∧ 0 ≤ second t < 60
   ∧ 0 ≤ microsecond t < 1000000)%Z.

(** The JSON scalars and how [json] writes them. *)
Definition scalar (o : pyval) : bool :=
  match o with
  | VNone | VBool _ | VInt _ | VStr _ => true
  | _ => false
  end.

Definition json_of_scalar (o : pyval) : json :=
  match o with
  | VBool b => JBool b
  | VInt n => JInt n
  | VStr s => JStr s
  | _ => JNull
  end.

(** *** Times of day as text *)

Lemma digit_value_digit_char (d : Z) :
  (0 ≤ d < 10)%Z → digit_value (digit_char d) = Some d.
Proof.
  intros Hd. unfold digit_value, digit_char.
  rewrite nat_ascii_embedding by lia.
  rewrite bool_decide_eq_true_2 by lia. f_equal. lia.
Qed.

Lemma all_digits_app (s1 s2 : string) :
  all_digits (s1 +:+ s2) = all_digits s1 && all_digits s2.
Proof.
  induction s1 as [|c s1 IH]; simpl; [done|]. by rewrite IH, andb_assoc.
Qed.

Lemma all_digits_digits (width : nat) (n : Z) :
  all_digits (digits width n) = true.
Proof.
  revert n. induction width as [|w IH]; intros n; [done|].
  cbn [digits]. rewrite all_digits_app, IH. cbn [all_digits andb].
  rewrite digit_value_digit_char by (apply Z.mod_pos_bound; lia).
  rewrite bool_decide_eq_true_2; [done|by eexists].
Qed.

Lemma string_length_app (s1 s2 : string) :
  String.length (s1 +:+ s2) = String.length s1 + String.length s2.
Proof. induction s1 as [|c s1 IH]; simpl; [done|]. by rewrite IH. Qed.

Lemma length_digits (width : nat) (n : Z) :
  String.length (digits width n) = width.
Proof.
  revert n. induction width as [|w IH]; intros n; [done|].
  cbn [digits]. rewrite string_length_app, IH. cbn [String.length]. lia.
Qed.

Lemma int_digits_app (acc : Z) (s1 s2 : string) :
  int_digits acc (s1 +:+ s2)
  = acc' ← int_digits acc s1; int_digits acc' s2.
Proof.
  revert acc. induction s1 as [|c s1 IH]; intros acc; simpl; [done|].
  destruct (digit_value c); [apply IH|done].
Qed.

Lemma int_digits_digits (width : nat) (acc n : Z) :
  (0 ≤ n < 10 ^ Z.of_nat width)%Z →
  int_digits acc (digits width n)
  = Some (acc * 10 ^ Z.of_nat width + n)%Z.
Proof.
  revert acc n. induction width as [|w IH]; intros acc n Hn.
  - simpl in *. f_equal. lia.
  - rewrite Nat2Z.inj_succ, Z.pow_succ_r in * by lia.
    cbn [digits]. rewrite int_digits_app, (IH acc (n / 10)%Z).
    + cbn [mbind option_bind int_digits].
      rewrite digit_value_digit_char by (apply Z.mod_pos_bound; lia).
      f_equal. pose proof (Z.div_mod n 10 ltac:(lia)). lia.
    + split; [apply Z.div_pos; lia|].
      apply Z.div_lt_upper_bound; lia.
Qed.

(** [int] reads back what [%H], [%M], [%S] and [%f] write. *)
Lemma py_int_digits (width : nat) (n : Z) :
  0 < width → (0 ≤ n < 10 ^ Z.of_nat width)%Z →
  py_int (digits width n) = Ok n.
Proof.
  intros Hw Hn.
  pose proof (all_digits_digits width n) as Hall.
  pose proof (length_digits width n) as Hlen.
  pose proof (int_digits_digits width 0 n Hn) as Hint.
  destruct (digits width n) as [|c s]; [simpl in Hlen; lia|].
  cbn [all_digits] in Hall. apply andb_true_iff in Hall as [Hc _].
  apply bool_decide_eq_true in Hc.
  unfold py_int.
  rewrite !decide_False by (intros ->; by destruct Hc).
  rewrite Hint. f_equal; lia.
Qed.

(** Splitting at a separator that the first part does not hold. *)
Lemma split_app_sep (sep : ascii) (a b : string) :
  Events.str_contains sep a = false →
  split sep (a +:+ String sep b) = a :: split sep b.
Proof.
  induction a as [|c a IH]; simpl.
  - intros _. by rewrite decide_True.
  - destruct (decide (c = sep)); [done|]. intros Ha. by rewrite IH.
Qed.

Lemma split_no_sep (sep : ascii) (a : string) :
  Events.str_contains sep a = false → split sep a = [a].
Proof.
  induction a as [|c a IH]; simpl; [done|].
  destruct (decide (c = sep)); [done|]. intros Ha. by rewrite IH.
Qed.

Lemma str_contains_app (sep : ascii) (a b : string) :
  Events.str_contains sep (a +:+ b)
  = Events.str_contains sep a || Events.str_contains sep b.
Proof.
  induction a as [|c a IH]; simpl; [done|]. by destruct (decide (c = sep)).
Qed.

Lemma all_digits_no_sep (sep : ascii) (s : string) :
  digit_value sep = None → all_digits s = true →
  Events.str_contains sep s = false.
Proof.
  intros Hsep. induction s as [|c s IH]; simpl; [done|].
  intros [Hc Hs]%andb_true_iff. apply bool_decide_eq_true in Hc.
  destruct (decide (c = sep)) as [->|]; [|by apply IH].
  rewrite Hsep in Hc. by destruct Hc.
Qed.

(** [_decode_time] reads a naive time back from the text its encoder
    writes. *)
Lemma time_of_text_strftime (t : time) :
  valid_time t → tzinfo t = None → time_of_text (time_strftime t) = Ok t.
Proof.
  intros (Hh & Hm & Hs & Hus) Htz. unfold time_of_text, time_strftime.
  assert (∀ w n, Events.str_contains ":" (digits w n) = false) as Hcolon.
  { intros w n. apply all_digits_no_sep; [done|apply all_digits_digits]. }
  assert (∀ w n, Events.str_contains "." (digits w n) = false) as Hdot.
  { intros w n. apply all_digits_no_sep; [done|apply all_digits_digits]. }
  change (digits 2 (hour t) +:+ ":" +:+ digits 2 (minute t) +:+ ":"
          +:+ digits 2 (second t) +:+ "." +:+ digits 6 (microsecond t))
    with (digits 2 (hour t)
          +:+ String ":" (digits 2 (minute t)
          +:+ String ":" (digits 2 (second t)
          +:+ String "." (digits 6 (microsecond t))))).
  rewrite !split_app_sep by done.
  rewrite (split_no_sep ":").
  2: { rewrite str_contains_app, Hcolon. cbn [orb Events.str_contains].
       rewrite decide_False by done. apply Hcolon. }
  rewrite split_app_sep, split_no_sep by done.
  rewrite !py_int_digits by (cbn; lia). cbn [mbind result_bind].
  unfold datetime_time. rewrite bool_decide_eq_true_2 by done.
  destruct t; simpl in *. by subst.
Qed.

Lemma _decode_time_strftime (t : time) :
  valid_time t → tzinfo t = None →
  _decode_time [("ISO8601_time", VStr (time_strftime t))] = Ok (VTime t).
Proof.
  intros Hvalid Htz. unfold _decode_time.
  change (subscript (VDict [("ISO8601_time", VStr (time_strftime t))])
            "ISO8601_time") with (Ok (VStr (time_strftime t))).
  cbn [mbind result_bind]. by rewrite time_of_text_strftime.
Qed.

(** *** The decoder policy *)

Lemma assoc_is_Some {A : Type} (k : string) (l : list (string * A)) :
  is_Some (assoc k l) ↔ k ∈ l.*1.
Proof.
  induction l as [|[k' a] l IH]; simpl.
  - rewrite elem_of_nil. split; [by intros [? ?]|done].
  - rewrite elem_of_cons. destruct (decide (k = k')) as [->|Hne].
    + split; [by left|by eexists].
    + rewrite IH. split; [by right|]. by intros [?|?].
Qed.

Lemma decoderpolicy_cases
    (map : list (string * (pydict → result pyval))) (d : pydict) :
  (∀ key v decoder_func,
     d = [(key, v)] → assoc key map = Some decoder_func →
     decoderpolicy map d = decoder_func d)
  ∧ (∀ key v,
       d = [(key, v)] → assoc key map = None →
       decoderpolicy map d = Ok (VDict d))
  ∧ (length d ≠ 1 → decoderpolicy map d = Ok (VDict d)).
Proof.
  unfold decoderpolicy. split_and!.
  - intros key v f -> Hf. simpl. by rewrite Hf.
  - intros key v -> Hf. simpl. by rewrite Hf.
  - intros Hlen. by destruct d as [|[k v] [|kv d]].
Qed.

Lemma decoder_map_keys (key : string) :
  is_Some (assoc key decoder_map)
  ↔ key ∈ [ "__type__"; "__class__"; "UUID"; "ISO8601_datetime";
            "ISO8601_date"; "ISO8601_time"; "__decimal__"; "__enum__";
            "__deque__"; "__tuple__"; "__set__" ].
Proof. by rewrite assoc_is_Some. Qed.

(** C7: what [decoder] does with a decoded JSON object [d].  If [d] has one
    key and a decoder function is registered for it, the result is that
    function applied to [d]; if [d] has one key that is not registered, no
    key, or two keys or more, the result is [d] itself.  The registered
    keys are the eleven of [decoder_map]. *)
Theorem decoder_sole_registered_key (d : pydict) :
  (∀ key v decoder_func,
     d = [(key, v)] → assoc key decoder_map = Some decoder_func →
     decoder d = decoder_func d)
  ∧ (∀ key v,
       d = [(key, v)] → assoc key decoder_map = None →
       decoder d = Ok (VDict d))
  ∧ (length d ≠ 1 → decoder d = Ok (VDict d))
  ∧ (d = [] → decoder d = Ok (VDict d))
  ∧ (∀ key,
       is_Some (assoc key decoder_map)
       ↔ key ∈ [ "__type__"; "__class__"; "UUID"; "ISO8601_datetime";
                 "ISO8601_date"; "ISO8601_time"; "__decimal__"; "__enum__";
                 "__deque__"; "__tuple__"; "__set__" ]).
Proof.
  unfold decoder.
  destruct (decoderpolicy_cases decoder_map d) as (H1 & H2 & H3).
  split_and!; [done..| |apply decoder_map_keys].
  by intros ->.
Qed.

(** *** The encoder policy *)

Lemma registered_topics (topic : string) :
  is_Some (registered topic)
  ↔ topic ∈ [ "builtins#type"; "builtins#method"; "builtins#function";
              "builtins#object"; "uuid#UUID"; "datetime#datetime";
              "datetime#date"; "datetime#time"; "decimal#Decimal";
              "enum#Enum"; "collections#deque"; "builtins#set" ].
Proof. unfold registered. by rewrite assoc_is_Some. Qed.

(** A class with no registered class in its [__mro__] but [object] is
    served by the function registered for [object]. *)
Lemma dispatch_object (mro : list string) (obj : pyval) :
  (∀ topic, topic ∈ mro → topic ≠ "builtins#object" →
            registered topic = None) →
  dispatch mro obj = encode_object obj
  ∨ dispatch mro obj = Raise EncoderTypeError.
Proof.
  induction mro as [|topic mro IH]; intros Hreg; simpl; [by right|].
  destruct (decide (topic = "builtins#object")) as [->|Hne].
  - by left.
  - rewrite (Hreg topic) by (done || apply list_elem_of_here).
    apply IH. intros t Ht. apply Hreg. by apply list_elem_of_further.
Qed.

Lemma encode_object_refuses (obj : pyval) :
  hasattr_slots obj = false → hasattr_dict obj = false →
  encode_object obj = Raise EncoderTypeError.
Proof. unfold encode_object. by intros -> ->. Qed.

(** One step of [JSONEncoder.iterencode] on a value it asks [default]
    for. *)
Lemma iterencode_default (fuel : nat) (o : pyval) :
  json_native o = false →
  JSONEncoder_iterencode (S fuel) o
  = o' ← ObjectJSONEncoder_default o; JSONEncoder_iterencode fuel o'.
Proof.
  intros Hnative. destruct o; try discriminate Hnative; try reflexivity.
  all: cbn [JSONEncoder_iterencode json_native] in *; by rewrite Hnative.
Qed.

(** [ObjectJSONEncoder.iterencode] leaves such a value as it is. *)
Lemma ObjectJSONEncoder_iterencode_default (o : pyval) :
  json_native o = false →
  ObjectJSONEncoder_iterencode o = JSONEncoder_iterencode recursion_limit o.
Proof.
  intros Hnative. unfold ObjectJSONEncoder_iterencode.
  destruct o; try discriminate Hnative; try reflexivity.
  all: cbn [json_native] in Hnative; unfold isinstance_native in Hnative.
  all: cbn [existsb] in Hnative; rewrite !orb_false_iff in Hnative.
  all: destruct Hnative as (_ & _ & _ & _ & -> & _); reflexivity.
Qed.

(** What [default] refuses, the JSON encoder refuses. *)
Lemma encode_refused (obj : pyval) :
  json_native obj = false → encoder obj = Raise EncoderTypeError →
  encode obj = Raise TypeError.
Proof.
  intros Hnative Henc. unfold encode.
  rewrite ObjectJSONEncoder_iterencode_default by done.
  unfold recursion_limit. rewrite iterencode_default by done.
  unfold ObjectJSONEncoder_default. rewrite Henc. reflexivity.
Qed.

(** C9: [encoder] raises [EncoderTypeError] for every function and every
    bound method, and for every value whose class has no registered class
    in its [__mro__] but [object] and that has neither [__slots__] nor
    [__dict__]; where [json] asks [default] for such a value, no encoding
    comes out: [encode] raises. *)
Theorem encoder_refuses (obj : pyval) :
  (type_of obj = FunctionType ∨ type_of obj = MethodType →
   encoder obj = Raise EncoderTypeError)
  ∧ (∀ name, encoder (VFunction name) = Raise EncoderTypeError
             ∧ encode (VFunction name) = Raise TypeError)
  ∧ (∀ name self, encoder (VMethod name self) = Raise EncoderTypeError
                  ∧ encode (VMethod name self) = Raise TypeError)
  ∧ ((∀ topic, topic ∈ cls_mro (type_of obj) →
               topic ≠ "builtins#object" → registered topic = None) →
     hasattr_slots obj = false → hasattr_dict obj = false →
     encoder obj = Raise EncoderTypeError
     ∧ (json_native obj = false → encode obj = Raise TypeError)).
Proof.
  split_and!.
  - unfold encoder. intros [-> | ->]; reflexivity.
  - intros name. split; [reflexivity|]. by apply encode_refused.
  - intros name self. split; [reflexivity|]. by apply encode_refused.
  - intros Hreg Hslots Hdict.
    assert (encoder obj = Raise EncoderTypeError) as Henc.
    { unfold encoder.
      destruct (dispatch_object _ obj Hreg) as [-> | ->]; [|done].
      by apply encode_object_refuses. }
    split; [done|]. intros Hnative. by apply encode_refused.
Qed.

(** *** Round trips that hold *)

Lemma decode_JArr (items : list json) :
  decode (JArr items) = vs ← mapM decode items; Ok (VList vs).
Proof.
  cbn [decode]. f_equal.
  induction items as [|x items IH]; [done|]. cbn [mapM]. by rewrite <- IH.
Qed.

Lemma decode_JObj (members : list (string * json)) :
  decode (JObj members)
  = pairs ← mapM (fun kx => v ← decode kx.2; Ok (kx.1, v)) members;
    decoder (dict_of_pairs pairs).
Proof.
  cbn [decode]. f_equal.
  induction members as [|[k x] members IH]; [done|].
  cbn [mapM fst snd]. rewrite <- IH. by destruct (decode x).
Qed.

(** An object with one member whose key is registered goes to the decoder
    function of the key. *)
Lemma decode_envelope (k : string) (j : json) (v : pyval)
    (f : pydict → result pyval) :
  decode j = Ok v → assoc k decoder_map = Some f →
  decode (JObj [(k, j)]) = f [(k, v)].
Proof.
  intros Hj Hf. rewrite decode_JObj. cbn [mapM fst snd]. rewrite Hj.
  cbn [mbind result_bind]. unfold decoder, decoderpolicy.
  cbn [dict_of_pairs fold_left dict_set fst snd fmap list_fmap].
  by rewrite Hf.
Qed.

Lemma subscript_sole (k : string) (v : pyval) :
  subscript (VDict [(k, v)]) k = Ok v.
Proof. cbn [subscript dict_get]. by rewrite decide_True. Qed.

Lemma iterencode_scalars (fuel : nat) (items : list pyval) :
  forallb scalar items = true →
  mapM (JSONEncoder_iterencode (S fuel)) items
  = Ok (json_of_scalar <$> items).
Proof.
  induction items as [|o items IH]; [done|].
  cbn [forallb]. intros [Ho Hitems]%andb_true_iff.
  cbn [mapM]. rewrite IH by done.
  by destruct o; try discriminate Ho.
Qed.

Lemma decode_scalars (items : list pyval) :
  forallb scalar items = true →
  mapM decode (json_of_scalar <$> items) = Ok items.
Proof.
  induction items as [|o items IH]; [done|].
  cbn [forallb]. intros [Ho Hitems]%andb_true_iff.
  cbn [fmap list_fmap mapM]. change (list_fmap _ _ json_of_scalar items)
    with (json_of_scalar <$> items). rewrite IH by done.
  by destruct o; try discriminate Ho.
Qed.

(** X21: a class object comes back when its topic resolves to it. *)
Lemma roundtrip_type (cls : pyclass) :
  resolve_topic (get_topic cls) = Ok cls →
  roundtrip (VType cls) = Ok (VType cls).
Proof.
  intros Hcls. unfold roundtrip.
  assert (encode (VType cls)
          = Ok (JObj [("__type__", JStr (get_topic cls))])) as ->
    by (vm_compute; reflexivity).
  cbn [mbind result_bind].
  rewrite (decode_envelope "__type__" _ (VStr (get_topic cls)) _decode_type)
    by done.
  unfold _decode_type. rewrite subscript_sole. cbn [mbind result_bind].
  unfold resolve_topic_value. by rewrite Hcls.
Qed.

(** A UUID comes back when [UUID] reads its [hex]. *)
Lemma roundtrip_uuid (u : uuid) :
  UUID (VStr (uuid_hex u)) = Ok u → roundtrip (VUUID u) = Ok (VUUID u).
Proof.
  intros Hu. unfold roundtrip.
  assert (encode (VUUID u) = Ok (JObj [("UUID", JStr (uuid_hex u))])) as ->
    by (vm_compute; reflexivity).
  cbn [mbind result_bind].
  rewrite (decode_envelope "UUID" _ (VStr (uuid_hex u)) _decode_uuid) by done.
  unfold _decode_uuid. rewrite subscript_sole. cbn [mbind result_bind].
  by rewrite Hu.
Qed.

(** A datetime comes back when [dateutil.parser.parse] reads what
    [strftime] writes for it. *)
Lemma roundtrip_datetime (dt : datetime) :
  dateutil_parse (VStr (datetime_strftime dt)) = Ok dt →
  roundtrip (VDatetime dt) = Ok (VDatetime dt).
Proof.
  intros Hdt. unfold roundtrip.
  assert (encode (VDatetime dt)
          = Ok (JObj [("ISO8601_datetime", JStr (datetime_strftime dt))]))
    as -> by (vm_compute; reflexivity).
  cbn [mbind result_bind].
  rewrite (decode_envelope "ISO8601_datetime" _
             (VStr (datetime_strftime dt)) _decode_datetime) by done.
  unfold _decode_datetime. rewrite subscript_sole. cbn [mbind result_bind].
  by rewrite Hdt.
Qed.

(** A date comes back when [strptime] reads its [isoformat]. *)
Lemma roundtrip_date (d : date) :
  date_strptime (VStr (date_isoformat d)) = Ok d →
  roundtrip (VDate d) = Ok (VDate d).
Proof.
  intros Hd. unfold roundtrip.
  assert (encode (VDate d)
          = Ok (JObj [("ISO8601_date", JStr (date_isoformat d))]))
    as -> by (vm_compute; reflexivity).
  cbn [mbind result_bind].
  rewrite (decode_envelope "ISO8601_date" _ (VStr (date_isoformat d))
             _decode_date) by done.
  unfold _decode_date. rewrite subscript_sole. cbn [mbind result_bind].
  by rewrite Hd.
Qed.

(** A decimal comes back when [Decimal] reads its [str]. *)
Lemma roundtrip_decimal (d : decimal) :
  Decimal (VStr (decimal_str d)) = Ok d →
  roundtrip (VDecimal d) = Ok (VDecimal d).
Proof.
  intros Hd. unfold roundtrip.
  assert (encode (VDecimal d)
          = Ok (JObj [("__decimal__", JStr (decimal_str d))]))
    as -> by (vm_compute; reflexivity).
  cbn [mbind result_bind].
  rewrite (decode_envelope "__decimal__" _ (VStr (decimal_str d))
             _decode_decimal) by done.
  unfold _decode_decimal. rewrite subscript_sole. cbn [mbind result_bind].
  by rewrite Hd.
Qed.

(** X15: a naive time of day comes back. *)
Lemma roundtrip_time (t : time) :
  valid_time t → tzinfo t = None → roundtrip (VTime t) = Ok (VTime t).
Proof.
  intros Hvalid Htz. unfold roundtrip.
  assert (encode (VTime t)
          = Ok (JObj [("ISO8601_time", JStr (time_strftime t))])) as Henc.
  { unfold encode.
    rewrite ObjectJSONEncoder_iterencode_default by done.
    unfold recursion_limit. rewrite iterencode_default by done. reflexivity. }
  rewrite Henc. cbn [mbind result_bind].
  rewrite (decode_envelope "ISO8601_time" _ (VStr (time_strftime t))
             _decode_time) by done.
  by apply _decode_time_strftime.
Qed.

Lemma iterencode_VDict (fuel : nat) (d : pydict) :
  JSONEncoder_iterencode (S fuel) (VDict d)
  = ms ← mapM (fun kv => j ← JSONEncoder_iterencode fuel kv.2; Ok (kv.1, j))
              (sort_items d);
    Ok (JObj ms).
Proof. reflexivity. Qed.

Lemma iterencode_VList (fuel : nat) (items : list pyval) :
  JSONEncoder_iterencode (S fuel) (VList items)
  = js ← mapM (JSONEncoder_iterencode fuel) items; Ok (JArr js).
Proof. reflexivity. Qed.

Lemma iterencode_VStr (fuel : nat) (s : string) :
  JSONEncoder_iterencode (S fuel) (VStr s) = Ok (JStr s).
Proof. reflexivity. Qed.

(** The envelopes of a topic and a list of scalars, as they are
    written. *)
Lemma iterencode_envelope_values (fuel : nat) (key topic : string)
    (items : list pyval) :
  forallb scalar items = true →
  JSONEncoder_iterencode (S (S (S (S fuel))))
    (VDict [(key, VDict [("topic", VStr topic); ("values", VList items)])])
  = Ok (JObj [(key, JObj [("topic", JStr topic);
                          ("values", JArr (json_of_scalar <$> items))])]).
Proof.
  intros Hitems. rewrite iterencode_VDict.
  change (sort_items [(key, ?v)]) with [(key, v)].
  cbn [mapM snd fst]. rewrite iterencode_VDict.
  change (sort_items [("topic", VStr topic); ("values", VList items)])
    with [("topic", VStr topic); ("values", VList items)].
  cbn [mapM snd fst]. rewrite iterencode_VStr, iterencode_VList.
  by rewrite iterencode_scalars.
Qed.

Lemma iterencode_envelope_state (fuel : nat) (key topic : string)
    (items : list pyval) :
  forallb scalar items = true →
  JSONEncoder_iterencode (S (S (S (S fuel))))
    (VDict [(key, VDict [("topic", VStr topic); ("state", VList items)])])
  = Ok (JObj [(key, JObj [("state", JArr (json_of_scalar <$> items));
                          ("topic", JStr topic)])]).
Proof.
  intros Hitems. rewrite iterencode_VDict.
  change (sort_items [(key, ?v)]) with [(key, v)].
  cbn [mapM snd fst]. rewrite iterencode_VDict.
  change (sort_items [("topic", VStr topic); ("state", VList items)])
    with [("state", VList items); ("topic", VStr topic)].
  cbn [mapM snd fst]. rewrite iterencode_VStr, iterencode_VList.
  by rewrite iterencode_scalars.
Qed.

(** X22: a member of an enumeration that is not also an instance of a
    class [json] writes itself (as an [IntEnum] member is) comes back when
    its class is served by the function registered for [Enum] and the
    topic of the class resolves to the class. *)
Lemma roundtrip_enum (cls : pyclass) (name : string) :
  json_native (VEnum cls name) = false →
  dispatch (cls_mro cls) = encode_enum →
  resolve_topic (get_topic cls) = Ok cls → name ∈ cls_members cls →
  roundtrip (VEnum cls name) = Ok (VEnum cls name).
Proof.
  intros Hnative Hdispatch Hcls Hname. unfold roundtrip.
  assert (encode (VEnum cls name)
          = Ok (JObj [("__enum__",
                       JObj [("name", JStr name);
                             ("topic", JStr (get_topic cls))])])) as ->.
  { unfold encode.
    rewrite ObjectJSONEncoder_iterencode_default by done.
    unfold recursion_limit. rewrite iterencode_default by done.
    unfold ObjectJSONEncoder_default, encoder. cbn [type_of].
    rewrite Hdispatch. reflexivity. }
  cbn [mbind result_bind].
  rewrite (decode_envelope "__enum__" _
             (VDict [("name", VStr name); ("topic", VStr (get_topic cls))])
             _decode_enum) by done.
  unfold _decode_enum. rewrite !subscript_sole. cbn [mbind result_bind].
  change (subscript (VDict [("name", VStr name);
                            ("topic", VStr (get_topic cls))]) "topic")
    with (Ok (VStr (get_topic cls)) : result pyval).
  change (subscript (VDict [("name", VStr name);
                            ("topic", VStr (get_topic cls))]) "name")
    with (Ok (VStr name) : result pyval).
  cbn [mbind result_bind resolve_topic_value]. rewrite Hcls.
  cbn [mbind result_bind]. by rewrite bool_decide_eq_true_2.
Qed.

(** X18: a tuple of scalars comes back. *)
Lemma roundtrip_tuple_of_scalars (items : list pyval) :
  resolve_topic "builtins#tuple" = Ok tuple_class →
  forallb scalar items = true →
  roundtrip (VTuple tuple_class items) = Ok (VTuple tuple_class items).
Proof.
  intros Htuple Hitems. unfold roundtrip.
  assert (encode (VTuple tuple_class items)
          = Ok (JObj [("__tuple__",
                       JObj [("state", JArr (json_of_scalar <$> items));
                             ("topic", JStr "builtins#tuple")])])) as ->.
  { unfold encode, ObjectJSONEncoder_iterencode, recursion_limit.
    cbn [mbind result_bind].
    by rewrite iterencode_envelope_state. }
  cbn [mbind result_bind].
  rewrite (decode_envelope "__tuple__" _
             (VDict [("state", VList items);
                     ("topic", VStr "builtins#tuple")]) _decode_tuple);
    [|by rewrite decode_JObj; cbn [mapM fst snd];
         rewrite decode_JArr, decode_scalars
     |done].
  unfold _decode_tuple. rewrite !subscript_sole. cbn [mbind result_bind].
  change (subscript (VDict [("state", VList items);
                            ("topic", VStr "builtins#tuple")]) "topic")
    with (Ok (VStr "builtins#tuple") : result pyval).
  change (subscript (VDict [("state", VList items);
                            ("topic", VStr "builtins#tuple")]) "state")
    with (Ok (VList items) : result pyval).
  cbn [mbind result_bind resolve_topic_value]. rewrite Htuple.
  reflexivity.
Qed.

(** X20: a deque of scalars comes back. *)
Lemma roundtrip_deque_of_scalars (items : list pyval) :
  resolve_topic "collections#deque" = Ok deque_class →
  forallb scalar items = true →
  roundtrip (VDeque deque_class items) = Ok (VDeque deque_class items).
Proof.
  intros Hdeque Hitems. unfold roundtrip.
  assert (encode (VDeque deque_class items)
          = Ok (JObj [("__deque__",
                       JObj [("topic", JStr "collections#deque");
                             ("values", JArr (json_of_scalar <$> items))])]))
    as ->.
  { unfold encode.
    rewrite ObjectJSONEncoder_iterencode_default by done.
    unfold recursion_limit. rewrite iterencode_default by done.
    change (ObjectJSONEncoder_default (VDeque deque_class items))
      with (Ok (VDict [("__deque__",
                        VDict [("topic", VStr "collections#deque");
                               ("values", VList items)])]) : result pyval).
    cbn [mbind result_bind]. by rewrite iterencode_envelope_values. }
  cbn [mbind result_bind].
  rewrite (decode_envelope "__deque__" _
             (VDict [("topic", VStr "collections#deque");
                     ("values", VList items)]) _decode_deque);
    [|by rewrite decode_JObj; cbn [mapM fst snd];
         rewrite decode_JArr, decode_scalars
     |done].
  unfold _decode_deque. rewrite !subscript_sole. cbn [mbind result_bind].
  change (subscript (VDict [("topic", VStr "collections#deque");
                            ("values", VList items)]) "topic")
    with (Ok (VStr "collections#deque") : result pyval).
  change (subscript (VDict [("topic", VStr "collections#deque");
                            ("values", VList items)]) "values")
    with (Ok (VList items) : result pyval).
  cbn [mbind result_bind resolve_topic_value]. rewrite Hdeque.
  reflexivity.
Qed.

(** *** What the encoder functions return *)

(** Whatever a registered encoder function returns is a dictionary with
    one key, and a decoder function is registered for the key. *)
Lemma registered_envelope (topic : string) (f : pyval → result pyval)
    (obj o' : pyval) :
  registered topic = Some f → f obj = Ok o' →
  ∃ key v, o' = VDict [(key, v)] ∧ is_Some (assoc key decoder_map).
Proof.
  unfold registered, encoder_registry. cbn [assoc].
  repeat (case_decide; [intros [= <-] Hf|]); [..|done].
  all: try (by discriminate Hf).
  all: try (destruct obj; try discriminate Hf; injection Hf as <-;
            eexists _, _; split; [reflexivity|]; by eexists).
  - unfold encode_object in Hf.
    destruct (hasattr_slots obj).
    + destruct (mapM _ _) in Hf; [|done]. injection Hf as <-.
      eexists _, _; split; [reflexivity|]; by eexists.
    + destruct (hasattr_dict obj); [|done]. injection Hf as <-.
      eexists _, _; split; [reflexivity|]; by eexists.
  - unfold encode_deque in Hf. destruct (iterate obj); [|done].
    injection Hf as <-. eexists _, _; split; [reflexivity|]; by eexists.
  - unfold encode_set in Hf. destruct (iterate obj); [|done]. simpl in Hf.
    destruct (sorted _); [|done].
    injection Hf as <-. eexists _, _; split; [reflexivity|]; by eexists.
Qed.

Lemma dispatch_envelope (mro : list string) (obj o' : pyval) :
  dispatch mro obj = Ok o' →
  ∃ key v, o' = VDict [(key, v)] ∧ is_Some (assoc key decoder_map).
Proof.
  induction mro as [|topic mro IH]; simpl; [done|].
  destruct (registered topic) as [f|] eqn:Hf; [|done].
  by apply registered_envelope with topic.
Qed.

(** X13: whatever value [encoder] returns, for whatever object, is a
    dictionary with one key that a decoder function is registered for, so
    that [decoder] hands the dictionary to that function and never returns
    it as it is. *)
Theorem encoder_envelope (obj o' : pyval) :
  encoder obj = Ok o' →
  ∃ key v decoder_func,
    o' = VDict [(key, v)] ∧ assoc key decoder_map = Some decoder_func
    ∧ decoder [(key, v)] = decoder_func [(key, v)].
Proof.
  intros (key & v & -> & [f Hf])%dispatch_envelope.
  exists key, v, f. split_and!; [done..|].
  unfold decoder, decoderpolicy. cbn [fmap list_fmap fst]. by rewrite Hf.
Qed.

(** *** Times of day that are read *)

(** A part of [s.split(sep)] holds no character that [s] does not hold. *)
Lemma split_parts (sep c : ascii) (s : string) :
  Events.str_contains c s = false →
  Forall (fun part => Events.str_contains c part = false) (split sep s).
Proof.
  induction s as [|c' s IH]; simpl.
  - intros _. by repeat constructor.
  - destruct (decide (c' = c)) as [|Hne]; [done|]. intros Hs.
    specialize (IH Hs). destruct (decide (c' = sep)).
    + constructor; [done|exact IH].
    + destruct (split sep s) as [|w ws]; simpl.
      * repeat constructor. simpl. by rewrite decide_False.
      * inversion IH; subst. constructor; [|done].
        simpl. by rewrite decide_False.
Qed.

(** X16: whatever [_decode_time] returns is a naive time of day with its
    fields in range: no text makes it return an aware time. *)
Theorem _decode_time_naive (d : pydict) (v : pyval) :
  _decode_time d = Ok v →
  ∃ t, v = VTime t ∧ valid_time t ∧ tzinfo t = None.
Proof.
  unfold _decode_time. destruct (subscript _ _) as [x|]; [|done].
  cbn [mbind result_bind]. destruct x; try done.
  destruct (time_of_text s) as [t|] eqn:Ht; [|done].
  intros [= <-]. exists t. split; [done|].
  unfold time_of_text in Ht.
  destruct (split ":" s) as [|h [|m [|secs [|? ?]]]]; try done.
  destruct (split "." secs) as [|sec [|us [|? ?]]]; try done.
  destruct (py_int h) as [h'|]; [|done].
  destruct (py_int m) as [m'|]; [|done].
  destruct (py_int sec) as [sec'|]; [|done].
  destruct (py_int us) as [us'|]; [|done].
  cbn [mbind result_bind] in Ht. unfold datetime_time in Ht.
  case_bool_decide; [|done]. injection Ht as <-. by split.
Qed.

(** X17: a text with no ["."] in it, such as [isoformat] writes for a time of
    whole seconds, is refused with [ValueError]. *)
Theorem _decode_time_no_fraction (s : string) :
  Events.str_contains "." s = false →
  _decode_time [("ISO8601_time", VStr s)] = Raise ValueError.
Proof.
  intros Hs. unfold _decode_time.
  change (subscript (VDict [("ISO8601_time", VStr s)]) "ISO8601_time")
    with (Ok (VStr s) : result pyval).
  cbn [mbind result_bind]. unfold time_of_text.
  pose proof (split_parts ":" "." s Hs) as Hparts.
  destruct (split ":" s) as [|h [|m [|secs [|? ?]]]]; try done.
  apply Forall_cons in Hparts as [_ Hparts].
  apply Forall_cons in Hparts as [_ Hparts].
  apply Forall_cons in Hparts as [Hsecs _].
  by rewrite split_no_sep.
Qed.

(** *** More round trips *)

(** X23: the values of the four library types come back when their
    constructors read back the text that is written for them; a datetime is
    written as a datetime, not as the date it also is. *)
Theorem roundtrip_library_values (u : uuid) (dt : datetime) (d : date)
    (x : decimal) :
  UUID (VStr (uuid_hex u)) = Ok u →
  dateutil_parse (VStr (datetime_strftime dt)) = Ok dt →
  date_strptime (VStr (date_isoformat d)) = Ok d →
  Decimal (VStr (decimal_str x)) = Ok x →
  roundtrip (VUUID u) = Ok (VUUID u)
  ∧ roundtrip (VDatetime dt) = Ok (VDatetime dt)
  ∧ roundtrip (VDate d) = Ok (VDate d)
  ∧ roundtrip (VDecimal x) = Ok (VDecimal x).
Proof.
  intros Hu Hdt Hd Hx. split_and!.
  - by apply roundtrip_uuid.
  - by apply roundtrip_datetime.
  - by apply roundtrip_date.
  - by apply roundtrip_decimal.
Qed.

(** X14: a dictionary of the caller's own that has one key, a registered one,
    does not come back: it is taken for an envelope and handed to the
    decoder function of the key. *)
Theorem roundtrip_sole_registered_key (key : string) (v : pyval)
    (decoder_func : pydict → result pyval) :
  scalar v = true → assoc key decoder_map = Some decoder_func →
  roundtrip (VDict [(key, v)]) = decoder_func [(key, v)].
Proof.
  intros Hv Hf. unfold roundtrip.
  assert (encode (VDict [(key, v)]) = Ok (JObj [(key, json_of_scalar v)]))
    as ->.
  { unfold encode, ObjectJSONEncoder_iterencode, recursion_limit.
    cbn [mbind result_bind].
    rewrite iterencode_VDict.
    change (sort_items [(key, v)]) with [(key, v)].
    cbn [mapM fst snd].
    by destruct v; try discriminate Hv. }
  cbn [mbind result_bind].
  apply decode_envelope; [|done].
  by destruct v; try discriminate Hv.
Qed.

(** *** Objects *)

Lemma insert_item_perm (kv : string * pyval) (l : pydict) :
  insert_item kv l ≡ₚ kv :: l.
Proof.
  induction l as [|kv' l IH]; simpl; [done|].
  destruct (String.ltb kv.1 kv'.1); [done|].
  rewrite IH. apply Permutation_swap.
Qed.

Lemma sort_items_perm (d : pydict) : sort_items d ≡ₚ d.
Proof.
  unfold sort_items.
  assert (∀ acc, fold_left (fun acc kv => insert_item kv acc) d acc
                 ≡ₚ acc ++ d) as H; [|apply H].
  induction d as [|kv d IH]; intros acc; simpl.
  - by rewrite app_nil_r.
  - rewrite IH, insert_item_perm. simpl. apply Permutation_middle.
Qed.

Lemma dict_set_absent (k : string) (v : pyval) (d : pydict) :
  k ∉ d.*1 → dict_set k v d = d ++ [(k, v)].
Proof.
  induction d as [|[k' v'] d IH]; simpl; [done|].
  rewrite not_elem_of_cons. intros [Hne Hk].
  rewrite decide_False by done. by rewrite IH.
Qed.

(** [dict(pairs)] is [pairs] when no key comes twice. *)
Lemma dict_of_pairs_NoDup (l : pydict) : NoDup l.*1 → dict_of_pairs l = l.
Proof.
  unfold dict_of_pairs.
  assert (∀ acc, NoDup (acc ++ l).*1 →
                 fold_left (fun d kv => dict_set kv.1 kv.2 d) l acc
                 = acc ++ l) as H; [|intros Hnd; by apply (H [])].
  induction l as [|[k v] l IH]; intros acc Hnd; simpl.
  - by rewrite app_nil_r.
  - rewrite dict_set_absent.
    + rewrite IH; by rewrite <- app_assoc.
    + rewrite fmap_app in Hnd. apply NoDup_app in Hnd as (_ & Hnd & _).
      intros Hk. apply (Hnd k Hk). simpl. left.
Qed.

Lemma iterencode_scalar_items (fuel : nat) (d : pydict) :
  Forall (fun kv => scalar kv.2 = true) d →
  mapM (fun kv => j ← JSONEncoder_iterencode (S fuel) kv.2; Ok (kv.1, j)) d
  = Ok ((fun kv => (kv.1, json_of_scalar kv.2)) <$> d).
Proof.
  induction 1 as [|[k v] d Hv _ IH]; [done|].
  cbn [mapM fmap list_fmap fst snd] in *. rewrite IH.
  by destruct v; try discriminate Hv.
Qed.

Lemma decode_scalar_items (d : pydict) :
  Forall (fun kv => scalar kv.2 = true) d →
  mapM (fun kx => v ← decode kx.2; Ok (kx.1, v))
       ((fun kv => (kv.1, json_of_scalar kv.2)) <$> d)
  = Ok d.
Proof.
  induction 1 as [|[k v] d Hv _ IH]; [done|].
  cbn [mapM fmap list_fmap fst snd] in *. rewrite IH.
  by destruct v; try discriminate Hv.
Qed.

(** X24: an object with a [__dict__] of scalars comes back with its
    attributes in the order of their names, when it is not an instance of
    a class [json] writes itself, its class is served by the function
    registered for [object], the topic of the class resolves to the class,
    [object.__new__] takes the class, and its only attribute, if it has
    just one, is not named by a registered key. *)
Theorem roundtrip_object_of_scalars (cls : pyclass) (attrs : pydict) :
  json_native (VObject cls attrs) = false →
  dispatch (cls_mro cls) = encode_object →
  cls_slots cls = None → cls_has_dict cls = true →
  resolve_topic (get_topic cls) = Ok cls → object_new cls = Ok () →
  NoDup attrs.*1 → Forall (fun kv => scalar kv.2 = true) attrs →
  (∀ key v, attrs = [(key, v)] → assoc key decoder_map = None) →
  roundtrip (VObject cls attrs) = Ok (VObject cls (sort_items attrs)).
Proof.
  intros Hnative Hdispatch Hslots Hdict Hcls Hnew Hnd Hscalar Hkey.
  pose proof (sort_items_perm attrs) as Hperm.
  assert (Forall (fun kv => scalar kv.2 = true) (sort_items attrs)) as Hs.
  { by rewrite Hperm. }
  assert (dict_of_pairs (sort_items attrs) = sort_items attrs) as Hpairs.
  { apply dict_of_pairs_NoDup. by rewrite Hperm. }
  assert (decoder (sort_items attrs) = Ok (VDict (sort_items attrs)))
    as Hstate.
  { destruct (decoderpolicy_cases decoder_map (sort_items attrs))
      as (_ & H1 & Hn).
    destruct (decide (length (sort_items attrs) = 1)) as [Hlen|Hlen];
      [|by apply Hn].
    destruct (sort_items attrs) as [|[k v] [|? ?]] eqn:Hsort;
      try discriminate Hlen.
    apply (H1 k v); [done|]. apply (Hkey k v).
    by apply Permutation_singleton_l in Hperm. }
  unfold roundtrip.
  assert (encode (VObject cls attrs)
          = Ok (JObj [("__class__",
                       JObj [("state",
                              JObj ((fun kv => (kv.1, json_of_scalar kv.2))
                                      <$> sort_items attrs));
                             ("topic", JStr (get_topic cls))])])) as ->.
  { unfold encode.
    rewrite ObjectJSONEncoder_iterencode_default by done.
    unfold recursion_limit. rewrite iterencode_default by done.
    unfold ObjectJSONEncoder_default, encoder. cbn [type_of].
    rewrite Hdispatch. unfold encode_object, hasattr_slots, hasattr_dict.
    cbn [type_of]. rewrite Hslots, Hdict.
    rewrite bool_decide_eq_false_2 by (by intros [? ?]).
    cbn [mbind result_bind instance_dict]. rewrite iterencode_VDict.
    change (sort_items [("__class__", ?v)]) with [("__class__", v)].
    cbn [mapM snd fst]. rewrite iterencode_VDict.
    change (sort_items [("topic", VStr (get_topic cls));
                        ("state", VDict attrs)])
      with [("state", VDict attrs); ("topic", VStr (get_topic cls))].
    cbn [mapM snd fst]. rewrite iterencode_VStr, iterencode_VDict.
    by rewrite iterencode_scalar_items. }
  cbn [mbind result_bind].
  rewrite (decode_envelope "__class__" _
             (VDict [("state", VDict (sort_items attrs));
                     ("topic", VStr (get_topic cls))]) _decode_object);
    [| |done].
  - unfold _decode_object. rewrite !subscript_sole.
    cbn [mbind result_bind].
    change (subscript (VDict [("state", VDict (sort_items attrs));
                              ("topic", VStr (get_topic cls))]) "topic")
      with (Ok (VStr (get_topic cls)) : result pyval).
    change (subscript (VDict [("state", VDict (sort_items attrs));
                              ("topic", VStr (get_topic cls))]) "state")
      with (Ok (VDict (sort_items attrs)) : result pyval).
    cbn [mbind result_bind resolve_topic_value]. rewrite Hcls.
    cbn [mbind result_bind]. rewrite Hnew. cbn [mbind result_bind].
    rewrite Hdict. unfold dict_update. by rewrite Hpairs.
  - rewrite decode_JObj. cbn [mapM fst snd]. rewrite decode_JObj.
    rewrite decode_scalar_items by done. cbn [mbind result_bind].
    rewrite Hpairs, Hstate. reflexivity.
Qed.

(** *** Named tuples *)

(** [_decode_tuple] on the envelope of a tuple whose topic is not that of
    [tuple]: the class is called with the items as its arguments. *)
Lemma _decode_tuple_named (topic : string) (state : pyval) :
  topic ≠ "builtins#tuple" →
  _decode_tuple [("__tuple__",
                  VDict [("state", state); ("topic", VStr topic)])]
  = tuple_type ← resolve_topic topic; construct_star tuple_type state.
Proof.
  intros Hne. unfold _decode_tuple. rewrite !subscript_sole.
  cbn [mbind result_bind].
  change (subscript (VDict [("state", state); ("topic", VStr topic)]) "topic")
    with (Ok (VStr topic) : result pyval).
  change (subscript (VDict [("state", state); ("topic", VStr topic)]) "state")
    with (Ok state : result pyval).
  cbn [mbind result_bind resolve_topic_value].
  destruct (resolve_topic topic) as [tuple_type|]; [|done].
  cbn [mbind result_bind].
  repeat (destruct topic as [|[[] [] [] [] [] [] [] []] topic];
          try reflexivity; try done).
Qed.

(** X19: a named tuple of scalars comes back when its topic resolves to its
    class: the class is called with as many arguments as it has fields. *)
Theorem roundtrip_namedtuple_of_scalars (cls : pyclass)
    (items : list pyval) :
  "builtins#tuple" ∈ cls_mro cls → get_topic cls ≠ "builtins#tuple" →
  resolve_topic (get_topic cls) = Ok cls →
  length items = length (cls_members cls) →
  forallb scalar items = true →
  roundtrip (VTuple cls items) = Ok (VTuple cls items).
Proof.
  intros Hmro Htopic Hcls Hlen Hitems. unfold roundtrip.
  assert (encode (VTuple cls items)
          = Ok (JObj [("__tuple__",
                       JObj [("state", JArr (json_of_scalar <$> items));
                             ("topic", JStr (get_topic cls))])])) as ->.
  { unfold encode, ObjectJSONEncoder_iterencode, recursion_limit.
    cbn [mbind result_bind].
    by rewrite iterencode_envelope_state. }
  cbn [mbind result_bind].
  rewrite (decode_envelope "__tuple__" _
             (VDict [("state", VList items);
                     ("topic", VStr (get_topic cls))]) _decode_tuple);
    [|by rewrite decode_JObj; cbn [mapM fst snd];
         rewrite decode_JArr, decode_scalars
     |done].
  rewrite _decode_tuple_named by done. rewrite Hcls.
  cbn [mbind result_bind]. unfold construct_star.
  cbn [iterate mbind result_bind].
  rewrite bool_decide_eq_true_2; [done|].
  split_and!; [done| |done]. by intros ->.
Qed.

End transcoder.

(** *** The transcoder at work *)

(** A library to run examples with: a UUID, a date, a datetime and a
    decimal are given by their text, which is what the constructors read;
    [<] and [==] are those of integers and of strings. *)
Abbreviation value := (@pyval string string string string).

Definition example_resolve_topic (topic : string) : result pyclass :=
  match assoc topic [ ("builtins#tuple", tuple_class);
                      ("collections#deque", deque_class) ] with
  | Some cls => Ok cls
  | None => Raise TopicResolutionError
  end.

Definition example_read (x : value) : result string :=
  match x with
  | VStr s => Ok s
  | _ => Raise TypeError
  end.

Definition example_lt (x y : value) : result bool :=
  match x, y with
  | VInt a, VInt b => Ok (a <? b)%Z
  | VStr a, VStr b => Ok (String.ltb a b)
  | _, _ => Raise TypeError
  end.

Definition example_eq (x y : value) : bool :=
  match x, y with
  | VInt a, VInt b => (a =? b)%Z
  | VStr a, VStr b => String.eqb a b
  | VNone, VNone => true
  | _, _ => false
  end.

(** An instance of a subclass of [int] is the member [ONE] of the
    enumeration [Number] below, which is 1; [object.__new__] takes the
    classes that derive from [object] alone. *)
Definition example_native_value (o : value) : value :=
  match o with
  | VEnum _ "ONE" => VInt 1
  | _ => o
  end.

Definition example_object_new (cls : pyclass) : result unit :=
  if bool_decide (cls_mro cls = [cls_topic cls; "builtins#object"])
  then Ok ()
  else Raise TypeError.

Definition example_encode (o : value) : result json :=
  encode (fun s => s) (fun s => s) (fun s => s) (fun s => s) example_lt
    example_native_value o.

Definition example_decode (j : json) : result value :=
  decode example_resolve_topic example_read example_read example_read
    example_read example_eq example_object_new j.

Definition example_roundtrip (o : value) : result value :=
  j ← example_encode o; example_decode j.

(** [((1, 2), 3)] and [datetime.time(1, 2, 3, 4, tzinfo=timezone.utc)] *)
Definition nested_tuple : value :=
  VTuple tuple_class [VTuple tuple_class [VInt 1; VInt 2]; VInt 3].

Definition aware_time : value :=
  VTime {| hour := 1; minute := 2; second := 3; microsecond := 4;
           tzinfo := Some 0%Z |}.

(** A tuple as such comes back as it was. *)
Lemma roundtrip_flat_tuple :
  example_roundtrip (VTuple tuple_class [VInt 1; VStr "a"; VNone])
  = Ok (VTuple tuple_class [VInt 1; VStr "a"; VNone]).
Proof. vm_compute. reflexivity. Qed.

(** A naive time and a tuple of scalars, run through the lemmas. *)
Lemma roundtrip_time_witness :
  valid_time {| hour := 23; minute := 59; second := 7; microsecond := 125;
                tzinfo := None |}
  ∧ example_roundtrip
      (VTime {| hour := 23; minute := 59; second := 7; microsecond := 125;
                tzinfo := None |})
    = Ok (VTime {| hour := 23; minute := 59; second := 7;
                   microsecond := 125; tzinfo := None |}).
Proof.
  assert (valid_time {| hour := 23; minute := 59; second := 7;
                        microsecond := 125; tzinfo := None |}) as Hvalid
    by (unfold valid_time; simpl; lia).
  split; [exact Hvalid|].
  exact (roundtrip_time example_resolve_topic (fun s => s) example_read
           (fun s => s) example_read (fun s => s) example_read
           (fun s => s) example_read example_lt example_eq example_native_value
           example_object_new _ Hvalid eq_refl).
Defined.

Lemma roundtrip_tuple_of_scalars_witness :
  forallb scalar [VInt 1; VStr "a"; VNone : value] = true
  ∧ example_roundtrip (VTuple tuple_class [VInt 1; VStr "a"; VNone])
    = Ok (VTuple tuple_class [VInt 1; VStr "a"; VNone]).
Proof.
  split; [reflexivity|].
  exact (roundtrip_tuple_of_scalars example_resolve_topic (fun s => s)
           example_read (fun s => s) example_read (fun s => s) example_read
           (fun s => s) example_read example_lt example_eq example_native_value
           example_object_new
           [VInt 1; VStr "a"; VNone] eq_refl eq_refl).
Defined.

(** C2, where the code leaves the claim.  [ObjectJSONEncoder.iterencode]
    wraps the tuple it is given, and [json] writes every tuple inside it as
    an array, which is read back as a list: [((1, 2), 3)] comes back as
    [([1, 2], 3)].  The encoder of [datetime.time] writes no offset, so an
    aware time comes back naive. *)
Theorem roundtrip_nested_tuple_and_aware_time :
  example_encode nested_tuple
  = Ok (JObj [("__tuple__",
               JObj [("state", JArr [JArr [JInt 1; JInt 2]; JInt 3]);
                     ("topic", JStr "builtins#tuple")])])
  ∧ example_roundtrip nested_tuple
    = Ok (VTuple tuple_class [VList [VInt 1; VInt 2]; VInt 3])
  ∧ example_roundtrip (VList [VTuple tuple_class [VInt 1; VInt 2]])
    = Ok (VList [VList [VInt 1; VInt 2]])
  ∧ example_encode aware_time
    = Ok (JObj [("ISO8601_time", JStr "01:02:03.000004")])
  ∧ example_roundtrip aware_time
    = Ok (VTime {| hour := 1; minute := 2; second := 3; microsecond := 4;
                   tzinfo := None |}).
Proof. split_and!; vm_compute; reflexivity. Qed.

(** *** The transcoder on an application's classes *)

(** An enumeration, a class with a [__dict__], a named tuple class, an
    [IntEnum] and a subclass of [Exception] of an application. *)
Definition Colour : pyclass :=
  {| cls_topic := "shapes#Colour";
     cls_mro := ["shapes#Colour"; "enum#Enum"; "builtins#object"];
     cls_slots := None; cls_has_dict := true;
     cls_members := ["RED"; "GREEN"] |}.

Definition Point : pyclass :=
  {| cls_topic := "shapes#Point";
     cls_mro := ["shapes#Point"; "builtins#object"];
     cls_slots := None; cls_has_dict := true; cls_members := [] |}.

Definition Size : pyclass :=
  {| cls_topic := "shapes#Size";
     cls_mro := ["shapes#Size"; "builtins#tuple"; "builtins#object"];
     cls_slots := Some []; cls_has_dict := false;
     cls_members := ["width"; "height"] |}.

Definition Count : pyclass :=
  {| cls_topic := "shapes#Count";
     cls_mro := ["shapes#Count"; "enum#IntEnum"; "builtins#int";
                 "enum#ReprEnum"; "enum#Enum"; "builtins#object"];
     cls_slots := None; cls_has_dict := true; cls_members := ["ONE"] |}.

Definition Failure : pyclass :=
  {| cls_topic := "shapes#Failure";
     cls_mro := ["shapes#Failure"; "builtins#Exception";
                 "builtins#BaseException"; "builtins#object"];
     cls_slots := None; cls_has_dict := true; cls_members := [] |}.

Definition shapes_resolve_topic (topic : string) : result pyclass :=
  match assoc topic [ ("shapes#Colour", Colour); ("shapes#Point", Point);
                      ("shapes#Size", Size); ("shapes#Count", Count);
                      ("shapes#Failure", Failure) ] with
  | Some cls => Ok cls
  | None => Raise TopicResolutionError
  end.

Definition shapes_roundtrip (o : value) : result value :=
  roundtrip shapes_resolve_topic (fun s => s) example_read (fun s => s)
    example_read (fun s => s) example_read (fun s => s) example_read
    example_lt example_eq example_native_value example_object_new o.

(** Two values that do not come back: the member of an [IntEnum] is
    written as the number it is, and [object.__new__] does not take a
    subclass of [Exception]. *)
Lemma roundtrip_int_enum_and_exception :
  shapes_roundtrip (VEnum Count "ONE") = Ok (VInt 1)
  ∧ shapes_roundtrip (VObject Failure [("code", VInt 3)]) = Raise TypeError.
Proof. split; vm_compute; reflexivity. Qed.

Definition example_encoder (o : value) : result value :=
  encoder (fun s => s) (fun s => s) (fun s => s) (fun s => s) example_lt o.

Definition example_decoder_map
  : list (string * (list (string * value) → result value)) :=
  decoder_map example_resolve_topic example_read example_read example_read
    example_read example_eq example_object_new.

Lemma encoder_envelope_witness :
  example_encoder (VDeque deque_class [VInt 1; VInt 2])
  = Ok (VDict [("__deque__", VDict [("topic", VStr "collections#deque");
                                    ("values", VList [VInt 1; VInt 2])])])
  ∧ ∃ key v decoder_func,
      (VDict [("__deque__", VDict [("topic", VStr "collections#deque");
                                   ("values", VList [VInt 1; VInt 2])])]
       : value) = VDict [(key, v)]
      ∧ assoc key example_decoder_map = Some decoder_func
      ∧ decoder example_resolve_topic example_read example_read
          example_read example_read example_eq example_object_new
          [(key, v)]
        = decoder_func [(key, v)].
Proof.
  split; [reflexivity|].
  exact (encoder_envelope example_resolve_topic (fun s => s) example_read
           (fun s => s) example_read (fun s => s) example_read
           (fun s => s) example_read example_lt example_eq
           example_object_new
           (VDeque deque_class [VInt 1; VInt 2]) _ eq_refl).
Defined.

Lemma _decode_time_naive_witness :
  _decode_time [("ISO8601_time", VStr "01:02:03.000004" : value)]
  = Ok (VTime {| hour := 1; minute := 2; second := 3; microsecond := 4;
                 tzinfo := None |})
  ∧ ∃ t, (VTime {| hour := 1; minute := 2; second := 3; microsecond := 4;
                   tzinfo := None |} : value) = VTime t
         ∧ valid_time t ∧ tzinfo t = None.
Proof.
  split; [reflexivity|].
  exact (_decode_time_naive
           [("ISO8601_time", VStr "01:02:03.000004" : value)] _ eq_refl).
Defined.

(** [datetime.time(1, 2, 3).isoformat()] is ["01:02:03"]. *)
Lemma _decode_time_no_fraction_witness :
  Events.str_contains "." "01:02:03" = false
  ∧ _decode_time [("ISO8601_time", VStr "01:02:03" : value)]
    = Raise ValueError.
Proof.
  split; [reflexivity|].
  exact (_decode_time_no_fraction "01:02:03" eq_refl).
Defined.

Lemma roundtrip_library_values_witness :
  example_roundtrip (VUUID "6ba7b8109dad11d180b400c04fd430c8")
  = Ok (VUUID "6ba7b8109dad11d180b400c04fd430c8")
  ∧ example_roundtrip (VDatetime "2011-01-01T01:01:01.000000")
    = Ok (VDatetime "2011-01-01T01:01:01.000000")
  ∧ example_roundtrip (VDate "2011-01-01") = Ok (VDate "2011-01-01")
  ∧ example_roundtrip (VDecimal "-3.14") = Ok (VDecimal "-3.14").
Proof.
  exact (roundtrip_library_values example_resolve_topic (fun s => s)
           example_read (fun s => s) example_read (fun s => s) example_read
           (fun s => s) example_read example_lt example_eq example_native_value
           example_object_new
           "6ba7b8109dad11d180b400c04fd430c8" "2011-01-01T01:01:01.000000"
           "2011-01-01" "-3.14" eq_refl eq_refl eq_refl eq_refl).
Defined.

(** [{"UUID": "6ba7..."}] comes back as a UUID. *)
Lemma roundtrip_sole_registered_key_witness :
  example_roundtrip (VDict [("UUID", VStr "6ba7b8109dad11d180b400c04fd430c8")])
  = Ok (VUUID "6ba7b8109dad11d180b400c04fd430c8").
Proof.
  exact (roundtrip_sole_registered_key example_resolve_topic (fun s => s)
           example_read (fun s => s) example_read (fun s => s) example_read
           (fun s => s) example_read example_lt example_eq example_native_value
           example_object_new
           "UUID" (VStr "6ba7b8109dad11d180b400c04fd430c8")
           (_decode_uuid example_read) eq_refl eq_refl).
Defined.

Lemma roundtrip_type_witness :
  example_roundtrip (VType deque_class) = Ok (VType deque_class).
Proof.
  exact (roundtrip_type example_resolve_topic (fun s => s) example_read
           (fun s => s) example_read (fun s => s) example_read
           (fun s => s) example_read example_lt example_eq example_native_value
           example_object_new
           deque_class eq_refl).
Defined.

Lemma roundtrip_deque_of_scalars_witness :
  example_roundtrip (VDeque deque_class [VInt 1; VStr "a"; VBool true])
  = Ok (VDeque deque_class [VInt 1; VStr "a"; VBool true]).
Proof.
  exact (roundtrip_deque_of_scalars example_resolve_topic (fun s => s)
           example_read (fun s => s) example_read (fun s => s) example_read
           (fun s => s) example_read example_lt example_eq example_native_value
           example_object_new
           [VInt 1; VStr "a"; VBool true] eq_refl eq_refl).
Defined.

Lemma roundtrip_enum_witness :
  "GREEN" ∈ cls_members Colour
  ∧ shapes_roundtrip (VEnum Colour "GREEN") = Ok (VEnum Colour "GREEN").
Proof.
  assert ("GREEN" ∈ cls_members Colour) as Hmember
    by (simpl; apply list_elem_of_further, list_elem_of_here).
  split; [exact Hmember|].
  exact (roundtrip_enum shapes_resolve_topic (fun s => s) example_read
           (fun s => s) example_read (fun s => s) example_read
           (fun s => s) example_read example_lt example_eq example_native_value
           example_object_new
           Colour "GREEN" eq_refl eq_refl eq_refl Hmember).
Defined.

(** A point [y = 2, x = 1] comes back as [x = 1, y = 2]. *)
Lemma roundtrip_object_of_scalars_witness :
  shapes_roundtrip (VObject Point [("y", VInt 2); ("x", VInt 1)])
  = Ok (VObject Point [("x", VInt 1); ("y", VInt 2)]).
Proof.
  apply (roundtrip_object_of_scalars shapes_resolve_topic (fun s => s)
           example_read (fun s => s) example_read (fun s => s) example_read
           (fun s => s) example_read example_lt example_eq example_native_value
           example_object_new
           Point [("y", VInt 2); ("x", VInt 1)]).
  - reflexivity.
  - reflexivity.
  - reflexivity.
  - reflexivity.
  - reflexivity.
  - reflexivity.
  - apply (bool_decide_unpack _). vm_compute. exact I.
  - repeat constructor.
  - intros key v. discriminate.
Defined.

Lemma roundtrip_namedtuple_of_scalars_witness :
  "builtins#tuple" ∈ cls_mro Size
  ∧ shapes_roundtrip (VTuple Size [VInt 3; VInt 4])
    = Ok (VTuple Size [VInt 3; VInt 4]).
Proof.
  assert ("builtins#tuple" ∈ cls_mro Size) as Hmro
    by (simpl; apply list_elem_of_further, list_elem_of_here).
  split; [exact Hmro|].
  apply (roundtrip_namedtuple_of_scalars shapes_resolve_topic (fun s => s)
           example_read (fun s => s) example_read (fun s => s) example_read
           (fun s => s) example_read example_lt example_eq example_native_value
           example_object_new
           Size [VInt 3; VInt 4]).
  - exact Hmro.
  - discriminate.
  - reflexivity.
  - reflexivity.
  - reflexivity.
Defined.

End Transcoding.

(** ** Entity class names (eventsourcing/domain/model/events.py) *)

Module EntityNames.
Import Events.

(** [entity_class_name_from_domain_event_class(domain_event_class)].
    [str.split] returns one part at least, so the index [0] is always in
    range; the branch of the empty list stands for the [IndexError] that
    does not occur. *)
Definition entity_class_name_from_domain_event_class (py : interp)
    (domain_event_class : oid) : result string :=
  match dunder_qualname py !! domain_event_class with
  | Some qualname =>
      match Transcoding.split "." qualname with
      | name :: _ => Ok name
      | [] => Raise Exception
      end
  | None => Raise AttributeError
  end.

(** The first part of [s.split(sep)] is the head of [s.partition(sep)]. *)
Lemma split_head (sep : ascii) (s : string) :
  ∃ name parts m t,
    Transcoding.split sep s = name :: parts
    ∧ partition sep s = (name, m, t)
    ∧ str_contains sep name = false
    ∧ (s = name ∨ s = name +:+ String sep t).
Proof.
  induction s as [|c s (name & parts & m & t & Hsplit & Hpart & Hname & Hs)].
  - exists "", [], "", "". by split_and!; [..|left].
  - simpl. destruct (decide (c = sep)) as [->|Hne].
    + exists "", (Transcoding.split sep s), (String sep ""), s.
      by split_and!; [..|right].
    + rewrite Hsplit, Hpart. exists (String c name), parts, m, t.
      split_and!; [done|done|simpl; by rewrite decide_False|].
      destruct Hs as [->|Hs]; [by left|right]. by rewrite Hs at 1.
Qed.

(** X12: the entity class name of a class with a [__qualname__] is the part of
    the qualified name before its first dot: it holds no dot, it is the
    whole qualified name or is followed there by a dot, and it is the name
    that [resolve_attr] looks up first on the same path. *)
Theorem entity_class_name_is_head (py : interp) (cls : oid)
    (qualname : string) :
  dunder_qualname py !! cls = Some qualname →
  ∃ name m t,
    entity_class_name_from_domain_event_class py cls = Ok name
    ∧ partition "." qualname = (name, m, t)
    ∧ str_contains "." name = false
    ∧ (qualname = name ∨ qualname = name +:+ String "." t).
Proof.
  intros Hq. unfold entity_class_name_from_domain_event_class. rewrite Hq.
  destruct (split_head "." qualname)
    as (name & parts & m & t & -> & Hpart & Hname & Hs).
  by exists name, m, t.
Qed.

(** [Example.Created] is an event of [Example]. *)
Lemma entity_class_name_is_head_witness :
  ∃ name m t,
    entity_class_name_from_domain_event_class example_interp 3 = Ok name
    ∧ partition "." "Example.Created" = (name, m, t)
    ∧ str_contains "." name = false
    ∧ ("Example.Created" = name
       ∨ "Example.Created" = name +:+ String "." t).
Proof.
  exact (entity_class_name_is_head example_interp 3 "Example.Created"
           eq_refl).
Defined.

End EntityNames.

(** ** The example entity (eventsourcing/example/domainmodel.py) *)

Module DomainModel.

Section example.
(** [Entity]: the state of an [Example].  The two methods that [beat_heart]
    calls are those of [TimestampedVersionedEntity]
    (eventsourcing/domain/model/entity.py, not among the sources):
    [__assert_not_discarded__] and [__trigger_event__], here with
    [Example.Heartbeat] as the class of the event. *)
Context {Entity : Type}.
Variable assert_not_discarded : Entity → result unit.
Variable trigger_Heartbeat : Entity → result Entity.
Variable count_heartbeats : Entity → Z.

(** The loop of [beat_heart]: [while number_of_beats > 0]. *)
Equations? beat_loop (number_of_beats : Z) (self : Entity) : result Entity
  by wf (Z.to_nat number_of_beats) lt :=
  beat_loop n self with decide (0 < n)%Z => {
    | left _ => self' ← trigger_Heartbeat self; beat_loop (n - 1)%Z self'
    | right _ => Ok self }.
Proof. lia. Qed.

(** [Example.beat_heart] *)
Definition beat_heart (self : Entity) (number_of_beats : Z)
  : result Entity :=
  _ ← assert_not_discarded self; beat_loop number_of_beats self.

(** [k] heartbeats triggered one after the other, up to the first that
    fails. *)
Fixpoint heartbeats (k : nat) (self : Entity) : result Entity :=
  match k with
  | O => Ok self
  | S k' => self' ← trigger_Heartbeat self; heartbeats k' self'
  end.

Lemma beat_loop_heartbeats (k : nat) (self : Entity) :
  beat_loop (Z.of_nat k) self = heartbeats k self.
Proof.
  revert self. induction k as [|k IH]; intros self.
  - by simp beat_loop.
  - simp beat_loop. destruct (decide (0 < Z.of_nat (S k))%Z); [|lia].
    simpl. destruct (trigger_Heartbeat self) as [self'|]; [|done].
    simpl. rewrite <- IH. f_equal. lia.
Qed.

Lemma beat_loop_not_positive (n : Z) (self : Entity) :
  (n ≤ 0)%Z → beat_loop n self = Ok self.
Proof.
  intros Hn. simp beat_loop. by destruct (decide (0 < n)%Z); [lia|].
Qed.

Lemma heartbeats_count (k : nat) (self self' : Entity) :
  (∀ e e', trigger_Heartbeat e = Ok e' →
           count_heartbeats e' = (count_heartbeats e + 1)%Z) →
  heartbeats k self = Ok self' →
  count_heartbeats self' = (count_heartbeats self + Z.of_nat k)%Z.
Proof.
  intros Htrigger. revert self.
  induction k as [|k IH]; intros self; simpl.
  - intros [= <-]. lia.
  - destruct (trigger_Heartbeat self) as [e|] eqn:He; [|done]. simpl.
    intros Hk. rewrite (IH _ Hk), (Htrigger _ _ He). lia.
Qed.

(** X25: [beat_heart] triggers nothing on an entity that
    [__assert_not_discarded__] refuses; otherwise it triggers
    [number_of_beats] heartbeats one after the other and stops at the first
    that fails, and none at all when the number is zero or negative. *)
Theorem beat_heart_heartbeats (self : Entity) (number_of_beats : Z) :
  beat_heart self number_of_beats
  = match assert_not_discarded self with
    | Ok _ => heartbeats (Z.to_nat number_of_beats) self
    | Raise e => Raise e
    end.
Proof.
  unfold beat_heart. destruct (assert_not_discarded self); [|done]. simpl.
  destruct (decide (0 < number_of_beats)%Z).
  - rewrite <- beat_loop_heartbeats. f_equal. lia.
  - rewrite beat_loop_not_positive by lia.
    by replace (Z.to_nat number_of_beats) with 0 by lia.
Qed.

(** X26: where every heartbeat that is triggered raises the count by one, as
    [Heartbeat.mutate] does, [beat_heart] raises it by [number_of_beats],
    and by nothing when the number is negative. *)
Theorem beat_heart_count (self self' : Entity) (number_of_beats : Z) :
  (∀ e e', trigger_Heartbeat e = Ok e' →
           count_heartbeats e' = (count_heartbeats e + 1)%Z) →
  beat_heart self number_of_beats = Ok self' →
  count_heartbeats self'
  = (count_heartbeats self + Z.max 0 number_of_beats)%Z.
Proof.
  intros Htrigger. unfold beat_heart.
  destruct (assert_not_discarded self); [|done]. simpl.
  destruct (decide (0 < number_of_beats)%Z).
  - replace number_of_beats with (Z.of_nat (Z.to_nat number_of_beats))
      at 1 by lia.
    rewrite beat_loop_heartbeats. intros Hk.
    rewrite (heartbeats_count _ _ _ Htrigger Hk). lia.
  - rewrite beat_loop_not_positive by lia. intros [= <-]. lia.
Qed.

End example.

(** An [Example] as far as heartbeats go: whether it is discarded, and its
    [_count_heartbeats]. *)
Record Example : Type := {
  _is_discarded : bool;
  _count_heartbeats : Z
}.

(** [Heartbeat.mutate] *)
Definition Heartbeat_mutate (obj : Example) : Example :=
  {| _is_discarded := _is_discarded obj;
     _count_heartbeats := _count_heartbeats obj + 1 |}.

Definition example_assert_not_discarded (self : Example) : result unit :=
  if _is_discarded self then Raise AssertionError else Ok ().

Definition example_trigger (self : Example) : result Example :=
  Ok (Heartbeat_mutate self).

(** Three beats of an entity that has had two. *)
Lemma beat_heart_count_witness :
  beat_heart example_assert_not_discarded example_trigger
    {| _is_discarded := false; _count_heartbeats := 2 |} 3
  = Ok {| _is_discarded := false; _count_heartbeats := 5 |}
  ∧ _count_heartbeats {| _is_discarded := false; _count_heartbeats := 5 |}
    = (2 + Z.max 0 3)%Z.
Proof.
  assert (beat_heart example_assert_not_discarded example_trigger
            {| _is_discarded := false; _count_heartbeats := 2 |} 3
          = Ok {| _is_discarded := false; _count_heartbeats := 5 |})
    as Hbeats by (vm_compute; reflexivity).
  split; [exact Hbeats|].
  apply (beat_heart_count example_assert_not_discarded example_trigger
           _count_heartbeats
           {| _is_discarded := false; _count_heartbeats := 2 |}
           {| _is_discarded := false; _count_heartbeats := 5 |} 3).
  - intros e e' [= <-]. reflexivity.
  - exact Hbeats.
Defined.

End DomainModel.
